(** * inaFaceAnalyzer: geometric post-processing and face selection

    A shallow embedding of the Python sources
      - inaFaceAnalyzer/face_detector.py
      - inaFaceGender/face_utils.py
      - inaFaceGender/opencv_utils.py
      - inaFaceGender/face_alignment.py
    and the theorems that settle the properties stated about them.

    Numbers.  Python [int]s are [Z].  A float is the rational [Q] that it
    denotes; equality of two computed rationals is [Qeq] ([==]).  The
    float products that the sources take before an [int()], a floor or a
    comparison ([x * paddpercent], [min_size_prct * min_frame_dim],
    [start * fps]) are rounded to the nearest double ([Py.fmul]); the
    arithmetic on box coordinates, which lives in [rect.py], is the exact
    one.  dlib's rectangles keep their C arithmetic: coordinates in a
    64-bit [long], widths and areas modulo 2^64.

    Errors.  A Python call either returns a value or raises; this is the
    [result] type of module [Py]. *)

From Stdlib Require Import QArith Qround Qminmax Qabs ZArith List String Bool Lia Lqa.
From Stdlib Require Import Setoid Morphisms Sorted.
Import ListNotations.

(* ================================================================= *)
(** * The Python runtime fragment the sources rely on *)
(* ================================================================= *)

Module Py.

(** The exceptions that the modelled code can raise. *)
Inductive exn : Type :=
| AttributeError (attr : string)
| TypeError (msg : string)
| AssertionError
| NotImplementedError
| ZeroDivisionError
| IndexError
| ValueError
| Exception (msg : string).

(** The outcome of a call: a returned value or a raised exception. *)
Inductive result (A : Type) : Type :=
| Ok (a : A)
| Raise (e : exn).

Arguments Ok {A} a.
Arguments Raise {A} e.

Definition bind {A B : Type} (m : result A) (k : A -> result B) : result B :=
  match m with
  | Ok a => k a
  | Raise e => Raise e
  end.

(** [getattr name slot]: reading an instance attribute that [__init__] may
    or may not have set. *)
Definition getattr {A : Type} (name : string) (slot : option A) : result A :=
  match slot with
  | Some v => Ok v
  | None => Raise (AttributeError name)
  end.

(** [[f(x) for x in l]] where [f] may raise: left to right, the first
    exception aborts the comprehension. *)
Fixpoint mapM {A B : Type} (f : A -> result B) (l : list A) : result (list B) :=
  match l with
  | [] => Ok []
  | x :: t =>
      match f x with
      | Raise e => Raise e
      | Ok y =>
          match mapM f t with
          | Raise e => Raise e
          | Ok ys => Ok (y :: ys)
          end
      end
  end.

(** [[x for x in l if p(x)]] where [p] may raise. *)
Fixpoint filterM {A : Type} (p : A -> result bool) (l : list A) : result (list A) :=
  match l with
  | [] => Ok []
  | x :: t =>
      match p x with
      | Raise e => Raise e
      | Ok b =>
          match filterM p t with
          | Raise e => Raise e
          | Ok ys => Ok (if b then x :: ys else ys)
          end
      end
  end.

(** Strict comparison [x < y] on rationals, as a boolean. *)
Definition Qltb (x y : Q) : bool := negb (Qle_bool y x).

(** Python's [max(a, b)] and [min(a, b)]: the first argument wins a tie. *)
Definition max (a b : Q) : Q := if Qltb a b then b else a.
Definition min (a b : Q) : Q := if Qltb b a then b else a.

(** Truth value of a number: [if x:] holds when [x] is not zero. *)
Definition truthy (x : Q) : bool := negb (Qeq_bool x 0).

(** [int(x)]: truncation toward zero. *)
Definition int (x : Q) : Z := Z.quot (Qnum x) (Z.pos (Qden x)).

(** [np.round(x)]: rounding to the nearest integer, halves to the even one. *)
Definition np_round (x : Q) : Z :=
  let f := Qfloor x in
  match Qcompare (x - inject_Z f) (1 # 2) with
  | Lt => f
  | Gt => (f + 1)%Z
  | Eq => if Z.even f then f else (f + 1)%Z
  end.

(** [2 ** e] as a rational, for any integer [e]. *)
Definition pow2 (e : Z) : Q :=
  match e with
  | Z0 => 1
  | Zpos p => inject_Z (2 ^ Zpos p)
  | Zneg p => 1 # (2 ^ p)%positive
  end.

(** [floor(log2(a))] for a positive rational [a]. *)
Definition ilog2 (a : Q) : Z :=
  let k := (Z.log2 (Qnum a) - Z.log2 (Z.pos (Qden a)))%Z in
  if Qle_bool (pow2 k) a then k else (k - 1)%Z.

(** The double nearest to a positive rational: 53 significant bits,
    ties to the even significand; below 2 ** -1022 the spacing stays
    2 ** -1074 (subnormal numbers).  Overflow to infinity, beyond
    1.8e308, is left out. *)
Definition float_of_pos (a : Q) : Q :=
  let e := Z.max (ilog2 a - 52) (-1074) in
  inject_Z (np_round (a / pow2 e)) * pow2 e.

(** [float(q)]: the double nearest to [q]. *)
Definition float (q : Q) : Q :=
  match Qnum q with
  | Z0 => 0
  | Zpos _ => float_of_pos q
  | Zneg _ => - float_of_pos (- q)
  end.

(** [a * b] where one operand at least is a float: both are taken as
    doubles (an [int] is converted) and their product is rounded to the
    nearest double. *)
Definition fmul (a b : Q) : Q := float (float a * float b).

(** [np.argmin(l)] on a non-empty list: the index of the first minimum.
    [argmin_from i best bi l] scans [l], whose first element has index [i],
    with [best] the least value so far, found at index [bi]. *)
Fixpoint argmin_from (i : nat) (best : Q) (bi : nat) (l : list Q) : nat :=
  match l with
  | [] => bi
  | x :: t =>
      if Qltb x best then argmin_from (S i) x i t
      else argmin_from (S i) best bi t
  end.

Definition argmin (l : list Q) : nat :=
  match l with
  | [] => 0%nat
  | x :: t => argmin_from 1 x 0 t
  end.

(** [np.argmax(l)] on a non-empty list: the index of the first maximum. *)
Fixpoint argmax_from (i : nat) (best : Q) (bi : nat) (l : list Q) : nat :=
  match l with
  | [] => bi
  | x :: t =>
      if Qltb best x then argmax_from (S i) x i t
      else argmax_from (S i) best bi t
  end.

Definition argmax (l : list Q) : nat :=
  match l with
  | [] => 0%nat
  | x :: t => argmax_from 1 x 0 t
  end.

End Py.

Notation "x <- m ;; k" := (Py.bind m (fun x => k))
  (at level 61, m at next level, right associativity).

Import Py.

(* ================================================================= *)
(** * Frames *)
(* ================================================================= *)

(** A numpy image array: [frame.shape = (height, width, channels)] and
    its pixels, [px row column channel]. *)
Record Frame : Type := mkFrame {
  shape0 : Z;
  shape1 : Z;
  shape2 : Z;
  px : Z -> Z -> Z -> Z
}.

(* ================================================================= *)
(** * Rect: the bounding-box type (inaFaceAnalyzer/rect.py) *)
(* ================================================================= *)

(** Modelled from the spec: [face_detector.py] imports [Rect] from
    [inaFaceAnalyzer/rect.py], which is not among the sources.  The spec
    (section 3) gives: four coordinates (x1,y1,x2,y2); derived attributes
    width, height, area, center point, max dimension length; operations
    [mult(w,h)], [transpose(dx,dy)], [square], [iou(other)] and a
    containment test for a point. *)
Record Rect : Type := mkRect { x1 : Q; y1 : Q; x2 : Q; y2 : Q }.

(** Modelled from the spec: numeric equality of two boxes of [rect.py],
    coordinate by coordinate. *)
Definition Rect_eq (a b : Rect) : Prop :=
  x1 a == x1 b /\ y1 a == y1 b /\ x2 a == x2 b /\ y2 a == y2 b.

(** Modelled from the spec: the well-formedness invariant of [rect.py]
    boxes, x1<x2 and y1<y2. *)
Definition well_formed (r : Rect) : Prop := x1 r < x2 r /\ y1 r < y2 r.

(** Modelled from the spec: attribute [w] (width) of [rect.py]. *)
Definition Rect_w (r : Rect) : Q := x2 r - x1 r.

(** Modelled from the spec: attribute [h] (height) of [rect.py]. *)
Definition Rect_h (r : Rect) : Q := y2 r - y1 r.

(** Modelled from the spec: attribute [area] of [rect.py]. *)
Definition Rect_area (r : Rect) : Q := Rect_w r * Rect_h r.

(** Modelled from the spec: attribute [center] of [rect.py], the center
    point of the box. *)
Definition Rect_center (r : Rect) : Q * Q :=
  ((x1 r + x2 r) / 2, (y1 r + y2 r) / 2).

(** Modelled from the spec: attribute [max_dim_len] of [rect.py], the
    length of the longer side. *)
Definition Rect_max_dim_len (r : Rect) : Q := Py.max (Rect_w r) (Rect_h r).

(** Modelled from the spec: [Rect.mult(w,h)] of [rect.py], scaling
    normalized coordinates to pixel space. *)
Definition Rect_mult (r : Rect) (w h : Q) : Rect :=
  mkRect (x1 r * w) (y1 r * h) (x2 r * w) (y2 r * h).

(** Modelled from the spec: [Rect.transpose(dx,dy)] of [rect.py], the
    shift of a box. *)
Definition Rect_transpose (r : Rect) (dx dy : Q) : Rect :=
  mkRect (x1 r + dx) (y1 r + dy) (x2 r + dx) (y2 r + dy).

(** Modelled from the spec: [Rect.square] of [rect.py], the smallest
    square box centered at the same center covering the box. *)
Definition Rect_square (r : Rect) : Rect :=
  let c := Rect_center r in
  let o := Rect_max_dim_len r / 2 in
  mkRect (fst c - o) (snd c - o) (fst c + o) (snd c + o).

(** Modelled from the spec: the intersection of two boxes of [rect.py];
    the empty box when they do not overlap. *)
Definition Rect_intersect (a b : Rect) : Rect :=
  let ix1 := Py.max (x1 a) (x1 b) in
  let iy1 := Py.max (y1 a) (y1 b) in
  let ix2 := Py.min (x2 a) (x2 b) in
  let iy2 := Py.min (y2 a) (y2 b) in
  if Qltb ix2 ix1 || Qltb iy2 iy1 then mkRect 0 0 0 0
  else mkRect ix1 iy1 ix2 iy2.

(** Modelled from the spec: [Rect.iou(other)] of [rect.py], the area of
    the intersection over the area of the union.  For boxes of positive
    area the union is positive (lemma [Rect_union_pos] below); the quotient
    is the rationals' total one. *)
Definition Rect_iou (a b : Rect) : Q :=
  let inter := Rect_area (Rect_intersect a b) in
  let union := Rect_area a + Rect_area b - inter in
  inter / union.

(** Modelled from the spec: [point in rect] ([Rect.__contains__] of
    [rect.py]), the containment test for a point, borders included. *)
Definition Rect_contains (r : Rect) (p : Q * Q) : bool :=
  Qle_bool (x1 r) (fst p) && Qle_bool (fst p) (x2 r) &&
  Qle_bool (y1 r) (snd p) && Qle_bool (snd p) (y2 r).

(* ================================================================= *)
(** * inaFaceAnalyzer/face_detector.py *)
(* ================================================================= *)

Module face_detector.

(** [detect_conf]: a float, [None] (PrecomputedDetector) or [np.NAN]
    (IdentityFaceDetector). *)
Inductive conf : Type :=
| Conf (c : Q)
| ConfNone
| ConfNaN.

(** [class Detection(NamedTuple)]. *)
Record Detection : Type := mkDetection { bbox : Rect; detect_conf : conf }.

(** [class DetectionEyes(NamedTuple)]. *)
Record DetectionEyes : Type :=
  mkDetectionEyes { e_bbox : Rect; e_detect_conf : conf; eyes : Rect }.

(** A plain Python tuple [((x1, y1, x2, y2), conf)], as built by
    [IdentityFaceDetector._call_imp]: it has no attribute [bbox]. *)
Record RawTuple : Type := mkRawTuple { t_box : Z * Z * Z * Z; t_conf : conf }.

(** What [FaceDetector.__call__] asks of the elements returned by
    [_call_imp]: reading [e.bbox] and [e._replace(bbox=...)]. *)
Class HasBbox (D : Type) : Type := {
  get_bbox : D -> result Rect;
  replace_bbox : D -> Rect -> result D
}.

#[export] Instance Detection_HasBbox : HasBbox Detection := {
  get_bbox d := Ok (bbox d);
  replace_bbox d b := Ok (mkDetection b (detect_conf d))
}.

#[export] Instance DetectionEyes_HasBbox : HasBbox DetectionEyes := {
  get_bbox d := Ok (e_bbox d);
  replace_bbox d b := Ok (mkDetectionEyes b (e_detect_conf d) (eyes d))
}.

#[export] Instance RawTuple_HasBbox : HasBbox RawTuple := {
  get_bbox _ := Raise (AttributeError "bbox");
  replace_bbox _ _ := Raise (AttributeError "_replace")
}.

(** The instance attributes that [FaceDetector.__init__] sets; a slot is
    [None] as long as no [__init__] has assigned it. *)
Record Attrs : Type := mkAttrs {
  minconf : option Q;
  min_size_px : option Q;
  min_size_prct : option Q;
  padd_prct : option Q
}.

Definition no_attrs : Attrs := mkAttrs None None None None.

(** [FaceDetector.__init__(self, minconf, min_size_px, min_size_prct, padd_prct)]. *)
Definition FaceDetector__init__ (minconf min_size_px min_size_prct padd_prct : Q) : Attrs :=
  mkAttrs (Some minconf) (Some min_size_px) (Some min_size_prct) (Some padd_prct).

(** A concrete detector: the instance state [S], its attributes and its
    [_call_imp], which returns the detections and the state after the
    call (PrecomputedDetector mutates its queue). *)
Class Detector (S D : Type) : Type := {
  attrs : S -> Attrs;
  _call_imp : S -> Frame -> result (list D * S)
}.

(** [_blackpadd(frame, paddpercent)]: the frame pasted into a black image;
    returns the padded frame, [yoffset] and [xoffset].  With a negative
    offset numpy raises [ValueError]: [np.zeros] refuses a negative
    dimension, and otherwise the slice [ret[yoffset:(y + yoffset), ...]]
    is shorter than the frame assigned to it. *)
Definition _blackpadd (frame : Frame) (paddpercent : Q) : result (Frame * Z * Z) :=
  let y := shape0 frame in
  let x := shape1 frame in
  let z := shape2 frame in
  let xoffset := Py.int (Py.fmul (inject_Z x) paddpercent) in
  let yoffset := Py.int (Py.fmul (inject_Z y) paddpercent) in
  if ((xoffset <? 0) || (yoffset <? 0))%Z then Raise ValueError
  else
    let ret :=
      mkFrame (y + 2 * yoffset) (x + 2 * xoffset) z
        (fun r c k =>
           if ((yoffset <=? r) && (r <? y + yoffset) &&
               (xoffset <=? c) && (c <? x + xoffset))%Z
           then px frame (r - yoffset) (c - xoffset) k
           else 0%Z) in
    Ok (ret, yoffset, xoffset).

(** [_sqdist(p1, p2)]: squared distance between two points. *)
Definition _sqdist (p1 p2 : Q * Q) : Q :=
  (fst p1 - fst p2) ^ 2 + (snd p1 - snd p2) ^ 2.

Section FaceDetector.

Context {S D : Type} `{Detector S D} `{HasBbox D}.

(** The size filter of [__call__] (lines 72-75), on the list returned by
    [_call_imp]. *)
Definition size_filter (min_size_px min_size_prct : Q) (frame : Frame)
    (lret : list D) : result (list D) :=
  let min_frame_dim := Z.min (shape0 frame) (shape1 frame) in
  let min_face_size := Py.max min_size_px (Py.fmul min_size_prct (inject_Z min_frame_dim)) in
  if Qltb 0 min_face_size then
    filterM (fun e => b <- get_bbox e ;; Ok (Qle_bool min_face_size (Rect_max_dim_len b))) lret
  else Ok lret.

(** The shift back to the unpadded frame (line 78). *)
Definition unpad (xoffset yoffset : Z) (lret : list D) : result (list D) :=
  mapM (fun e =>
          b <- get_bbox e ;;
          replace_bbox e (Rect_transpose b (inject_Z (- xoffset)) (inject_Z (- yoffset))))
       lret.

(** [FaceDetector.__call__(self, frame)]; the [verbose] branch only
    displays and is left out. *)
Definition __call__ (self : S) (frame : Frame) : result (list D * S) :=
  p <- getattr "padd_prct" (padd_prct (attrs self)) ;;
  pad <- (if truthy p then _blackpadd frame p else Ok (frame, 0%Z, 0%Z)) ;;
  let '(tmpframe, yoffset, xoffset) := pad in
  r <- _call_imp self tmpframe ;;
  let '(lret, self') := r in
  mpx <- getattr "min_size_px" (min_size_px (attrs self')) ;;
  mprct <- getattr "min_size_prct" (min_size_prct (attrs self')) ;;
  lret <- size_filter mpx mprct frame lret ;;
  p' <- getattr "padd_prct" (padd_prct (attrs self')) ;;
  lret <- (if truthy p' then unpad xoffset yoffset lret else Ok lret) ;;
  Ok (lret, self').

(** [FaceDetector.most_central_face(self, frame)]. *)
Definition most_central_face (self : S) (frame : Frame) : result (option D * S) :=
  let frame_center := (inject_Z (shape1 frame) / 2, inject_Z (shape0 frame) / 2) in
  r <- __call__ self frame ;;
  let '(lret, self') := r in
  faces <- filterM (fun f => b <- get_bbox f ;; Ok (Rect_contains b frame_center)) lret ;;
  if (List.length faces =? 0)%nat then Ok (None, self')
  else
    ldists <- mapM (fun f => b <- get_bbox f ;; Ok (_sqdist (Rect_center b) frame_center)) faces ;;
    let am := argmin ldists in
    match nth_error faces am with
    | Some f => Ok (Some f, self')
    | None => Raise IndexError
    end.

End FaceDetector.

(** ** ABC instantiation *)

(** [FaceDetector] declares two abstract members, [output_type] and
    [_call_imp]; a subclass whose body leaves one of them undefined stays
    abstract. *)
Record ClassBody : Type := mkClassBody {
  cls_name : string;
  defines_output_type : bool;
  defines__call_imp : bool
}.

Definition abstractmethods (c : ClassBody) : list string :=
  (if defines_output_type c then [] else ["output_type"%string]) ++
  (if defines__call_imp c then [] else ["_call_imp"%string]).

(** [cls(...)]: Python refuses to instantiate a class that still has
    abstract methods; otherwise the object is what [__init__] builds. *)
Definition instantiate {S : Type} (c : ClassBody) (init : S) : result S :=
  match abstractmethods c with
  | [] => Ok init
  | _ :: _ => Raise (TypeError "Can't instantiate abstract class")
  end.

(** ** OcvCnnFacedetector *)

(** One row [detections[0, 0, i, :]] of the network's output:
    the confidence (column 2) and the normalized box (columns 3 to 6). *)
Record RawDetection : Type := mkRaw {
  confidence : Q;
  rx1 : Q; ry1 : Q; rx2 : Q; ry2 : Q
}.

(** An [OcvCnnFacedetector] instance: the attributes and the loaded
    network, [forward] giving the rows of [self.model.forward()] for the
    frame set as input. *)
Record OcvCnn : Type := mkOcvCnn {
  ocv_attrs : Attrs;
  forward : Frame -> list RawDetection
}.

Definition OcvCnn_class : ClassBody := mkClassBody "OcvCnnFacedetector" true true.

(** [OcvCnnFacedetector.__init__(self, minconf=0.65, min_size_px=30,
    min_size_prct=0, padd_prct=0.15)]. *)
Definition OcvCnn__init__ (model : Frame -> list RawDetection)
    (minconf min_size_px min_size_prct padd_prct : Q) : OcvCnn :=
  mkOcvCnn (FaceDetector__init__ minconf min_size_px min_size_prct padd_prct) model.

(** [np.sort] along the last axis, in ascending order. *)
Fixpoint np_insert (x : Q) (l : list Q) : list Q :=
  match l with
  | [] => [x]
  | y :: t => if Qle_bool x y then x :: l else y :: np_insert x t
  end.

Fixpoint np_sort (l : list Q) : list Q :=
  match l with
  | [] => []
  | x :: t => np_insert x (np_sort t)
  end.

(** [np.all(a == b)] on two vectors of the same length. *)
Fixpoint np_all_eq (a b : list Q) : bool :=
  match a, b with
  | [], [] => true
  | x :: a', y :: b' => Qeq_bool x y && np_all_eq a' b'
  | _, _ => false
  end.

(** The asserted condition of line 195:
    [np.all(-np.sort(-detections[:,:,:,2]) == detections[:,:,:,2])]. *)
Definition sorted_assertion (detections : list RawDetection) : bool :=
  let c := map confidence detections in
  np_all_eq (map Qopp (np_sort (map Qopp c))) c.

(** The decoding loop of lines 197-212: [faces_data] is the list built so
    far, [detections] the rows from index [i] on; [self.minconf] is read
    at every iteration. *)
Fixpoint decode_loop (self_minconf : option Q) (w h : Z)
    (detections : list RawDetection) (faces_data : list Detection)
    : result (list Detection) :=
  match detections with
  | [] => Ok faces_data
  | d :: rest =>
      mc <- getattr "minconf" self_minconf ;;
      if Qltb (confidence d) mc then Ok faces_data (* break *)
      else
        let bbox := mkRect (rx1 d) (ry1 d) (rx2 d) (ry2 d) in
        if Qle_bool 1 (x1 bbox) || Qle_bool 1 (y1 bbox) ||
           Qle_bool (x2 bbox) 0 || Qle_bool (y2 bbox) 0
        then decode_loop self_minconf w h rest faces_data (* continue *)
        else if Qle_bool (x2 bbox) (x1 bbox) || Qle_bool (y2 bbox) (y1 bbox)
        then decode_loop self_minconf w h rest faces_data (* continue *)
        else
          let bbox := Rect_mult bbox (inject_Z w) (inject_Z h) in
          decode_loop self_minconf w h rest
            (faces_data ++ [mkDetection bbox (Conf (confidence d))])
  end.

(** [OcvCnnFacedetector._call_imp(self, frame)]. *)
Definition OcvCnn_call_imp (self : OcvCnn) (frame : Frame)
    : result (list Detection * OcvCnn) :=
  let faces_data := [] in
  let h := shape0 frame in
  let w := shape1 frame in
  let detections := forward self frame in
  if negb (sorted_assertion detections) then Raise AssertionError
  else
    faces_data <- decode_loop (minconf (ocv_attrs self)) w h detections faces_data ;;
    Ok (faces_data, self).

#[export] Instance OcvCnn_Detector : Detector OcvCnn Detection := {
  attrs := ocv_attrs;
  _call_imp := OcvCnn_call_imp
}.

(** The [ref_bbox] argument of [get_closest_face]: a [Rect] or any other
    4-sequence, which line 219 turns into a [Rect]. *)
Inductive RefBox : Type :=
| RefRect (r : Rect)
| RefSeq (a b c d : Q).

(** [OcvCnnFacedetector.get_closest_face(self, frame, ref_bbox, min_iou,
    squarify)]. *)
Definition get_closest_face (self : OcvCnn) (frame : Frame) (ref_bbox : RefBox)
    (min_iou : Q) (squarify : bool) : result (option Detection * OcvCnn) :=
  let ref_bbox :=
    match ref_bbox with
    | RefRect r => r
    | RefSeq a b c d => mkRect a b c d
    end in
  let f := if squarify then Rect_square else (fun x => x) in
  let ref_bbox := f ref_bbox in
  r <- __call__ self frame ;;
  let '(lfaces, self') := r in
  if (List.length lfaces =? 0)%nat then Ok (None, self')
  else
    let liou := map (fun detection => Rect_iou (f ref_bbox) (f (bbox detection))) lfaces in
    let am := argmax liou in
    match nth_error liou am with
    | None => Raise IndexError
    | Some v =>
        if Qltb v min_iou then Ok (None, self')
        else
          match nth_error lfaces am with
          | Some d => Ok (Some d, self')
          | None => Raise IndexError
          end
    end.

(** ** IdentityFaceDetector *)

(** The class body defines [__init__] and [_call_imp] only. *)
Definition Identity_class : ClassBody := mkClassBody "IdentityFaceDetector" false true.

(** An [IdentityFaceDetector] instance holds nothing but the attribute
    slots. *)
Record Identity : Type := mkIdentity { id_attrs : Attrs }.

(** [IdentityFaceDetector.__init__(self)]: [pass]. *)
Definition Identity__init__ : Identity := mkIdentity no_attrs.

(** [IdentityFaceDetector._call_imp(self, frame)]. *)
Definition Identity_call_imp (self : Identity) (frame : Frame)
    : result (list RawTuple * Identity) :=
  Ok ([mkRawTuple (0%Z, 0%Z, shape1 frame, shape0 frame) ConfNaN], self).

#[export] Instance Identity_Detector : Detector Identity RawTuple := {
  attrs := id_attrs;
  _call_imp := Identity_call_imp
}.

(** [IdentityFaceDetector()(frame)]: building the detector and calling it
    on a frame. *)
Definition Identity_detect (frame : Frame) : result (list RawTuple * Identity) :=
  self <- instantiate Identity_class Identity__init__ ;;
  __call__ self frame.

(** ** PrecomputedDetector *)

(** An element of [lbbox]: a tuple [(x1, y1, x2, y2)] or a list of such
    tuples. *)
Inductive Entry : Type :=
| TupleEntry (t : Q * Q * Q * Q)
| ListEntry (l : list (Q * Q * Q * Q)).

Record Precomputed : Type := mkPrecomputed {
  pre_attrs : Attrs;
  lbbox : list Entry
}.

Definition Precomputed_class : ClassBody := mkClassBody "PrecomputedDetector" true true.

(** [PrecomputedDetector.__init__(self, lbbox=[])]: the argument is
    copied, so the caller's list is not the one that is consumed. *)
Definition Precomputed__init__ (lbbox : list Entry) : Precomputed :=
  mkPrecomputed (FaceDetector__init__ 0 0 0 0) lbbox.

(** [Rect] built from the unpacked 4-tuple [e]. *)
Definition Rect_of_tuple (e : Q * Q * Q * Q) : Rect :=
  let '(a, b, c, d) := e in mkRect a b c d.

(** [PrecomputedDetector._call_imp(self, frame)]. *)
Definition Precomputed_call_imp (self : Precomputed) (frame : Frame)
    : result (list Detection * Precomputed) :=
  match lbbox self with
  | [] => Ok ([], self)
  | ret :: rest =>
      let self' := mkPrecomputed (pre_attrs self) rest in (* pop(0) *)
      let ret := match ret with
                 | TupleEntry t => [t]
                 | ListEntry l => l
                 end in
      Ok (map (fun e => mkDetection (Rect_of_tuple e) ConfNone) ret, self')
  end.

#[export] Instance Precomputed_Detector : Detector Precomputed Detection := {
  attrs := pre_attrs;
  _call_imp := Precomputed_call_imp
}.

(** ** LibFaceDetection *)

(** One row of the array that [PriorBox.decode] returns: the box as
    (x1, y1, w, h) in columns 0 to 3, the eyes in columns 4 to 7 and the
    score in the last column. *)
Record DetRow : Type := mkDetRow {
  d_x1 : Q; d_y1 : Q; d_w : Q; d_h : Q;
  d_eyes : Q * Q * Q * Q;
  d_score : Q
}.

Section LibFaceDetection.

(** The model runtime, the prior boxes of [libfacedetection_priorbox.py]
    (not among the sources) and OpenCV's non-max suppression stay
    abstract: [run frame] is the triple (loc, conf, iou) that the ONNX
    session returns for the frame, [PriorBox input_shape output_shape]
    builds the anchors, [decode pb tensors minconf] gives the candidate
    rows and [NMSBoxes bboxes scores score_threshold nms_threshold eta
    top_k] the indices of the rows to keep. *)
Context {Tensors PriorBoxT : Type}.
Variable run : Frame -> Tensors.
Variable PriorBox : Z * Z -> Z * Z -> PriorBoxT.
Variable decode : PriorBoxT -> Tensors -> Q -> list DetRow.
Variable NMSBoxes : list (Q * Q * Q * Q) -> list Q -> Q -> Q -> Q -> Z -> list nat.

(** A [LibFaceDetection] instance: the attributes, the two NMS settings
    and the dictionary [dprior] from frame sizes (w, h) to prior boxes,
    as the list of its items (a key occurs at most once). *)
Record LibFace : Type := mkLibFace {
  lib_attrs : Attrs;
  nms_thresh : Q;
  keep_top_k : Z;
  dprior : list ((Z * Z) * PriorBoxT)
}.

(** [LibFaceDetection.__init__(self, minconf=.98, min_size_px=30,
    min_size_prct=0, padd_prct=0)]. *)
Definition LibFace__init__ (minconf min_size_px min_size_prct padd_prct : Q) : LibFace :=
  mkLibFace (FaceDetector__init__ minconf min_size_px min_size_prct padd_prct)
            (3 # 10) 750 [].

(** [d[key]] on the items of a dictionary. *)
Fixpoint dict_get (key : Z * Z) (d : list ((Z * Z) * PriorBoxT)) : option PriorBoxT :=
  match d with
  | [] => None
  | (k, v) :: rest =>
      if ((fst k =? fst key) && (snd k =? snd key))%Z then Some v
      else dict_get key rest
  end.

(** [d[key] = value] for a key that is not yet in the dictionary. *)
Definition dict_add (key : Z * Z) (value : PriorBoxT) (d : list ((Z * Z) * PriorBoxT))
    : list ((Z * Z) * PriorBoxT) :=
  d ++ [(key, value)].

(** [LibFaceDetection._call_imp(self, frame)]. *)
Definition LibFace_call_imp (self : LibFace) (frame : Frame)
    : result (list DetectionEyes * LibFace) :=
  let h := shape0 frame in
  let w := shape1 frame in
  let tensors := run frame in
  let self :=
    match dict_get (w, h) (dprior self) with
    | Some _ => self
    | None =>
        mkLibFace (lib_attrs self) (nms_thresh self) (keep_top_k self)
                  (dict_add (w, h) (PriorBox (w, h) (w, h)) (dprior self))
    end in
  match dict_get (w, h) (dprior self) with
  | None => Raise (Exception "KeyError")
  | Some pb =>
      mc <- getattr "minconf" (minconf (lib_attrs self)) ;;
      let dets := decode pb tensors mc in
      if (0 <? List.length dets)%nat then
        mc' <- getattr "minconf" (minconf (lib_attrs self)) ;;
        let keep_idx :=
          NMSBoxes (map (fun d => (d_x1 d, d_y1 d, d_w d, d_h d)) dets)
                   (map d_score dets) mc' (nms_thresh self) 1 (keep_top_k self) in
        dets <- mapM (fun i => match nth_error dets i with
                               | Some d => Ok d
                               | None => Raise IndexError
                               end) keep_idx ;;
        Ok (map (fun d =>
                   let bbox := mkRect (d_x1 d) (d_y1 d) (d_x1 d + d_w d) (d_y1 d + d_h d) in
                   let '(e1, e2, e3, e4) := d_eyes d in
                   mkDetectionEyes bbox (Conf (d_score d)) (mkRect e1 e2 e3 e4))
                dets, self)
      else Ok ([], self)
  end.

End LibFaceDetection.

End face_detector.

(* ================================================================= *)
(** * dlib: rectangles, points and landmark shapes *)
(* ================================================================= *)

(** The part of the dlib library that [face_utils.py] and
    [face_alignment.py] call.  dlib is an external library; the
    definitions follow its behaviour: a [rectangle] is the set of pixels
    with [left <= x <= right] and [top <= y <= bottom], borders included;
    its coordinates are C [long]s and its width, height and area are
    computed in 64-bit [unsigned long]s, which wrap around. *)
Module dlib.

Record rectangle : Type := mkRectangle { left : Z; top : Z; right : Z; bottom : Z }.

(** The values of a C [long]. *)
Definition fits_long (z : Z) : bool := ((- 2 ^ 63 <=? z) && (z <? 2 ^ 63))%Z.

(** [dlib.rectangle(left, top, right, bottom)] called from Python: an
    argument that does not fit a [long] is refused with a [TypeError]
    (its message, which lists the supported signatures, is cut short). *)
Definition new_rectangle (l t r b : Z) : result rectangle :=
  if fits_long l && fits_long t && fits_long r && fits_long b
  then Ok (mkRectangle l t r b)
  else Raise (TypeError "incompatible constructor arguments").

Definition is_empty (r : rectangle) : bool :=
  (bottom r <? top r)%Z || (right r <? left r)%Z.

Definition width (r : rectangle) : Z :=
  if is_empty r then 0%Z else ((right r - left r + 1) mod 2 ^ 64)%Z.

Definition height (r : rectangle) : Z :=
  if is_empty r then 0%Z else ((bottom r - top r + 1) mod 2 ^ 64)%Z.

Definition area (r : rectangle) : Z := ((width r * height r) mod 2 ^ 64)%Z.

Definition intersect (a b : rectangle) : rectangle :=
  mkRectangle (Z.max (left a) (left b)) (Z.max (top a) (top b))
              (Z.min (right a) (right b)) (Z.min (bottom a) (bottom b)).

Record point : Type := mkPoint { x : Z; y : Z }.

(** [full_object_detection]: the landmarks found in a box. *)
Record full_object_detection : Type := mkShape { parts : list point }.

Definition num_parts (s : full_object_detection) : nat := List.length (parts s).

(** [shape.part(i)]: the [i]-th landmark; an index out of range raises. *)
Definition part (s : full_object_detection) (i : nat) : result point :=
  match nth_error (parts s) i with
  | Some p => Ok p
  | None => Raise IndexError
  end.

End dlib.

(* ================================================================= *)
(** * inaFaceGender/face_utils.py *)
(* ================================================================= *)

Module face_utils.

(** [tuple2rect(t)]: [dlib.rectangle] of the rounded coordinates. *)
Definition tuple2rect (t : Q * Q * Q * Q) : result dlib.rectangle :=
  let '(a, b, c, d) := t in
  dlib.new_rectangle (np_round a) (np_round b) (np_round c) (np_round d).

(** An argument of [intersection_over_union]: a [dlib.rectangle] or an
    iterable of four numbers. *)
Inductive BoxArg : Type :=
| ARect (r : dlib.rectangle)
| AIter (t : Q * Q * Q * Q).

Definition as_rectangle (a : BoxArg) : result dlib.rectangle :=
  match a with
  | ARect r => Ok r
  | AIter t => tuple2rect t
  end.

(** [a / b] on two Python [int]s. *)
Definition truediv (a b : Z) : result Q :=
  if (b =? 0)%Z then Raise ZeroDivisionError
  else Ok (inject_Z a / inject_Z b).

(** [intersection_over_union(x, y)]. *)
Definition intersection_over_union (x y : BoxArg) : result Q :=
  x <- as_rectangle x ;;
  y <- as_rectangle y ;;
  let inter := dlib.area (dlib.intersect x y) in
  let union := (dlib.area x + dlib.area y - inter)%Z in
  truediv inter union.

(** [_extract_eye(shape, eye_indices)]. *)
Definition _extract_eye (shape : dlib.full_object_detection) (eye_indices : list nat)
    : result (list dlib.point) :=
  mapM (fun i => dlib.part shape i) eye_indices.

(** Python's [sum] of a list of [int]s. *)
Definition sum (l : list Z) : Z := fold_left Z.add l 0%Z.

(** [_extract_eye_center(shape, eye_indices)]. *)
Definition _extract_eye_center (shape : dlib.full_object_detection)
    (eye_indices : list nat) : result (Z * Z) :=
  points <- _extract_eye shape eye_indices ;;
  let xs := map dlib.x points in
  let ys := map dlib.y points in
  Ok ((sum xs / 6)%Z, (sum ys / 6)%Z).

Definition LEFT_EYE_INDICES : list nat := [36; 37; 38; 39; 40; 41]%nat.
Definition RIGHT_EYE_INDICES : list nat := [42; 43; 44; 45; 46; 47]%nat.

(** [extract_left_eye_center(shape)]. *)
Definition extract_left_eye_center (shape : dlib.full_object_detection) : result (Z * Z) :=
  _extract_eye_center shape LEFT_EYE_INDICES.

(** [extract_right_eye_center(shape)]. *)
Definition extract_right_eye_center (shape : dlib.full_object_detection) : result (Z * Z) :=
  _extract_eye_center shape RIGHT_EYE_INDICES.

Section Angle.

(** numpy's floats stay abstract: [F] is the type of the angles,
    [degrees_arctan t] stands for [np.degrees(np.arctan(t))] and the two
    constants for [np.degrees(np.pi / 2)] and [np.degrees(-np.pi / 2)]. *)
Context {F : Type}.
Variable degrees_arctan : Q -> F.
Variable degrees_half_pi : F.
Variable degrees_minus_half_pi : F.

(** [_angle_between_2_points(p1, p2)], on points with integer
    coordinates such as the eye centers. *)
Definition _angle_between_2_points (p1 p2 : Z * Z) : result F :=
  let '(x1, y1) := p1 in
  let '(x2, y2) := p2 in
  if negb (x1 =? x2)%Z then
    tan <- truediv (y2 - y1) (x2 - x1) ;;
    Ok (degrees_arctan tan)
  else if (y1 <? y2)%Z then Ok degrees_half_pi
  else Ok degrees_minus_half_pi.

End Angle.

End face_utils.

(* ================================================================= *)
(** * inaFaceGender/face_alignment.py *)
(* ================================================================= *)

Module face_alignment.

(** A [Dlib68FaceAlignment] instance: [model] is the loaded
    68-landmark shape predictor, called as [self.model(frame, bb)]. *)
Record Dlib68FaceAlignment : Type := mkAlign {
  model : Frame -> dlib.rectangle -> dlib.full_object_detection
}.

(** [Dlib68FaceAlignment.detect_eye_centers(self, frame, bb)]. *)
Definition detect_eye_centers (self : Dlib68FaceAlignment) (frame : Frame)
    (bb : option (Z * Z * Z * Z)) : result ((Z * Z) * (Z * Z)) :=
  let bb := match bb with
            | None => (0%Z, 0%Z, shape1 frame, shape0 frame)
            | Some b => b
            end in
  let '(a, b, c, d) := bb in
  let bb := dlib.mkRectangle a b c d in
  let shape := model self frame bb in
  left_eye <- face_utils.extract_left_eye_center shape ;;
  right_eye <- face_utils.extract_right_eye_center shape ;;
  Ok (left_eye, right_eye).

Section Call.

(** The numeric routines of numpy and OpenCV stay abstract: the angles
    [F] with the three values that [_angle_between_2_points] can return,
    the 2 x 3 matrices [Mat], [cv2.getRotationMatrix2D(center, angle, 1)],
    the in-place addition [M += [[0, 0, tx], [0, 0, ty]]] and
    [cv2.warpAffine(frame, M, (w, h), flags=cv2.INTER_CUBIC)], which may
    raise. *)
Context {F Mat : Type}.
Variable degrees_arctan : Q -> F.
Variable degrees_half_pi : F.
Variable degrees_minus_half_pi : F.
Variable getRotationMatrix2D : Q * Q -> F -> Mat.
Variable add_translation : Mat -> Z -> Z -> Mat.
Variable warpAffine : Frame -> Mat -> Z * Z -> result Frame.

(** [Dlib68FaceAlignment.__call__(self, frame, bb)]; the display of the
    [verbose] mode is left out.  [bb] is not rebound in this method: when
    it is [None], [bb[2]] fails. *)
Definition __call__ (self : Dlib68FaceAlignment) (frame : Frame)
    (bb : option (Z * Z * Z * Z)) : result (Frame * (Z * Z) * (Z * Z)) :=
  eyes <- detect_eye_centers self frame bb ;;
  let '(left_eye, right_eye) := eyes in
  match bb with
  | None => Raise (TypeError "'NoneType' object is not subscriptable")
  | Some (bb0, bb1, bb2, bb3) =>
      let w := (bb2 - bb0)%Z in
      let h := (bb3 - bb1)%Z in
      angle <- face_utils._angle_between_2_points
                 degrees_arctan degrees_half_pi degrees_minus_half_pi
                 left_eye right_eye ;;
      let xc := inject_Z (fst left_eye + fst right_eye) / 2 in
      let yc := inject_Z (snd left_eye + snd right_eye) / 2 in
      let M := getRotationMatrix2D (xc, yc) angle in
      let M := add_translation M (- bb0) (- bb1) in
      rotated_frame <- warpAffine frame M (w, h) ;;
      Ok (rotated_frame, left_eye, right_eye)
  end.

End Call.

End face_alignment.

(* ================================================================= *)
(** * inaFaceGender/opencv_utils.py *)
(* ================================================================= *)

Module opencv_utils.

(** What [cv2.VideoCapture(src)] gives for a source: whether it opened,
    its frame rate and its decoded (BGR) frames. *)
Record VideoCapture : Type := mkCapture {
  isOpened : bool;
  CAP_PROP_FPS : Q;
  frames : list Frame
}.

(** [cv2.cvtColor(frame, cv2.COLOR_BGR2RGB)]: channels 0 and 2 swapped. *)
Definition cvtColor_BGR2RGB (frame : Frame) : Frame :=
  mkFrame (shape0 frame) (shape1 frame) (shape2 frame)
          (fun r c k => px frame r c (2 - k)%Z).

(** [cap.set(cv2.CAP_PROP_POS_FRAMES, start)]: the position and the
    frames still to be read. *)
Definition cap_set (cap : VideoCapture) (start : Z) : Z * list Frame :=
  (Z.max 0 start, skipn (Z.to_nat start) (frames cap)).

(** The states of the generator object. *)
Inductive generator : Type :=
| Unstarted (src : VideoCapture) (time_unit : string)
            (start stop : option Z) (subsamp_coeff : Z)
| AtYield (rest : list Frame) (pos : Z) (stop : option Z) (subsamp_coeff : Z)
| Exhausted.

(** What [next(g)] does: yields an item, ends the iteration or raises. *)
Inductive step : Type :=
| Yield (index : Z) (frame : Frame)
| StopIteration
| Raised (e : exn).

(** The [while cap.isOpened()] loop (lines 55-70), resumed with [rest]
    the frames not yet read and [pos] the value of
    [cap.get(cv2.CAP_PROP_POS_FRAMES)]; leaving the loop releases the
    capture and ends the generator. *)
Fixpoint loop (rest : list Frame) (pos : Z) (stop : option Z) (subsamp_coeff : Z)
    : step * generator :=
  if match stop with Some s => (s <? pos)%Z | None => false end
  then (StopIteration, Exhausted) (* break *)
  else
    match rest with
    | [] => (StopIteration, Exhausted) (* ret is False: break *)
    | frame :: rest' =>
        let pos := (pos + 1)%Z in
        if (subsamp_coeff =? 0)%Z then (Raised ZeroDivisionError, Exhausted)
        else if negb (pos mod subsamp_coeff =? 0)%Z
        then loop rest' pos stop subsamp_coeff (* continue *)
        else (Yield (pos - 1) (cvtColor_BGR2RGB frame),
              AtYield rest' pos stop subsamp_coeff)
    end.

(** [int(t * fps // 1000)]: the float product, then the floor of its
    quotient by 1000. *)
Definition ms_to_frame (t : Z) (fps : Q) : Z :=
  Qfloor (Py.fmul (inject_Z t) fps / 1000).

(** [next(g)] on [g = video_iterator(src, time_unit, start, stop,
    subsamp_coeff)]: the body runs up to the next [yield]. *)
Definition next (g : generator) : step * generator :=
  match g with
  | Unstarted cap time_unit start stop subsamp_coeff =>
      if negb (isOpened cap)
      then (Raised (Exception "Video file does not exist or is invalid"), Exhausted)
      else
        let bounds :=
          if String.eqb time_unit "frame" then Ok (start, stop)
          else if String.eqb time_unit "ms" then
            let fps := CAP_PROP_FPS cap in
            Ok (option_map (fun s => ms_to_frame s fps) start,
                option_map (fun s => ms_to_frame s fps) stop)
          else Raise NotImplementedError in
        match bounds with
        | Raise e => (Raised e, Exhausted)
        | Ok (start, stop) =>
            let '(pos, rest) :=
              match start with
              | Some s => cap_set cap s
              | None => (0%Z, frames cap)
              end in
            loop rest pos stop subsamp_coeff
        end
  | AtYield rest pos stop subsamp_coeff => loop rest pos stop subsamp_coeff
  | Exhausted => (StopIteration, Exhausted)
  end.

(** How an iteration over the generator ends. *)
Inductive ending : Type :=
| Completed
| Failed (e : exn)
| Pending.

(** [for item in g] for at most [n] calls of [next]: the items produced
    and how the iteration ended ([Pending]: not ended after [n] calls). *)
Fixpoint iterate (n : nat) (g : generator) : list (Z * Frame) * ending :=
  match n with
  | O => ([], Pending)
  | Datatypes.S n' =>
      match next g with
      | (Yield i f, g') => let '(l, e) := iterate n' g' in ((i, f) :: l, e)
      | (StopIteration, _) => ([], Completed)
      | (Raised e, _) => ([], Failed e)
      end
  end.

End opencv_utils.

(* ================================================================= *)
(** * Specification-side definitions *)
(* ================================================================= *)

Module Spec.

Import face_detector.

(** A detection seen in the coordinates of the frame padded by
    [_blackpadd]: its box shifted by the padding offsets. *)
Definition shift_det (xoffset yoffset : Z) (d : Detection) : Detection :=
  mkDetection (Rect_transpose (bbox d) (inject_Z xoffset) (inject_Z yoffset))
              (detect_conf d).

(** The elements that [FaceDetector.__call__] handles well: their box can
    be read and replaced, and replacing it touches nothing else.  Both
    [Detection] and [DetectionEyes] are such. *)
Class LawfulBbox (D : Type) `{HasBbox D} : Type := {
  bbox_of : D -> Rect;
  with_bbox : D -> Rect -> D;
  get_bbox_ok : forall e, get_bbox e = Ok (bbox_of e);
  replace_bbox_ok : forall e b, replace_bbox e b = Ok (with_bbox e b);
  bbox_with : forall e b, bbox_of (with_bbox e b) = b;
  with_with : forall e b b', with_bbox (with_bbox e b) b' = with_bbox e b';
  with_same : forall e, with_bbox e (bbox_of e) = e
}.

#[export] Instance Detection_Lawful : LawfulBbox Detection := {
  bbox_of := bbox;
  with_bbox d b := mkDetection b (detect_conf d);
  get_bbox_ok := fun e => eq_refl;
  replace_bbox_ok := fun e b => eq_refl;
  bbox_with := fun e b => eq_refl;
  with_with := fun e b b' => eq_refl;
  with_same := fun e => match e with mkDetection b c => eq_refl end
}.

#[export] Instance DetectionEyes_Lawful : LawfulBbox DetectionEyes := {
  bbox_of := e_bbox;
  with_bbox d b := mkDetectionEyes b (e_detect_conf d) (eyes d);
  get_bbox_ok := fun e => eq_refl;
  replace_bbox_ok := fun e b => eq_refl;
  bbox_with := fun e b => eq_refl;
  with_with := fun e b b' => eq_refl;
  with_same := fun e => match e with mkDetectionEyes b c y => eq_refl end
}.

(** An element seen in the coordinates of the frame padded by
    [_blackpadd]: its box shifted by the padding offsets, the rest
    untouched. *)
Definition shift_box {D : Type} `{LawfulBbox D} (xoffset yoffset : Z) (e : D) : D :=
  with_bbox e (Rect_transpose (bbox_of e) (inject_Z xoffset) (inject_Z yoffset)).

(** The size threshold of the filter:
    [max(min_size_px, min_size_prct * min(h, w))], the product being the
    float product. *)
Definition size_threshold (min_size_px min_size_prct : Q) (frame : Frame) : Q :=
  Py.max min_size_px
         (Py.fmul min_size_prct (inject_Z (Z.min (shape0 frame) (shape1 frame)))).

(** The longer side of box [b] is at least [t]: its width or its height
    is. *)
Definition longer_side_ge (t : Q) (b : Rect) : bool :=
  Qle_bool t (x2 b - x1 b) || Qle_bool t (y2 b - y1 b).

(** The center point (width/2, height/2) of a frame. *)
Definition center_of (frame : Frame) : Q * Q :=
  (inject_Z (shape1 frame) / 2, inject_Z (shape0 frame) / 2).

(** Box [b] contains the point [c], borders included. *)
Definition holds (b : Rect) (c : Q * Q) : Prop :=
  x1 b <= fst c /\ fst c <= x2 b /\ y1 b <= snd c /\ snd c <= y2 b.

(** The squared Euclidean distance from the center of box [b] to the
    point [c]. *)
Definition sq_distance (b : Rect) (c : Q * Q) : Q :=
  ((x1 b + x2 b) / 2 - fst c) * ((x1 b + x2 b) / 2 - fst c) +
  ((y1 b + y2 b) / 2 - snd c) * ((y1 b + y2 b) / 2 - snd c).

(** [d] is the first element of [l] with the least [key]: everything
    before it has a strictly larger key, everything after it a key at
    least as large. *)
Definition first_min {A : Type} (key : A -> Q) (l : list A) (d : A) : Prop :=
  exists pre post,
    l = pre ++ d :: post /\
    (forall e, In e pre -> key d < key e) /\
    (forall e, In e post -> key d <= key e).

(** [d] is the first element of [l] with the greatest [key]. *)
Definition first_max {A : Type} (key : A -> Q) (l : list A) (d : A) : Prop :=
  exists pre post,
    l = pre ++ d :: post /\
    (forall e, In e pre -> key e < key d) /\
    (forall e, In e post -> key e <= key d).

(** The raw candidates are sorted by descending confidence. *)
Definition sorted_desc (detections : list RawDetection) : Prop :=
  StronglySorted (fun a b => confidence b <= confidence a) detections.

(** A candidate lies entirely outside the unit square. *)
Definition out_of_range (d : RawDetection) : bool :=
  Qle_bool 1 (rx1 d) || Qle_bool 1 (ry1 d) || Qle_bool (rx2 d) 0 || Qle_bool (ry2 d) 0.

(** A candidate is degenerate: [x1 >= x2] or [y1 >= y2]. *)
Definition degenerate (d : RawDetection) : bool :=
  Qle_bool (rx2 d) (rx1 d) || Qle_bool (ry2 d) (ry1 d).

(** The accepted candidate scaled to the pixels of a [w] x [h] frame. *)
Definition scaled (w h : Z) (d : RawDetection) : Detection :=
  mkDetection (Rect_mult (mkRect (rx1 d) (ry1 d) (rx2 d) (ry2 d)) (inject_Z w) (inject_Z h))
              (Conf (confidence d)).

(** The full scan of the specification: every candidate is looked at;
    those with confidence [>= minconf] that are neither out of range nor
    degenerate are kept, scaled to pixels. *)
Definition full_scan (minconf : Q) (w h : Z) (detections : list RawDetection)
    : list Detection :=
  map (scaled w h)
      (filter (fun d => Qle_bool minconf (confidence d) &&
                        negb (out_of_range d) && negb (degenerate d))
              detections).

(** The box that an argument of [intersection_over_union] stands for,
    with rational coordinates. *)
Definition box_of_arg (a : face_utils.BoxArg) : Rect :=
  match a with
  | face_utils.ARect r =>
      mkRect (inject_Z (dlib.left r)) (inject_Z (dlib.top r))
             (inject_Z (dlib.right r)) (inject_Z (dlib.bottom r))
  | face_utils.AIter (a, b, c, d) => mkRect a b c d
  end.

(** An argument of [intersection_over_union] is a well-formed box of
    positive area: a [dlib.rectangle] holding at least one pixel, or four
    numbers with x1<x2 and y1<y2. *)
Definition well_formed_arg (a : face_utils.BoxArg) : Prop :=
  match a with
  | face_utils.ARect r => (dlib.left r <= dlib.right r)%Z /\ (dlib.top r <= dlib.bottom r)%Z
  | face_utils.AIter (a, b, c, d) => a < c /\ b < d
  end.

(** The pixel rectangle of an argument: its coordinates rounded to the
    nearest integers, halves to the even one. *)
Definition pixels_of (a : face_utils.BoxArg) : dlib.rectangle :=
  match a with
  | face_utils.ARect r => r
  | face_utils.AIter (a, b, c, d) =>
      dlib.mkRectangle (np_round a) (np_round b) (np_round c) (np_round d)
  end.

(** The number of pixels of a rectangle, as an unbounded integer. *)
Definition pixel_count (r : dlib.rectangle) : Z :=
  (Z.max 0 (dlib.right r - dlib.left r + 1) * Z.max 0 (dlib.bottom r - dlib.top r + 1))%Z.

(** The argument is within what dlib can hold: its pixel coordinates fit
    a C [long] and its number of pixels an [unsigned long]. *)
Definition representable (a : face_utils.BoxArg) : Prop :=
  let r := pixels_of a in
  (- 2 ^ 63 <= dlib.left r < 2 ^ 63)%Z /\ (- 2 ^ 63 <= dlib.top r < 2 ^ 63)%Z /\
  (- 2 ^ 63 <= dlib.right r < 2 ^ 63)%Z /\ (- 2 ^ 63 <= dlib.bottom r < 2 ^ 63)%Z /\
  (pixel_count r < 2 ^ 64)%Z.

(** Two rectangles have no pixel in common. *)
Definition no_common_pixel (r s : dlib.rectangle) : Prop :=
  (dlib.right r < dlib.left s \/ dlib.right s < dlib.left r \/
   dlib.bottom r < dlib.top s \/ dlib.bottom s < dlib.top r)%Z.

(** Two boxes are disjoint: one lies entirely to one side of the other. *)
Definition disjoint (a b : Rect) : Prop :=
  x2 a < x1 b \/ x2 b < x1 a \/ y2 a < y1 b \/ y2 b < y1 a.

(** Two boxes are more than one pixel apart. *)
Definition apart (a b : Rect) : Prop :=
  x2 a + 1 < x1 b \/ x2 b + 1 < x1 a \/ y2 a + 1 < y1 b \/ y2 b + 1 < y1 a.

(** The detection that stands for the box (x1, y1, x2, y2) of a queue
    entry of [PrecomputedDetector]: that box, without confidence. *)
Definition box_detection (t : Q * Q * Q * Q) : Detection :=
  let '(a, b, c, d) := t in
  {| bbox := {| x1 := a; y1 := b; x2 := c; y2 := d |}; detect_conf := ConfNone |}.

(** The detections that a queue entry of [PrecomputedDetector] stands
    for: one per box. *)
Definition entry_detections (e : Entry) : list Detection :=
  match e with
  | TupleEntry t => [box_detection t]
  | ListEntry l => map box_detection l
  end.

(** Calling a detector on the frames of [frames], one after the other:
    the list of the results and the detector's final state. *)
Fixpoint successive_calls {St D : Type} `{Detector St D} `{HasBbox D}
    (self : St) (frames : list Frame) : result (list (list D) * St) :=
  match frames with
  | [] => Ok ([], self)
  | frame :: rest =>
      r <- __call__ self frame ;;
      let '(lret, self') := r in
      rs <- successive_calls self' rest ;;
      let '(lrets, self'') := rs in
      Ok (lret :: lrets, self'')
  end.

(** The arithmetic mean of a list of integers. *)
Definition mean (l : list Z) : Q :=
  inject_Z (fold_right Z.add 0%Z l) / inject_Z (Z.of_nat (List.length l)).

(** The [n] landmarks of a shape from index [first] on. *)
Definition landmarks (shape : dlib.full_object_detection) (first n : nat)
    : list dlib.point :=
  firstn n (skipn first (dlib.parts shape)).

(** The frames of a list numbered from [pos] on. *)
Fixpoint indexed (pos : Z) (l : list Frame) : list (Z * Frame) :=
  match l with
  | [] => []
  | f :: t => (pos, f) :: indexed (pos + 1) t
  end.

(** Frame number [i] is asked for by the bounds and the stride of
    [video_iterator]: [start <= i], [i <= stop] (each when given) and
    [(i + 1) % subsamp_coeff == 0]. *)
Definition asked_for (start stop : option Z) (subsamp_coeff : Z) (i : Z) : bool :=
  match start with Some s => (s <=? i)%Z | None => true end &&
  match stop with Some s => (i <=? s)%Z | None => true end &&
  ((i + 1) mod subsamp_coeff =? 0)%Z.

(** The items that an iteration over [frames] is expected to produce:
    the asked-for frames, in order, with their number, converted to
    RGB. *)
Definition expected_items (frames : list Frame) (start stop : option Z)
    (subsamp_coeff : Z) : list (Z * Frame) :=
  map (fun it => (fst it, opencv_utils.cvtColor_BGR2RGB (snd it)))
      (filter (fun it => asked_for start stop subsamp_coeff (fst it))
              (indexed 0 frames)).

(** The items still to come when the loop of [video_iterator] is at
    position [pos] with the frames [rest] left to read. *)
Definition items_from (rest : list Frame) (pos : Z) (stop : option Z) (k : Z)
    : list (Z * Frame) :=
  map (fun it => (fst it, opencv_utils.cvtColor_BGR2RGB (snd it)))
      (filter (fun it => asked_for None stop k (fst it)) (indexed pos rest)).

(** A landmark shape moved by [(dx, dy)]. *)
Definition shift_shape (dx dy : Z) (shape : dlib.full_object_detection)
    : dlib.full_object_detection :=
  dlib.mkShape (map (fun q => dlib.mkPoint (dlib.x q + dx) (dlib.y q + dy))
                    (dlib.parts shape)).

(** Every prior-box set in the cache [d] is the one that the constructor
    [mk] builds for its key. *)
Definition cache_consistent {P : Type} (mk : Z * Z -> Z * Z -> P)
    (d : list ((Z * Z) * P)) : Prop :=
  forall k pb, dict_get k d = Some pb -> pb = mk k k.

End Spec.

(* ================================================================= *)
(** * Properties *)
(* ================================================================= *)

Import face_detector Spec.

Open Scope Q_scope.

(** ** Comparisons and the box algebra *)

Lemma Qltb_lt (a b : Q) : Qltb a b = true <-> a < b.
Proof.
  unfold Qltb. rewrite negb_true_iff. split; intro E.
  - apply Qnot_le_lt. intro L. apply Qle_bool_iff in L. congruence.
  - destruct (Qle_bool b a) eqn:L; [|reflexivity].
    apply Qle_bool_iff in L. exfalso. apply (Qlt_not_le _ _ E L).
Qed.

Lemma Qltb_ge (a b : Q) : Qltb a b = false <-> b <= a.
Proof.
  unfold Qltb. rewrite negb_false_iff. apply Qle_bool_iff.
Qed.

#[export] Instance Qltb_Proper : Proper (Qeq ==> Qeq ==> eq) Qltb.
Proof.
  intros a a' Ha b b' Hb. unfold Qltb. now rewrite Ha, Hb.
Qed.

#[export] Instance Pymax_Proper : Proper (Qeq ==> Qeq ==> Qeq) Py.max.
Proof.
  intros a a' Ha b b' Hb. unfold Py.max. rewrite Ha, Hb.
  destruct (Qltb a' b'); assumption.
Qed.

#[export] Instance Pymin_Proper : Proper (Qeq ==> Qeq ==> Qeq) Py.min.
Proof.
  intros a a' Ha b b' Hb. unfold Py.min. rewrite Ha, Hb.
  destruct (Qltb b' a'); assumption.
Qed.

Lemma Pymax_spec (a b : Q) :
  (a < b /\ Py.max a b = b) \/ (b <= a /\ Py.max a b = a).
Proof.
  unfold Py.max. destruct (Qltb a b) eqn:E.
  - left. split; [now apply Qltb_lt | reflexivity].
  - right. split; [now apply Qltb_ge | reflexivity].
Qed.

Lemma Pymin_spec (a b : Q) :
  (b < a /\ Py.min a b = b) \/ (a <= b /\ Py.min a b = a).
Proof.
  unfold Py.min. destruct (Qltb b a) eqn:E.
  - left. split; [now apply Qltb_lt | reflexivity].
  - right. split; [now apply Qltb_ge | reflexivity].
Qed.

#[export] Instance Rect_eq_Equivalence : Equivalence Rect_eq.
Proof.
  split.
  - intros a. repeat split; reflexivity.
  - intros a b (E1 & E2 & E3 & E4). repeat split; symmetry; assumption.
  - intros a b c (E1 & E2 & E3 & E4) (F1 & F2 & F3 & F4).
    repeat split; etransitivity; eassumption.
Qed.

#[export] Instance Rect_w_Proper : Proper (Rect_eq ==> Qeq) Rect_w.
Proof. intros a b (E1 & E2 & E3 & E4). unfold Rect_w. now rewrite E1, E3. Qed.

#[export] Instance Rect_h_Proper : Proper (Rect_eq ==> Qeq) Rect_h.
Proof. intros a b (E1 & E2 & E3 & E4). unfold Rect_h. now rewrite E2, E4. Qed.

#[export] Instance Rect_area_Proper : Proper (Rect_eq ==> Qeq) Rect_area.
Proof. intros a b E. unfold Rect_area. now rewrite E. Qed.

#[export] Instance Rect_max_dim_len_Proper : Proper (Rect_eq ==> Qeq) Rect_max_dim_len.
Proof. intros a b E. unfold Rect_max_dim_len. now rewrite E. Qed.

(** Shifting a box changes neither its width nor its height. *)
Lemma transpose_max_dim_len (b : Rect) (dx dy : Q) :
  Rect_max_dim_len (Rect_transpose b dx dy) == Rect_max_dim_len b.
Proof.
  unfold Rect_max_dim_len. apply Pymax_Proper.
  - unfold Rect_w; simpl; ring.
  - unfold Rect_h; simpl; ring.
Qed.

(** With integer offsets, as [_blackpadd] computes them, shifting forth
    and back restores the very same coordinates. *)
Lemma Qplus_inject_Z_cancel (q : Q) (o : Z) :
  q + inject_Z o + inject_Z (- o) = q.
Proof.
  destruct q as [n d]. unfold Qplus, inject_Z; simpl.
  rewrite !Pos.mul_1_r. f_equal. ring.
Qed.

Lemma transpose_int_roundtrip (b : Rect) (xo yo : Z) :
  Rect_transpose (Rect_transpose b (inject_Z xo) (inject_Z yo))
                 (inject_Z (- xo)) (inject_Z (- yo)) = b.
Proof.
  destruct b as [a1 b1 a2 b2]. unfold Rect_transpose; simpl.
  now rewrite !Qplus_inject_Z_cancel.
Qed.

(** ** Comprehensions over detections never raise *)

Lemma filterM_Ok {A : Type} (p : A -> bool) (l : list A) :
  filterM (fun e => Ok (p e)) l = Ok (filter p l).
Proof.
  induction l as [|a l IH]; simpl; [reflexivity|].
  rewrite IH. destruct (p a); reflexivity.
Qed.

Lemma mapM_Ok {A B : Type} (f : A -> B) (l : list A) :
  mapM (fun e => Ok (f e)) l = Ok (map f l).
Proof.
  induction l as [|a l IH]; simpl; [reflexivity|now rewrite IH].
Qed.

(** The longer side is at least [t] when the width or the height is. *)
Lemma longer_side_ge_max (t : Q) (b : Rect) :
  Qle_bool t (Rect_max_dim_len b) = longer_side_ge t b.
Proof.
  unfold longer_side_ge, Rect_max_dim_len. fold (Rect_w b) (Rect_h b).
  destruct (Pymax_spec (Rect_w b) (Rect_h b)) as [[L ->]|[L ->]].
  - destruct (Qle_bool t (Rect_h b)) eqn:E; [now rewrite orb_true_r|].
    rewrite orb_false_r. destruct (Qle_bool t (Rect_w b)) eqn:E'; [|reflexivity].
    apply Qle_bool_iff in E'. assert (t <= Rect_h b) by lra.
    apply Qle_bool_iff in H. congruence.
  - destruct (Qle_bool t (Rect_w b)) eqn:E; [reflexivity|]. cbn [orb].
    destruct (Qle_bool t (Rect_h b)) eqn:E'; [|reflexivity].
    apply Qle_bool_iff in E'. assert (t <= Rect_w b) by lra.
    apply Qle_bool_iff in H. congruence.
Qed.

Lemma longer_side_ge_transpose (t : Q) (b : Rect) (dx dy : Q) :
  longer_side_ge t (Rect_transpose b dx dy) = longer_side_ge t b.
Proof.
  unfold longer_side_ge, Rect_transpose. cbn [x1 y1 x2 y2].
  f_equal; apply Qleb_comp; try reflexivity; ring.
Qed.

Lemma size_filter_total (D : Type) (HB : HasBbox D) (bb : D -> Rect)
    (Hbb : forall e, get_bbox e = Ok (bb e))
    (mpx mprct : Q) (frame : Frame) (l : list D) :
  size_filter mpx mprct frame l =
  Ok (let t := size_threshold mpx mprct frame in
      if Qltb 0 t then filter (fun e => longer_side_ge t (bb e)) l else l).
Proof.
  unfold size_filter. fold (size_threshold mpx mprct frame). cbn zeta.
  destruct (Qltb 0 _); [|reflexivity].
  induction l as [|a l IH]; simpl; [reflexivity|].
  rewrite Hbb. simpl. rewrite IH, longer_side_ge_max. reflexivity.
Qed.

Section LawfulCalls.

Context {D : Type} {HB : HasBbox D} {LB : LawfulBbox D}.

Lemma size_filter_lawful (mpx mprct : Q) (frame : Frame) (l : list D) :
  size_filter mpx mprct frame l =
  Ok (let t := size_threshold mpx mprct frame in
      if Qltb 0 t then filter (fun e => longer_side_ge t (bbox_of e)) l else l).
Proof.
  apply size_filter_total. apply get_bbox_ok.
Qed.

Lemma unpad_lawful (xo yo : Z) (l : list D) :
  unpad xo yo l =
  Ok (map (fun e => with_bbox e (Rect_transpose (bbox_of e)
                                   (inject_Z (- xo)) (inject_Z (- yo)))) l).
Proof.
  unfold unpad. induction l as [|a l IH]; simpl; [reflexivity|].
  rewrite get_bbox_ok. simpl. rewrite replace_bbox_ok, IH. reflexivity.
Qed.

Lemma unpad_shift (xo yo : Z) (l : list D) :
  unpad xo yo (map (shift_box xo yo) l) = Ok l.
Proof.
  rewrite unpad_lawful. f_equal. rewrite map_map.
  rewrite <- (map_id l) at 2. apply map_ext. intros e. unfold shift_box.
  now rewrite bbox_with, with_with, transpose_int_roundtrip, with_same.
Qed.

Lemma size_filter_shift (mpx mprct : Q) (frame : Frame) (xo yo : Z) (l : list D) :
  size_filter mpx mprct frame (map (shift_box xo yo) l) =
  (l' <- size_filter mpx mprct frame l ;; Ok (map (shift_box xo yo) l')).
Proof.
  rewrite !size_filter_lawful. cbn zeta. simpl.
  destruct (Qltb 0 _); [|reflexivity].
  f_equal. induction l as [|a l IH]; simpl; [reflexivity|].
  unfold shift_box at 1. rewrite bbox_with, longer_side_ge_transpose.
  destruct (longer_side_ge _ (bbox_of a)); simpl; now rewrite IH.
Qed.

End LawfulCalls.

Lemma _blackpadd_Ok (frame : Frame) (p : Q) (padded : Frame) (yoffset xoffset : Z) :
  _blackpadd frame p = Ok (padded, yoffset, xoffset) ->
  xoffset = Py.int (Py.fmul (inject_Z (shape1 frame)) p) /\
  yoffset = Py.int (Py.fmul (inject_Z (shape0 frame)) p) /\
  (0 <= xoffset)%Z /\ (0 <= yoffset)%Z /\
  padded = mkFrame (shape0 frame + 2 * yoffset) (shape1 frame + 2 * xoffset) (shape2 frame)
             (fun r c k =>
                if ((yoffset <=? r) && (r <? shape0 frame + yoffset) &&
                    (xoffset <=? c) && (c <? shape1 frame + xoffset))%Z
                then px frame (r - yoffset) (c - xoffset) k
                else 0%Z).
Proof.
  unfold _blackpadd. cbn zeta.
  destruct (_ || _)%bool eqn:E; [discriminate|].
  apply orb_false_iff in E. destruct E as [E1 E2]. apply Z.ltb_ge in E1, E2.
  intros [= <- <- <-]. repeat split; assumption.
Qed.

(** ** C5: transposition round trip and the shift back after padding *)



(** ** C3: the size filter *)

(** C3, as stated, fails on a malformed box when the threshold is not
    positive: with [min_size_px = 0] and [min_size_prct = 0] (the settings
    of [PrecomputedDetector]) the guard [min_face_size > 0] skips the
    filter, and the box (10, 10, 5, 5), whose longer side is -5 < 0, is
    retained. *)
Lemma size_filter_keeps_below_threshold :
  let frame := mkFrame 100 100 3 (fun _ _ _ => 0%Z) in
  let d := mkDetection (mkRect 10 10 5 5) ConfNone in
  size_filter 0 0 frame [d] = Ok [d] /\
  size_threshold 0 0 frame == 0 /\
  Rect_max_dim_len (bbox d) == - (5) /\
  filter (fun e => longer_side_ge (size_threshold 0 0 frame) (bbox e)) [d] = [].
Proof.
  repeat split; reflexivity.
Qed.

(** C3 (amended).  Let [t = max(min_size_px, min_size_prct * min(h, w))],
    the product being the float product as the code takes it.  When
    [t > 0] the size filter of [__call__] retains exactly the detections
    whose box's longer side is [>= t], in their original order; when
    [t <= 0] it retains every detection.  In particular with
    [min_size_px = 30] and [min_size_prct = 0] exactly the boxes with
    longer side [>= 30] are retained, in order. *)
Theorem size_filter_spec (D : Type) (HB : HasBbox D) (bb : D -> Rect)
    (Hbb : forall e, get_bbox e = Ok (bb e))
    (min_size_px min_size_prct : Q) (frame : Frame) (lret : list D) :
  let t := size_threshold min_size_px min_size_prct frame in
  (0 < t ->
   size_filter min_size_px min_size_prct frame lret =
   Ok (filter (fun e => longer_side_ge t (bb e)) lret)) /\
  (t <= 0 -> size_filter min_size_px min_size_prct frame lret = Ok lret) /\
  size_filter 30 0 frame lret =
  Ok (filter (fun e => longer_side_ge 30 (bb e)) lret).
Proof.
  intro t. split; [|split].
  - intro Ht. rewrite (size_filter_total D HB bb Hbb). cbn zeta. fold t.
    apply Qltb_lt in Ht. now rewrite Ht.
  - intro Ht. rewrite (size_filter_total D HB bb Hbb). cbn zeta. fold t.
    apply Qltb_ge in Ht. now rewrite Ht.
  - rewrite (size_filter_total D HB bb Hbb). reflexivity.
Qed.

(** Three precomputed boxes of sides 50, 20 and 30 through the filter
    with [min_size_px = 30]; then with a negative [min_size_px]; then
    with [min_size_prct = 0.1] on a 480 x 640 frame, whose threshold is
    the float product 48.0, which the side-48 box meets; and with
    [min_size_prct = 0.07] on a 100 x 100 frame, whose threshold is
    7.000000000000001, which a side-7 box misses. *)
Lemma size_filter_spec_witness :
  let frame := mkFrame 480 640 3 (fun _ _ _ => 0%Z) in
  let d1 := mkDetection (mkRect 0 0 50 40) ConfNone in
  let d2 := mkDetection (mkRect 5 5 25 20) ConfNone in
  let d3 := mkDetection (mkRect 100 100 130 110) ConfNone in
  let d4 := mkDetection (mkRect 100 100 148 110) ConfNone in
  let d5 := mkDetection (mkRect 1 1 8 8) ConfNone in
  size_filter 30 0 frame [d1; d2; d3] = Ok [d1; d3] /\
  size_filter (-1) 0 frame [d1; d2; d3] = Ok [d1; d2; d3] /\
  size_filter 0 (Py.float (1 # 10)) frame [d1; d2; d3; d4] = Ok [d1; d4] /\
  size_filter 0 (Py.float (7 # 100)) (mkFrame 100 100 3 (fun _ _ _ => 0%Z)) [d2; d5] = Ok [d2].
Proof.
  intros frame d1 d2 d3 d4 d5.
  pose (spec := fun mpx mprct fr l =>
          size_filter_spec Detection Detection_HasBbox bbox (fun e => eq_refl)
                           mpx mprct fr l).
  split; [|split; [|split]].
  - exact (proj2 (proj2 (spec 30 0 frame [d1; d2; d3]))).
  - refine (proj1 (proj2 (spec (-1) 0 frame [d1; d2; d3])) _). discriminate.
  - assert (E : filter (fun e => longer_side_ge
                                   (size_threshold 0 (Py.float (1 # 10)) frame) (bbox e))
                       [d1; d2; d3; d4] = [d1; d4]) by (vm_compute; reflexivity).
    rewrite <- E.
    refine (proj1 (spec 0 (Py.float (1 # 10)) frame [d1; d2; d3; d4]) _).
    vm_compute. reflexivity.
  - assert (E : filter (fun e => longer_side_ge
                                   (size_threshold 0 (Py.float (7 # 100))
                                      (mkFrame 100 100 3 (fun _ _ _ => 0%Z))) (bbox e))
                       [d2; d5] = [d2]) by (vm_compute; reflexivity).
    rewrite <- E.
    refine (proj1 (spec 0 (Py.float (7 # 100)) (mkFrame 100 100 3 (fun _ _ _ => 0%Z))
                       [d2; d5]) _).
    vm_compute. reflexivity.
Defined.

(** ** [np.argmin] and [np.argmax] pick the first extremum *)

Section Arg.

Context {A : Type} (key : A -> Q).

Lemma argmin_from_spec (l : list A) :
  forall (i : nat) (best : Q) (bi : nat),
    (argmin_from i best bi (map key l) = bi /\ forall e, In e l -> best <= key e) \/
    (exists pre d post,
        l = pre ++ d :: post /\
        argmin_from i best bi (map key l) = (i + List.length pre)%nat /\
        key d < best /\
        (forall e, In e pre -> key d < key e) /\
        (forall e, In e post -> key d <= key e)).
Proof.
  induction l as [|a l IH]; intros i best bi; simpl.
  - left. split; [reflexivity|]. intros e [].
  - destruct (Qltb (key a) best) eqn:E.
    + apply Qltb_lt in E. right.
      destruct (IH (Datatypes.S i) (key a) i) as [[R L]|(pre & d & post & El & R & Lt & Pre & Post)].
      * exists [], a, l. simpl. rewrite R, Nat.add_0_r. repeat split; auto.
        intros e [].
      * exists (a :: pre), d, post. subst l. simpl. rewrite R.
        repeat split; auto; try lia.
        -- eapply Qlt_trans; eassumption.
        -- intros e [<-|In]; auto.
    + apply Qltb_ge in E.
      destruct (IH (Datatypes.S i) best bi) as [[R L]|(pre & d & post & El & R & Lt & Pre & Post)].
      * left. split; [assumption|]. intros e [<-|In]; auto.
      * right. exists (a :: pre), d, post. subst l. simpl. rewrite R.
        repeat split; auto; try lia.
        intros e [<-|In]; auto. eapply Qlt_le_trans; eassumption.
Qed.

Lemma argmin_first_min (l : list A) :
  l <> [] ->
  exists d, nth_error l (argmin (map key l)) = Some d /\ first_min key l d.
Proof.
  destruct l as [|a l]; [congruence|]. intros _. simpl.
  destruct (argmin_from_spec l 1 (key a) 0%nat)
    as [[R L]|(pre & d & post & El & R & Lt & Pre & Post)].
  - rewrite R. exists a. split; [reflexivity|].
    exists [], l. simpl. repeat split; auto. intros e [].
  - rewrite R. exists d. subst l. split.
    + simpl. rewrite nth_error_app2 by lia.
      now replace (List.length pre - List.length pre)%nat with 0%nat by lia.
    + exists (a :: pre), post. simpl. repeat split; auto.
      intros e [<-|In]; auto.
Qed.

Lemma argmax_from_spec (l : list A) :
  forall (i : nat) (best : Q) (bi : nat),
    (argmax_from i best bi (map key l) = bi /\ forall e, In e l -> key e <= best) \/
    (exists pre d post,
        l = pre ++ d :: post /\
        argmax_from i best bi (map key l) = (i + List.length pre)%nat /\
        best < key d /\
        (forall e, In e pre -> key e < key d) /\
        (forall e, In e post -> key e <= key d)).
Proof.
  induction l as [|a l IH]; intros i best bi; simpl.
  - left. split; [reflexivity|]. intros e [].
  - destruct (Qltb best (key a)) eqn:E.
    + apply Qltb_lt in E. right.
      destruct (IH (Datatypes.S i) (key a) i) as [[R L]|(pre & d & post & El & R & Lt & Pre & Post)].
      * exists [], a, l. simpl. rewrite R, Nat.add_0_r. repeat split; auto.
        intros e [].
      * exists (a :: pre), d, post. subst l. simpl. rewrite R.
        repeat split; auto; try lia.
        -- eapply Qlt_trans; eassumption.
        -- intros e [<-|In]; auto.
    + apply Qltb_ge in E.
      destruct (IH (Datatypes.S i) best bi) as [[R L]|(pre & d & post & El & R & Lt & Pre & Post)].
      * left. split; [assumption|]. intros e [<-|In]; auto.
      * right. exists (a :: pre), d, post. subst l. simpl. rewrite R.
        repeat split; auto; try lia.
        intros e [<-|In]; auto. eapply Qle_lt_trans; eassumption.
Qed.

Lemma argmax_first_max (l : list A) :
  l <> [] ->
  exists d, nth_error l (argmax (map key l)) = Some d /\
            nth_error (map key l) (argmax (map key l)) = Some (key d) /\
            first_max key l d.
Proof.
  destruct l as [|a l]; [congruence|]. intros _. simpl.
  destruct (argmax_from_spec l 1 (key a) 0%nat)
    as [[R L]|(pre & d & post & El & R & Lt & Pre & Post)].
  - rewrite R. exists a. split; [reflexivity|]. split; [reflexivity|].
    exists [], l. simpl. repeat split; auto. intros e [].
  - rewrite R. exists d. subst l. split; [|split].
    + simpl. rewrite nth_error_app2 by lia.
      now replace (List.length pre - List.length pre)%nat with 0%nat by lia.
    + simpl. rewrite map_app. simpl. rewrite nth_error_app2; rewrite length_map; [|lia].
      now replace (List.length pre - List.length pre)%nat with 0%nat by lia.
    + exists (a :: pre), post. simpl. repeat split; auto.
      intros e [<-|In]; auto.
Qed.

End Arg.

(** ** C1: the most central face *)

Lemma filterM_get_bbox {D : Type} {HB : HasBbox D} (bb : D -> Rect)
    (Hbb : forall e, get_bbox e = Ok (bb e)) (p : Rect -> bool) (l : list D) :
  filterM (fun f => b <- get_bbox f ;; Ok (p b)) l = Ok (filter (fun f => p (bb f)) l).
Proof.
  induction l as [|a l IH]; simpl; [reflexivity|].
  rewrite Hbb. simpl. now rewrite IH.
Qed.

Lemma mapM_get_bbox {D B : Type} {HB : HasBbox D} (bb : D -> Rect)
    (Hbb : forall e, get_bbox e = Ok (bb e)) (g : Rect -> B) (l : list D) :
  mapM (fun f => b <- get_bbox f ;; Ok (g b)) l = Ok (map (fun f => g (bb f)) l).
Proof.
  induction l as [|a l IH]; simpl; [reflexivity|].
  rewrite Hbb. simpl. now rewrite IH.
Qed.

Lemma Rect_contains_holds (b : Rect) (c : Q * Q) :
  Rect_contains b c = true <-> holds b c.
Proof.
  unfold Rect_contains, holds. rewrite !andb_true_iff, !Qle_bool_iff. tauto.
Qed.

Lemma _sqdist_center (b : Rect) (c : Q * Q) :
  _sqdist (Rect_center b) c == sq_distance b c.
Proof.
  unfold _sqdist, Rect_center, sq_distance. cbn [fst snd].
  assert (E : forall u : Q, u ^ 2 == u * u) by (intro u; reflexivity).
  now rewrite !E.
Qed.

Lemma filter_split {A : Type} (f : A -> bool) (l : list A) :
  forall pre' d post',
    filter f l = pre' ++ d :: post' ->
    exists pre post,
      l = pre ++ d :: post /\ f d = true /\
      filter f pre = pre' /\ filter f post = post'.
Proof.
  induction l as [|a l IH]; intros pre' d post' E; simpl in E.
  - destruct pre'; discriminate.
  - destruct (f a) eqn:Fa.
    + destruct pre' as [|a' pre']; simpl in E.
      * injection E as <- E. exists [], l. simpl. repeat split; assumption.
      * injection E as <- E. destruct (IH _ _ _ E) as (pre & post & -> & Fd & P1 & P2).
        exists (a :: pre), post. simpl. rewrite Fa, P1. repeat split; assumption.
    + destruct (IH _ _ _ E) as (pre & post & -> & Fd & P1 & P2).
      exists (a :: pre), post. simpl. rewrite Fa. repeat split; assumption.
Qed.



(** ** C2: the face closest to a reference box *)

#[export] Instance Rect_intersect_Proper :
  Proper (Rect_eq ==> Rect_eq ==> Rect_eq) Rect_intersect.
Proof.
  intros a a' (A1 & A2 & A3 & A4) b b' (B1 & B2 & B3 & B4).
  unfold Rect_intersect.
  assert (E1 : Py.max (x1 a) (x1 b) == Py.max (x1 a') (x1 b')) by now rewrite A1, B1.
  assert (E2 : Py.max (y1 a) (y1 b) == Py.max (y1 a') (y1 b')) by now rewrite A2, B2.
  assert (E3 : Py.min (x2 a) (x2 b) == Py.min (x2 a') (x2 b')) by now rewrite A3, B3.
  assert (E4 : Py.min (y2 a) (y2 b) == Py.min (y2 a') (y2 b')) by now rewrite A4, B4.
  cbn zeta.
  rewrite (Qltb_Proper _ _ E3 _ _ E1), (Qltb_Proper _ _ E4 _ _ E2).
  destruct (_ || _)%bool.
  - reflexivity.
  - repeat split; assumption.
Qed.

#[export] Instance Rect_iou_Proper : Proper (Rect_eq ==> Rect_eq ==> Qeq) Rect_iou.
Proof.
  intros a a' Ha b b' Hb. unfold Rect_iou. cbn zeta.
  now rewrite Ha, Hb.
Qed.

(** Squaring a square changes nothing. *)
Lemma Rect_square_idempotent (r : Rect) :
  Rect_eq (Rect_square (Rect_square r)) (Rect_square r).
Proof.
  set (m := Rect_max_dim_len r).
  assert (Em : Rect_max_dim_len (Rect_square r) == m).
  { unfold Rect_max_dim_len at 1. unfold Py.max.
    assert (Ew : Rect_w (Rect_square r) == m).
    { unfold Rect_w, Rect_square, Rect_center. simpl. fold m. field. }
    assert (Eh : Rect_h (Rect_square r) == m).
    { unfold Rect_h, Rect_square, Rect_center. simpl. fold m. field. }
    destruct (Qltb _ _); assumption. }
  unfold Rect_square at 1. unfold Rect_eq. cbn [x1 y1 x2 y2 fst snd].
  rewrite Em. unfold Rect_center, Rect_square, Rect_center.
  cbn [x1 y1 x2 y2 fst snd]. fold m.
  repeat split; field.
Qed.

Lemma first_max_ext {A : Type} (key key' : A -> Q) (l : list A) (d : A) :
  (forall e, key e == key' e) -> first_max key l d -> first_max key' l d.
Proof.
  intros E (pre & post & El & Pre & Post). exists pre, post.
  split; [assumption|]. split; intros e He; rewrite <- !E; auto.
Qed.

(** For boxes of positive area the union in [Rect_iou] is positive: the
    quotient never divides by zero. *)
Lemma Rect_union_pos (a b : Rect) :
  well_formed a -> well_formed b ->
  0 < Rect_area a + Rect_area b - Rect_area (Rect_intersect a b).
Proof.
  intros [Ax Ay] [Bx By]. unfold Rect_intersect. cbn zeta.
  destruct (Pymax_spec (x1 a) (x1 b)) as [[M1 ->]|[M1 ->]];
  destruct (Pymax_spec (y1 a) (y1 b)) as [[M2 ->]|[M2 ->]];
  destruct (Pymin_spec (x2 a) (x2 b)) as [[M3 ->]|[M3 ->]];
  destruct (Pymin_spec (y2 a) (y2 b)) as [[M4 ->]|[M4 ->]];
  match goal with
  | |- context [if ?c then _ else _] => destruct c eqn:C
  end;
  try (apply orb_false_iff in C; destruct C as [C1 C2];
       apply Qltb_ge in C1; apply Qltb_ge in C2);
  unfold Rect_area, Rect_w, Rect_h; cbn [x1 y1 x2 y2]; nra.
Qed.

(** C2.  Let [lfaces] be the detections that [__call__] produces on
    [frame], [f] the squarification when [squarify] is set and the
    identity otherwise, and [score d = iou(f(r), f(d.bbox))].  If [lfaces]
    is empty [get_closest_face] returns [None]; otherwise, with [d] the
    first detection of [lfaces] of maximal score, it returns [d] when
    [score d >= min_iou] and [None] when [score d < min_iou]. *)
Theorem get_closest_face_spec (self self' : OcvCnn) (frame : Frame) (ref_bbox : RefBox)
    (min_iou : Q) (squarify : bool) (lfaces : list Detection) :
  __call__ self frame = Ok (lfaces, self') ->
  let r := match ref_bbox with
           | RefRect r => r
           | RefSeq a b c d => mkRect a b c d
           end in
  let f := if squarify then Rect_square else (fun b => b) in
  let score := fun d => Rect_iou (f r) (f (bbox d)) in
  (lfaces = [] ->
   get_closest_face self frame ref_bbox min_iou squarify = Ok (None, self')) /\
  (lfaces <> [] ->
   exists d,
     first_max score lfaces d /\
     (min_iou <= score d ->
      get_closest_face self frame ref_bbox min_iou squarify = Ok (Some d, self')) /\
     (score d < min_iou ->
      get_closest_face self frame ref_bbox min_iou squarify = Ok (None, self'))).
Proof.
  intros Hcall r f score. unfold get_closest_face. fold r. fold f.
  rewrite Hcall. cbn [bind]. split.
  - intros ->. reflexivity.
  - intros Hne. destruct lfaces as [|d0 l]; [congruence|].
    cbn [List.length Nat.eqb].
    set (score' := fun detection => Rect_iou (f (f r)) (f (bbox detection))).
    assert (E : forall e, score' e == score e).
    { intro e. unfold score', score. apply Rect_iou_Proper; [|reflexivity].
      unfold f. destruct squarify; [apply Rect_square_idempotent|reflexivity]. }
    destruct (argmax_first_max score' (d0 :: l)) as (d & Hn & Hv & Hmax); [discriminate|].
    rewrite Hv, Hn. exists d. split; [|split].
    + apply (first_max_ext score' score); assumption.
    + intro Hge. rewrite <- E in Hge. apply Qltb_ge in Hge. now rewrite Hge.
    + intro Hlt. rewrite <- E in Hlt. apply Qltb_lt in Hlt. now rewrite Hlt.
Qed.

(** A network reporting two faces on a 100 x 100 frame; the reference box
    overlaps the first one with IoU 0.95. *)
Lemma get_closest_face_spec_witness :
  let frame := mkFrame 100 100 3 (fun _ _ _ => 0%Z) in
  let ocv := OcvCnn__init__
               (fun _ => [mkRaw (9 # 10) (1 # 10) (1 # 10) (5 # 10) (5 # 10);
                          mkRaw (8 # 10) (6 # 10) (6 # 10) (9 # 10) (9 # 10)])
               (65 # 100) 30 0 0 in
  let d1 := mkDetection (mkRect (100 # 10) (100 # 10) (500 # 10) (500 # 10)) (Conf (9 # 10)) in
  let d2 := mkDetection (mkRect (600 # 10) (600 # 10) (900 # 10) (900 # 10)) (Conf (8 # 10)) in
  let score := fun d => Rect_iou (mkRect 10 10 50 48) (bbox d) in
  __call__ ocv frame = Ok ([d1; d2], ocv) /\
  exists d,
    first_max score [d1; d2] d /\
    ((7 # 10) <= score d ->
     get_closest_face ocv frame (RefSeq 10 10 50 48) (7 # 10) false = Ok (Some d, ocv)) /\
    (score d < (7 # 10) ->
     get_closest_face ocv frame (RefSeq 10 10 50 48) (7 # 10) false = Ok (None, ocv)).
Proof.
  intros frame ocv d1 d2 score. split; [reflexivity|].
  refine (proj2 (get_closest_face_spec ocv ocv frame (RefSeq 10 10 50 48) (7 # 10) false
                   [d1; d2] eq_refl) _).
  discriminate.
Defined.

(** ** C4: the early exit of the decoding loop *)

Lemma np_sort_sorted_id (l : list Q) :
  StronglySorted Qle l -> np_sort l = l.
Proof.
  induction 1 as [|a l Hs IH Hall]; simpl; [reflexivity|].
  rewrite IH. destruct l as [|b l]; [reflexivity|]. simpl.
  inversion Hall as [|? ? Hab _]; subst.
  apply Qle_bool_iff in Hab. now rewrite Hab.
Qed.

Lemma np_all_eq_opp_opp (c : list Q) :
  np_all_eq (map Qopp (map Qopp c)) c = true.
Proof.
  induction c as [|a c IH]; simpl; [reflexivity|].
  rewrite IH, andb_true_r. apply Qeq_bool_iff. ring.
Qed.

(** On candidates sorted by descending confidence the assertion of line
    195 holds. *)
Lemma sorted_desc_assertion (detections : list RawDetection) :
  sorted_desc detections -> sorted_assertion detections = true.
Proof.
  intro Hs. unfold sorted_assertion. cbn zeta.
  rewrite np_sort_sorted_id; [apply np_all_eq_opp_opp|].
  induction Hs as [|a l Hs IH Hall]; simpl; constructor; [assumption|].
  clear -Hall. induction Hall as [|b l Hb Hall IH]; simpl; constructor; [|assumption].
  now apply Qopp_le_compat.
Qed.

(** Conversely, the assertion only passes on sorted candidates. *)
Lemma np_insert_Forall (P : Q -> Prop) (x : Q) (l : list Q) :
  P x -> Forall P l -> Forall P (np_insert x l).
Proof.
  intros Hx Hl. induction Hl as [|y l Hy Hl IH]; simpl.
  - constructor; [assumption|constructor].
  - destruct (Qle_bool x y); repeat (constructor; try assumption).
Qed.

Lemma np_insert_sorted (x : Q) (l : list Q) :
  StronglySorted Qle l -> StronglySorted Qle (np_insert x l).
Proof.
  induction 1 as [|y l Hs IH Hall]; simpl.
  - repeat constructor.
  - destruct (Qle_bool x y) eqn:E.
    + apply Qle_bool_iff in E. constructor; [constructor; assumption|].
      constructor; [assumption|].
      eapply Forall_impl; [|exact Hall]. intros e He. eapply Qle_trans; eassumption.
    + constructor; [assumption|].
      apply np_insert_Forall; [|assumption].
      apply Qlt_le_weak, Qnot_le_lt. intro L. apply Qle_bool_iff in L. congruence.
Qed.

Lemma np_sort_sorted (l : list Q) : StronglySorted Qle (np_sort l).
Proof.
  induction l as [|x l IH]; simpl; [constructor|now apply np_insert_sorted].
Qed.

Lemma np_all_eq_Forall2 (a b : list Q) :
  np_all_eq a b = true -> Forall2 Qeq a b.
Proof.
  revert b. induction a as [|x a IH]; intros [|y b] H; simpl in H;
    try discriminate; constructor.
  - apply andb_true_iff in H. now apply Qeq_bool_iff.
  - apply andb_true_iff in H. now apply IH.
Qed.

Lemma opp_sorted_desc (s c : list Q) :
  StronglySorted Qle s -> Forall2 Qeq (map Qopp s) c ->
  StronglySorted (fun a b => b <= a) c.
Proof.
  intros Hs. revert c.
  induction Hs as [|x s Hs IH Hall]; intros c H; simpl in H; inversion H; subst.
  - constructor.
  - constructor; [now apply IH|].
    match goal with
    | H1 : - x == ?y, H2 : Forall2 Qeq (map Qopp s) ?l |- Forall _ ?l =>
        revert H1 H2; generalize y l; clear - Hall
    end.
    induction Hall as [|z s Hz Hall IH]; intros y l Hy H2; simpl in H2;
      inversion H2; subst; constructor.
    + match goal with H1 : - z == _ |- _ => rewrite <- H1, <- Hy end.
      now apply Qopp_le_compat.
    + eapply IH; eassumption.
Qed.

Lemma assertion_sorted_desc (detections : list RawDetection) :
  sorted_assertion detections = true -> sorted_desc detections.
Proof.
  unfold sorted_assertion. cbn zeta. intro H.
  apply np_all_eq_Forall2 in H.
  apply opp_sorted_desc in H; [|apply np_sort_sorted].
  unfold sorted_desc. induction detections as [|d l IH]; [constructor|].
  simpl in H. inversion H as [|? ? Hl Hd]; subst.
  constructor; [now apply IH|].
  clear - Hd. induction l as [|e l IH]; [constructor|].
  simpl in Hd. inversion Hd; subst. constructor; [assumption|now apply IH].
Qed.

(** On candidates that are not sorted [_call_imp] raises. *)
Lemma unsorted_raises_AssertionError (self : OcvCnn) (frame : Frame) :
  ~ sorted_desc (forward self frame) ->
  OcvCnn_call_imp self frame = Raise AssertionError.
Proof.
  intro Hn. unfold OcvCnn_call_imp. cbn zeta.
  destruct (sorted_assertion (forward self frame)) eqn:E; [|reflexivity].
  exfalso. apply Hn. now apply assertion_sorted_desc.
Qed.

Lemma full_scan_below (minconf : Q) (w h : Z) (l : list RawDetection) :
  Forall (fun d => confidence d < minconf) l -> full_scan minconf w h l = [].
Proof.
  unfold full_scan. induction 1 as [|d l Hd Hall IH]; simpl; [reflexivity|].
  replace (Qle_bool minconf (confidence d)) with false; [exact IH|].
  symmetry. apply Qltb_lt in Hd. unfold Qltb in Hd. now apply negb_true_iff in Hd.
Qed.

Lemma decode_loop_full_scan (minconf : Q) (w h : Z) (detections : list RawDetection) :
  sorted_desc detections ->
  forall faces_data,
    decode_loop (Some minconf) w h detections faces_data =
    Ok (faces_data ++ full_scan minconf w h detections).
Proof.
  induction 1 as [|d rest Hs IH Hall]; intro faces_data; simpl.
  - unfold full_scan. simpl. now rewrite app_nil_r.
  - destruct (Qltb (confidence d) minconf) eqn:Hc.
    + apply Qltb_lt in Hc. rewrite (full_scan_below minconf w h (d :: rest)).
      * now rewrite app_nil_r.
      * constructor; [assumption|].
        eapply Forall_impl; [|exact Hall]. intros e He. simpl in He.
        eapply Qle_lt_trans; eassumption.
    + unfold full_scan. simpl. unfold Qltb in Hc. apply negb_false_iff in Hc.
      rewrite Hc. simpl. fold (out_of_range d). fold (degenerate d).
      destruct (out_of_range d); simpl; [apply IH|].
      destruct (degenerate d); simpl; [apply IH|].
      rewrite IH. unfold full_scan. rewrite <- app_assoc. reflexivity.
Qed.

(** C4.  When the raw candidates of the network are sorted by descending
    confidence, [OcvCnnFacedetector._call_imp], whose loop stops at the
    first candidate with confidence below [minconf], returns exactly the
    list of the full scan: every candidate with confidence [>= minconf]
    that is neither out of range nor degenerate, scaled to pixels, in
    order. *)
Theorem early_exit_is_full_scan (self : OcvCnn) (frame : Frame) (mc : Q) :
  minconf (ocv_attrs self) = Some mc ->
  sorted_desc (forward self frame) ->
  OcvCnn_call_imp self frame =
  Ok (full_scan mc (shape1 frame) (shape0 frame) (forward self frame), self).
Proof.
  intros Hmc Hs. unfold OcvCnn_call_imp. cbn zeta.
  rewrite (sorted_desc_assertion _ Hs), Hmc. simpl.
  now rewrite (decode_loop_full_scan mc _ _ _ Hs).
Qed.

(** Candidates in descending confidence: one accepted, one degenerate,
    one out of range, one below [minconf = 0.65], at which the loop
    stops. *)
Lemma early_exit_is_full_scan_witness :
  let frame := mkFrame 100 200 3 (fun _ _ _ => 0%Z) in
  let ocv := OcvCnn__init__
               (fun _ => [mkRaw (9 # 10) (1 # 4) (1 # 4) (3 # 4) (3 # 4);
                          mkRaw (8 # 10) (1 # 2) (1 # 4) (1 # 2) (3 # 4);
                          mkRaw (7 # 10) (5 # 4) (1 # 4) (7 # 4) (3 # 4);
                          mkRaw (5 # 10) (1 # 4) (1 # 4) (2 # 4) (2 # 4);
                          mkRaw (1 # 10) (1 # 4) (1 # 4) (3 # 4) (2 # 4)])
               (65 # 100) 30 0 (15 # 100) in
  OcvCnn_call_imp ocv frame =
  Ok ([mkDetection (mkRect (200 # 4) (100 # 4) (600 # 4) (300 # 4)) (Conf (9 # 10))], ocv).
Proof.
  intros frame ocv.
  refine (early_exit_is_full_scan ocv frame (65 # 100) eq_refl _).
  repeat (constructor; try (unfold Qle; simpl; lia)).
Defined.

(** ** C6: intersection over union *)

(** Turns a hypothesis [(p ?= q) = c] into the order fact it encodes. *)
Ltac Qcompare_prop H :=
  match type of H with
  | (_ ?= _) = Eq => apply Qeq_alt in H
  | (_ ?= _) = Lt => apply Qlt_alt in H
  | (_ ?= _) = Gt => apply Qgt_alt in H
  end.

Lemma np_round_bounds (q : Q) :
  (Qfloor q <= np_round q <= Qfloor q + 1)%Z.
Proof.
  unfold np_round. cbn zeta.
  destruct (Qcompare _ _); [destruct (Z.even _)| |]; lia.
Qed.

Lemma np_round_monotone (a c : Q) : a <= c -> (np_round a <= np_round c)%Z.
Proof.
  intro Hac. pose proof (Qfloor_resp_le _ _ Hac) as Hf.
  destruct (Z.eq_dec (Qfloor a) (Qfloor c)) as [E|N].
  - unfold np_round. cbn zeta. rewrite <- E.
    destruct (Qcompare (a - inject_Z (Qfloor a)) (1 # 2)) eqn:Ca;
    destruct (Qcompare (c - inject_Z (Qfloor a)) (1 # 2)) eqn:Cc;
    try (destruct (Z.even (Qfloor a))); try lia; exfalso;
    Qcompare_prop Ca; Qcompare_prop Cc; lra.
  - pose proof (np_round_bounds a). pose proof (np_round_bounds c). lia.
Qed.

Lemma np_round_close (q : Q) : Qabs (inject_Z (np_round q) - q) <= 1 # 2.
Proof.
  unfold np_round. cbn zeta.
  pose proof (Qfloor_le q) as F1. pose proof (Qlt_floor q) as F2.
  rewrite inject_Z_plus in F2.
  apply Qabs_Qle_condition.
  destruct (Qcompare (q - inject_Z (Qfloor q)) (1 # 2)) eqn:C; Qcompare_prop C;
    [destruct (Z.even (Qfloor q))| |]; rewrite ?inject_Z_plus;
    change (inject_Z 1) with 1 in *; split; lra.
Qed.

Lemma np_round_inject_Z (z : Z) : np_round (inject_Z z) = z.
Proof.
  unfold np_round. cbn zeta. rewrite Qfloor_Z.
  replace (inject_Z z - inject_Z z ?= 1 # 2) with Lt; [reflexivity|].
  symmetry. apply Qlt_alt. setoid_replace (inject_Z z - inject_Z z) with 0 by ring.
  reflexivity.
Qed.

(** Numbers more than one apart round to different integers. *)
Lemma np_round_apart (a b : Q) : a + 1 < b -> (np_round a < np_round b)%Z.
Proof.
  intro H. pose proof (np_round_close a) as Ca. pose proof (np_round_close b) as Cb.
  apply Qabs_Qle_condition in Ca, Cb.
  assert (L : inject_Z (np_round a) < inject_Z (np_round b)) by lra.
  unfold Qlt, inject_Z in L; cbn [Qnum Qden] in L. lia.
Qed.

Lemma dlib_intersect_comm (a b : dlib.rectangle) :
  dlib.intersect a b = dlib.intersect b a.
Proof.
  unfold dlib.intersect.
  now rewrite (Z.max_comm (dlib.left a)), (Z.max_comm (dlib.top a)),
              (Z.min_comm (dlib.right a)), (Z.min_comm (dlib.bottom a)).
Qed.

Lemma dlib_intersect_idem (a : dlib.rectangle) : dlib.intersect a a = a.
Proof.
  destruct a. unfold dlib.intersect. simpl. now rewrite !Z.max_id, !Z.min_id.
Qed.

Lemma dlib_area_nonneg (a : dlib.rectangle) : (0 <= dlib.area a)%Z.
Proof.
  unfold dlib.area. apply Z.mod_pos_bound. reflexivity.
Qed.

(** As long as the number of pixels fits an [unsigned long], [area] is
    that number. *)
Lemma area_pixel_count (r : dlib.rectangle) :
  (pixel_count r < 2 ^ 64)%Z -> dlib.area r = pixel_count r.
Proof.
  unfold pixel_count, dlib.area, dlib.width, dlib.height, dlib.is_empty.
  destruct (Z.ltb_spec (dlib.bottom r) (dlib.top r));
  destruct (Z.ltb_spec (dlib.right r) (dlib.left r)); cbn [orb]; intro Hc.
  - rewrite Z.max_l by lia. reflexivity.
  - rewrite (Z.max_l 0 (dlib.bottom r - dlib.top r + 1)) by lia.
    rewrite !Z.mul_0_r. reflexivity.
  - rewrite Z.max_l by lia. reflexivity.
  - rewrite !Z.max_r in * by lia.
    set (w := (dlib.right r - dlib.left r + 1)%Z) in *.
    set (h := (dlib.bottom r - dlib.top r + 1)%Z) in *.
    assert (1 <= w)%Z by (unfold w; lia). assert (1 <= h)%Z by (unfold h; lia).
    assert (w < 2 ^ 64)%Z by nia. assert (h < 2 ^ 64)%Z by nia.
    rewrite (Z.mod_small w), (Z.mod_small h) by lia.
    apply Z.mod_small. nia.
Qed.

Lemma pixel_count_nonneg (r : dlib.rectangle) : (0 <= pixel_count r)%Z.
Proof.
  unfold pixel_count. apply Z.mul_nonneg_nonneg; lia.
Qed.

Lemma pixel_count_intersect_le (a b : dlib.rectangle) :
  (pixel_count (dlib.intersect a b) <= pixel_count a)%Z /\
  (pixel_count (dlib.intersect a b) <= pixel_count b)%Z.
Proof.
  unfold pixel_count, dlib.intersect. cbn [dlib.left dlib.top dlib.right dlib.bottom].
  split; apply Z.mul_le_mono_nonneg; lia.
Qed.

(** The intersection has no pixel exactly when the two rectangles have
    none in common; rectangles that touch along a border share the
    pixels of that border. *)
Lemma pixel_count_intersect_zero (a b : dlib.rectangle) :
  (0 < pixel_count a)%Z -> (0 < pixel_count b)%Z ->
  (pixel_count (dlib.intersect a b) = 0%Z <-> no_common_pixel a b).
Proof.
  unfold pixel_count, dlib.intersect, no_common_pixel.
  cbn [dlib.left dlib.top dlib.right dlib.bottom]. intros Ha Hb.
  assert (0 < dlib.right a - dlib.left a + 1 /\ 0 < dlib.bottom a - dlib.top a + 1)%Z by nia.
  assert (0 < dlib.right b - dlib.left b + 1 /\ 0 < dlib.bottom b - dlib.top b + 1)%Z by nia.
  split; intro H1; nia.
Qed.

Lemma pixels_of_round (a : face_utils.BoxArg) :
  pixels_of a =
  dlib.mkRectangle (np_round (x1 (box_of_arg a))) (np_round (y1 (box_of_arg a)))
                   (np_round (x2 (box_of_arg a))) (np_round (y2 (box_of_arg a))).
Proof.
  destruct a as [[l t r b]|[[[a b] c] d]]; cbn; [|reflexivity].
  now rewrite !np_round_inject_Z.
Qed.

Lemma well_formed_arg_pixels (a : face_utils.BoxArg) :
  well_formed_arg a -> (0 < pixel_count (pixels_of a))%Z.
Proof.
  destruct a as [r|[[[a b] c] d]]; cbn [well_formed_arg pixels_of].
  - intros [Hx Hy]. unfold pixel_count. nia.
  - intros [Hx Hy].
    apply Qlt_le_weak, np_round_monotone in Hx.
    apply Qlt_le_weak, np_round_monotone in Hy.
    unfold pixel_count. cbn [dlib.left dlib.top dlib.right dlib.bottom]. nia.
Qed.

Lemma representable_as_rectangle (a : face_utils.BoxArg) :
  representable a -> face_utils.as_rectangle a = Ok (pixels_of a).
Proof.
  destruct a as [r|[[[a b] c] d]]; [reflexivity|].
  unfold representable. cbn [pixels_of dlib.left dlib.top dlib.right dlib.bottom].
  intros (Hl & Ht & Hr & Hb & _).
  cbn [face_utils.as_rectangle face_utils.tuple2rect]. unfold dlib.new_rectangle, dlib.fits_long.
  repeat match goal with
         | |- context [(?u <=? ?v)%Z] =>
             replace (u <=? v)%Z with true by (symmetry; apply Z.leb_le; lia)
         | |- context [(?u <? ?v)%Z] =>
             replace (u <? v)%Z with true by (symmetry; apply Z.ltb_lt; lia)
         end.
  reflexivity.
Qed.

(** The value of [intersection_over_union] on well-formed boxes that
    dlib can hold: pixels in common over pixels in the union. *)
Lemma intersection_over_union_value (A B : face_utils.BoxArg) :
  well_formed_arg A -> well_formed_arg B -> representable A -> representable B ->
  let i := pixel_count (dlib.intersect (pixels_of A) (pixels_of B)) in
  let u := (pixel_count (pixels_of A) + pixel_count (pixels_of B) - i)%Z in
  (0 <= i)%Z /\ (i <= pixel_count (pixels_of A))%Z /\ (i <= pixel_count (pixels_of B))%Z /\
  (0 < u)%Z /\
  face_utils.intersection_over_union A B = Ok (inject_Z i / inject_Z u).
Proof.
  intros WA WB RA RB i u.
  apply well_formed_arg_pixels in WA, WB.
  destruct (pixel_count_intersect_le (pixels_of A) (pixels_of B)) as [L1 L2].
  pose proof (pixel_count_nonneg (dlib.intersect (pixels_of A) (pixels_of B))) as N.
  fold i in L1, L2, N.
  assert (CA : (pixel_count (pixels_of A) < 2 ^ 64)%Z) by apply RA.
  assert (CB : (pixel_count (pixels_of B) < 2 ^ 64)%Z) by apply RB.
  repeat split; try assumption; [unfold u; lia|].
  unfold face_utils.intersection_over_union.
  rewrite (representable_as_rectangle A RA), (representable_as_rectangle B RB).
  cbn [bind].
  rewrite (area_pixel_count (pixels_of A)), (area_pixel_count (pixels_of B)) by assumption.
  rewrite (area_pixel_count (dlib.intersect (pixels_of A) (pixels_of B))) by (fold i; lia).
  fold i. fold u. unfold face_utils.truediv.
  replace (u =? 0)%Z with false by (symmetry; apply Z.eqb_neq; unfold u; lia).
  reflexivity.
Qed.

Lemma quotient_zero_iff (i u : Z) :
  (0 < u)%Z -> (inject_Z i / inject_Z u == 0 <-> i = 0%Z).
Proof.
  intro Hu.
  assert (Nu : ~ inject_Z u == 0) by (unfold Qeq, inject_Z; cbn [Qnum Qden]; lia).
  split.
  - intro H.
    assert (E : inject_Z i == 0).
    { rewrite <- (Qmult_div_r (inject_Z i) (inject_Z u) Nu). rewrite H. ring. }
    unfold Qeq, inject_Z in E; cbn [Qnum Qden] in E. lia.
  - intros ->. unfold Qdiv. apply Qmult_0_l.
Qed.

(** C6, as stated, fails.  The boxes (0, 0, 10.6, 10) and
    (10.7, 0, 20, 10) are well-formed and disjoint, a gap apart, but
    their rounded coordinates make two pixel rectangles that share
    column 11: the result is 11/231 = 1/21, not 0.  And the rectangle of
    2^32 x 2^32 pixels has an area that wraps around to 0: against itself
    it gives [ZeroDivisionError], not 1. *)
Lemma iou_positive_on_disjoint_boxes :
  let A := face_utils.AIter (0, 0, 106 # 10, 10) in
  let B := face_utils.AIter (107 # 10, 0, 20, 10) in
  let C := face_utils.ARect (dlib.mkRectangle 0 0 (2 ^ 32 - 1) (2 ^ 32 - 1)) in
  (well_formed_arg A /\ well_formed_arg B /\
   disjoint (box_of_arg A) (box_of_arg B) /\
   face_utils.intersection_over_union A B = Ok (11 # 231) /\ ~ (11 # 231) == 0) /\
  (well_formed_arg C /\
   face_utils.intersection_over_union C C = Raise ZeroDivisionError).
Proof.
  split.
  - split; [split; reflexivity|]. split; [split; reflexivity|].
    split; [left; reflexivity|]. split; [vm_compute; reflexivity|discriminate].
  - split; [split; discriminate|]. vm_compute. reflexivity.
Qed.

(** C6 (amended).  For well-formed boxes [A] and [B] of positive area
    whose rounded coordinates fit dlib's [long] and whose number of
    pixels fits its [unsigned long]: [intersection_over_union] is
    symmetric; it is 1 on identical boxes; it is 0 exactly when the pixel
    rectangles of [A] and [B] (their coordinates rounded, borders
    included) have no pixel in common, which is the case whenever the two
    boxes are more than one pixel apart. *)
Theorem intersection_over_union_props (A B : face_utils.BoxArg) :
  well_formed_arg A -> well_formed_arg B -> representable A -> representable B ->
  face_utils.intersection_over_union A B = face_utils.intersection_over_union B A /\
  (exists q, face_utils.intersection_over_union A A = Ok q /\ q == 1) /\
  (exists q, face_utils.intersection_over_union A B = Ok q /\
             (q == 0 <-> no_common_pixel (pixels_of A) (pixels_of B))) /\
  (apart (box_of_arg A) (box_of_arg B) ->
   exists q, face_utils.intersection_over_union A B = Ok q /\ q == 0).
Proof.
  intros WA WB RA RB.
  destruct (intersection_over_union_value A B WA WB RA RB) as (I0 & I1 & I2 & U & E).
  destruct (intersection_over_union_value B A WB WA RB RA) as (_ & _ & _ & _ & E').
  destruct (intersection_over_union_value A A WA WA RA RA) as (_ & _ & _ & U2 & E2).
  assert (Z0 : forall q, face_utils.intersection_over_union A B = Ok q ->
                         (q == 0 <-> no_common_pixel (pixels_of A) (pixels_of B))).
  { intros q Hq. rewrite E in Hq. injection Hq as <-.
    rewrite (quotient_zero_iff _ _ U).
    apply pixel_count_intersect_zero; now apply well_formed_arg_pixels. }
  split; [|split; [|split]].
  - rewrite E, E'. rewrite (dlib_intersect_comm (pixels_of B) (pixels_of A)).
    do 3 f_equal. lia.
  - rewrite E2. eexists. split; [reflexivity|].
    rewrite dlib_intersect_idem in *.
    replace (pixel_count (pixels_of A) + pixel_count (pixels_of A) - pixel_count (pixels_of A))%Z
      with (pixel_count (pixels_of A)) in * by lia.
    apply Qmult_inv_r. unfold Qeq, inject_Z; cbn [Qnum Qden]. lia.
  - eexists. split; [exact E|]. now apply Z0.
  - intro Hap. eexists. split; [exact E|]. apply (Z0 _ E).
    rewrite (pixels_of_round A), (pixels_of_round B). unfold no_common_pixel.
    cbn [dlib.left dlib.top dlib.right dlib.bottom].
    destruct Hap as [H|[H|[H|H]]]; apply np_round_apart in H; lia.
Qed.

(** Two boxes given as sequences, two columns apart; and two that
    overlap. *)
Lemma intersection_over_union_props_witness :
  let A := face_utils.AIter (0, 0, 10, 10) in
  let B := face_utils.AIter (12, 0, 20, 10) in
  face_utils.intersection_over_union A B = face_utils.intersection_over_union B A /\
  (exists q, face_utils.intersection_over_union A A = Ok q /\ q == 1) /\
  (exists q, face_utils.intersection_over_union A B = Ok q /\ q == 0).
Proof.
  intros A B.
  assert (WA : well_formed_arg A) by (split; reflexivity).
  assert (WB : well_formed_arg B) by (split; reflexivity).
  assert (RA : representable A) by (repeat split; vm_compute; congruence).
  assert (RB : representable B) by (repeat split; vm_compute; congruence).
  destruct (intersection_over_union_props A B WA WB RA RB) as (H1 & H2 & _ & H4).
  refine (conj H1 (conj H2 (H4 _))).
  left. reflexivity.
Defined.

(** ** C7: the identity detector *)

(** C7 (the code at any frame).  [IdentityFaceDetector] does not define
    [output_type], so the class stays abstract and building the detector
    raises [TypeError]; on an instance whose [__init__] has run, the public
    call raises [AttributeError] at its first line, [__init__] being
    [pass]; only the raw [_call_imp] returns the single whole-frame entry
    (0, 0, w, h) with a NaN confidence, as a plain tuple. *)
Theorem Identity_detect_raises (frame : Frame) :
  Identity_detect frame = Raise (TypeError "Can't instantiate abstract class") /\
  __call__ Identity__init__ frame = Raise (AttributeError "padd_prct") /\
  _call_imp Identity__init__ frame =
  Ok ([mkRawTuple (0%Z, 0%Z, shape1 frame, shape0 frame) ConfNaN], Identity__init__).
Proof.
  repeat split.
Qed.

(** ** C8: the precomputed detector *)

Lemma Precomputed_call_is_call_imp (q : list Entry) (frame : Frame) :
  __call__ (Precomputed__init__ q) frame = _call_imp (Precomputed__init__ q) frame.
Proof.
  unfold __call__. simpl. destruct q as [|[t|l] rest]; simpl.
  - reflexivity.
  - reflexivity.
  - unfold size_filter. simpl. reflexivity.
Qed.

Lemma Rect_of_tuple_detection (t : Q * Q * Q * Q) :
  mkDetection (Rect_of_tuple t) ConfNone = box_detection t.
Proof.
  destruct t as [[[a b] c] d]. reflexivity.
Qed.

(** C8.  A call to the precomputed detector on a non-empty queue removes
    exactly the first entry and returns its detections: for a tuple
    entry (x1, y1, x2, y2) the single detection with the box
    (x1, y1, x2, y2) and no confidence, for a list entry one such
    detection per tuple, in order; on an empty queue it returns the empty
    list and leaves the queue empty, so that of any successive calls the
    first [len(queue)] return the entries' detections in turn and all
    later ones the empty list. *)
Theorem Precomputed_call_pops (q : list Entry) (frame : Frame) :
  match q with
  | [] =>
      __call__ (Precomputed__init__ []) frame = Ok ([], Precomputed__init__ [])
  | TupleEntry (a, b, c, d) :: rest =>
      __call__ (Precomputed__init__ q) frame =
      Ok ([{| bbox := {| x1 := a; y1 := b; x2 := c; y2 := d |}; detect_conf := ConfNone |}],
          Precomputed__init__ rest)
  | ListEntry l :: rest =>
      __call__ (Precomputed__init__ q) frame =
      Ok (map box_detection l, Precomputed__init__ rest)
  end /\
  forall frames : list Frame,
    successive_calls (Precomputed__init__ q) frames =
    Ok (map entry_detections (firstn (List.length frames) q) ++
        repeat [] (List.length frames - List.length q),
        Precomputed__init__ (skipn (List.length frames) q)).
Proof.
  assert (E : forall (e : Entry) rest f,
             _call_imp (Precomputed__init__ (e :: rest)) f =
             Ok (entry_detections e, Precomputed__init__ rest)).
  { intros [t|l] rest f; cbn.
    - now rewrite Rect_of_tuple_detection.
    - do 2 f_equal. apply map_ext. apply Rect_of_tuple_detection. }
  split.
  - destruct q as [|[[[[a b] c] d]|l] rest];
      rewrite Precomputed_call_is_call_imp; [reflexivity|apply E|apply E].
  - intro frames. revert q.
    induction frames as [|f frames IH]; intro q; [reflexivity|].
    cbn [successive_calls]. rewrite Precomputed_call_is_call_imp.
    destruct q as [|e rest].
    + cbn. fold (Precomputed__init__ []). rewrite IH.
      cbn. rewrite firstn_nil, skipn_nil, Nat.sub_0_r. reflexivity.
    + rewrite E. cbn [bind]. rewrite IH. reflexivity.
Qed.

(** A queue holding the box (1, 2, 3, 4) and then the list of the boxes
    (5, 6, 7, 8) and (9, 10, 11, 12), called three times. *)
Lemma Precomputed_call_pops_witness :
  let frame := mkFrame 100 100 3 (fun _ _ _ => 0%Z) in
  let queue := [TupleEntry (1, 2, 3, 4); ListEntry [(5, 6, 7, 8); (9, 10, 11, 12)]] in
  let d := fun a b c d => mkDetection (mkRect a b c d) ConfNone in
  __call__ (Precomputed__init__ queue) frame =
  Ok ([d 1 2 3 4], Precomputed__init__ [ListEntry [(5, 6, 7, 8); (9, 10, 11, 12)]]) /\
  successive_calls (Precomputed__init__ queue) [frame; frame; frame] =
  Ok ([[d 1 2 3 4]; [d 5 6 7 8; d 9 10 11 12]; []], Precomputed__init__ []).
Proof.
  intros frame queue d.
  exact (conj (proj1 (Precomputed_call_pops queue frame))
              (proj2 (Precomputed_call_pops queue frame) [frame; frame; frame])).
Defined.

(** ** C9: unsupported time units of [video_iterator] *)

(** C9, as stated, fails when the source cannot be opened: the check of
    the capture comes first and raises the generic [Exception], whatever
    the time unit. *)
Lemma unopened_source_raises_Exception :
  let src := opencv_utils.mkCapture false 25 [] in
  let g := opencv_utils.Unstarted src "s" None None 1 in
  opencv_utils.iterate 1 g =
  ([], opencv_utils.Failed (Exception "Video file does not exist or is invalid")) /\
  opencv_utils.iterate 1 g <> ([], opencv_utils.Failed NotImplementedError).
Proof.
  split; [reflexivity|discriminate].
Qed.

(** C9 (amended).  For every [time_unit] other than 'frame' and 'ms':
    iterating [video_iterator] over a source that opens fails with
    [NotImplementedError] and produces no frame before failing; over a
    source that cannot be opened it fails with the generic [Exception] of
    the opening check, again without producing a frame. *)
Theorem unsupported_time_unit (src : opencv_utils.VideoCapture) (time_unit : string)
    (start stop : option Z) (subsamp_coeff : Z) (n : nat) :
  time_unit <> "frame"%string -> time_unit <> "ms"%string ->
  let g := opencv_utils.Unstarted src time_unit start stop subsamp_coeff in
  (opencv_utils.isOpened src = true ->
   opencv_utils.next g = (opencv_utils.Raised NotImplementedError, opencv_utils.Exhausted) /\
   opencv_utils.iterate (Datatypes.S n) g = ([], opencv_utils.Failed NotImplementedError)) /\
  (opencv_utils.isOpened src = false ->
   opencv_utils.iterate (Datatypes.S n) g =
   ([], opencv_utils.Failed (Exception "Video file does not exist or is invalid"))).
Proof.
  intros Hf Hm g.
  apply String.eqb_neq in Hf, Hm.
  split; intro Ho; unfold g; cbn [opencv_utils.iterate opencv_utils.next];
    rewrite Ho; cbn [negb].
  - rewrite Hf, Hm. split; reflexivity.
  - reflexivity.
Qed.

(** A two-frame source that opens, iterated with the time unit 's'. *)
Lemma unsupported_time_unit_witness :
  let black := mkFrame 2 2 3 (fun _ _ _ => 0%Z) in
  let src := opencv_utils.mkCapture true 25 [black; black] in
  let g := opencv_utils.Unstarted src "s" None None 1 in
  opencv_utils.next g = (opencv_utils.Raised NotImplementedError, opencv_utils.Exhausted) /\
  opencv_utils.iterate 3 g = ([], opencv_utils.Failed NotImplementedError).
Proof.
  intros black src g.
  refine (proj1 (unsupported_time_unit src "s" None None 1 2 _ _) eq_refl);
    discriminate.
Defined.

(** ** C10: eye centers *)

Lemma skipn_nth_error {A : Type} (l : list A) :
  forall i, (i < List.length l)%nat ->
            exists p, nth_error l i = Some p /\ skipn i l = p :: skipn (Datatypes.S i) l.
Proof.
  induction l as [|a l IH]; intros i Hi; simpl in Hi; [lia|].
  destruct i as [|i].
  - exists a. split; reflexivity.
  - destruct (IH i) as (p & Hn & Hs); [lia|].
    exists p. split; [exact Hn|exact Hs].
Qed.

Lemma _extract_eye_landmarks (shape : dlib.full_object_detection) (n first : nat) :
  (first + n <= dlib.num_parts shape)%nat ->
  face_utils._extract_eye shape (seq first n) = Ok (landmarks shape first n).
Proof.
  unfold face_utils._extract_eye, landmarks, dlib.num_parts, dlib.part.
  revert first. induction n as [|n IH]; intros first Hlen; [reflexivity|].
  cbn [seq mapM].
  destruct (skipn_nth_error (dlib.parts shape) first) as (p & Hn & Hs); [lia|].
  rewrite Hn, IH by lia. rewrite Hs. reflexivity.
Qed.

Lemma sum_fold_right (l : list Z) : face_utils.sum l = fold_right Z.add 0%Z l.
Proof.
  unfold face_utils.sum. apply fold_symmetric; intros; lia.
Qed.

Lemma floor_mean_six (l : list Z) :
  List.length l = 6%nat -> (face_utils.sum l / 6)%Z = Qfloor (mean l).
Proof.
  intro Hl. unfold mean. rewrite Hl, sum_fold_right. apply Zdiv_Qdiv.
Qed.

Lemma landmarks_length (shape : dlib.full_object_detection) (first n : nat) :
  (first + n <= dlib.num_parts shape)%nat -> List.length (landmarks shape first n) = n.
Proof.
  unfold landmarks, dlib.num_parts. intro H.
  rewrite length_firstn, length_skipn. lia.
Qed.



(** ** The boxes of the OpenCV detector are well-formed *)

(** Every box that the OpenCV detector returns on a frame of positive
    height and width has x1<x2 and y1<y2, hence a positive area: in
    [get_closest_face] the union under the quotient of [Rect_iou] is
    positive for every well-formed reference box. *)

Lemma decode_loop_well_formed (m : option Q) (w h : Z) (detections : list RawDetection) :
  (0 < w)%Z -> (0 < h)%Z ->
  forall faces_data l,
    Forall (fun d => well_formed (bbox d)) faces_data ->
    decode_loop m w h detections faces_data = Ok l ->
    Forall (fun d => well_formed (bbox d)) l.
Proof.
  intros Hw Hh.
  assert (Qw : 0 < inject_Z w) by (unfold Qlt; simpl; lia).
  assert (Qh : 0 < inject_Z h) by (unfold Qlt; simpl; lia).
  induction detections as [|d rest IH]; intros faces_data l Hacc; simpl.
  - now intros [= <-].
  - destruct m as [mc|]; simpl; [|discriminate].
    destruct (Qltb (confidence d) mc); [now intros [= <-]|].
    destruct (_ || _ || _ || _)%bool; [now apply IH|].
    destruct (Qle_bool (rx2 d) (rx1 d) || Qle_bool (ry2 d) (ry1 d))%bool eqn:E;
      [now apply IH|].
    apply IH. apply Forall_app. split; [assumption|].
    constructor; [|constructor].
    apply orb_false_iff in E. destruct E as [E1 E2].
    fold (Qltb (rx1 d) (rx2 d)) in E1. fold (Qltb (ry1 d) (ry2 d)) in E2.
    unfold Qltb in E1, E2. apply negb_true_iff, negb_true_iff in E1.
    apply negb_true_iff, negb_true_iff in E2.
    split; simpl; apply Qmult_lt_compat_r; try assumption.
    + apply Qnot_le_lt. intro L. apply Qle_bool_iff in L. congruence.
    + apply Qnot_le_lt. intro L. apply Qle_bool_iff in L. congruence.
Qed.

Lemma transpose_well_formed (b : Rect) (dx dy : Q) :
  well_formed b -> well_formed (Rect_transpose b dx dy).
Proof.
  intros [Hx Hy]. split; simpl; lra.
Qed.

Lemma int_nonneg (q : Q) : 0 <= q -> (0 <= Py.int q)%Z.
Proof.
  destruct q as [n d]. unfold Qle, Py.int. simpl. intro H.
  apply Z.quot_pos; lia.
Qed.

Lemma OcvCnn_call_well_formed (self self' : OcvCnn) (frame : Frame) (p : Q)
    (lfaces : list Detection) :
  padd_prct (ocv_attrs self) = Some p -> 0 <= p ->
  (0 < shape0 frame)%Z -> (0 < shape1 frame)%Z ->
  __call__ self frame = Ok (lfaces, self') ->
  Forall (fun d => well_formed (bbox d)) lfaces.
Proof.
  intros Hp Hp0 H0 H1. unfold __call__. cbn [attrs _call_imp OcvCnn_Detector].
  rewrite Hp. cbn [getattr bind].
  set (pad := if truthy p then _blackpadd frame p else Ok (frame, 0%Z, 0%Z)).
  destruct pad as [[[tmpframe yoffset] xoffset]|e] eqn:Epad; [|discriminate].
  assert (Hdim : (0 < shape0 tmpframe)%Z /\ (0 < shape1 tmpframe)%Z).
  { unfold pad in Epad. destruct (truthy p).
    - apply _blackpadd_Ok in Epad. destruct Epad as (_ & _ & Hx & Hy & ->).
      cbn [shape0 shape1]. lia.
    - injection Epad as <- _ _. split; assumption. }
  destruct Hdim as [Hd0 Hd1]. cbn [bind].
  unfold OcvCnn_call_imp. cbn zeta.
  destruct (negb (sorted_assertion (forward self tmpframe))); [discriminate|].
  destruct (decode_loop _ _ _ _ _) as [l|e] eqn:El; [|discriminate].
  apply decode_loop_well_formed in El; [|assumption|assumption|constructor].
  cbn [bind]. rewrite Hp.
  destruct (min_size_px (ocv_attrs self)) as [mpx|]; [|discriminate].
  destruct (min_size_prct (ocv_attrs self)) as [mprct|]; [|discriminate].
  cbn [getattr bind]. rewrite size_filter_lawful. cbn [bind].
  set (kept := let t := _ in if Qltb 0 t then _ else l).
  assert (Hk : Forall (fun d => well_formed (bbox d)) kept).
  { unfold kept. cbn zeta. destruct (Qltb 0 _); [|assumption].
    apply Forall_forall. intros d Hd. apply filter_In in Hd.
    destruct Hd as [Hd _]. revert d Hd. now apply Forall_forall. }
  clearbody kept.
  destruct (truthy p).
  - rewrite unpad_lawful. cbn [bind]. intros [= <- _].
    apply Forall_forall. intros d Hd. apply in_map_iff in Hd.
    destruct Hd as (d0 & <- & Hin). simpl. apply transpose_well_formed.
    revert d0 Hin. now apply Forall_forall.
  - cbn [bind]. now intros [= <- _].
Qed.

Lemma square_well_formed (r : Rect) : well_formed r -> well_formed (Rect_square r).
Proof.
  intros [Hx Hy].
  assert (Hm : 0 < Rect_max_dim_len r).
  { unfold Rect_max_dim_len.
    destruct (Pymax_spec (Rect_w r) (Rect_h r)) as [[_ ->]|[_ ->]];
      unfold Rect_w, Rect_h; lra. }
  unfold Rect_square, well_formed. cbn [x1 y1 x2 y2 fst snd].
  assert (0 < Rect_max_dim_len r / 2) by (apply Qlt_shift_div_l; lra).
  split; lra.
Qed.

(** The quotients taken by [get_closest_face] have a positive divisor. *)
Lemma closest_face_union_pos (self self' : OcvCnn) (frame : Frame) (p : Q)
    (lfaces : list Detection) (r : Rect) (squarify : bool) :
  padd_prct (ocv_attrs self) = Some p -> 0 <= p ->
  (0 < shape0 frame)%Z -> (0 < shape1 frame)%Z ->
  __call__ self frame = Ok (lfaces, self') ->
  well_formed r ->
  let f := if squarify then Rect_square else (fun b => b) in
  forall d, In d lfaces ->
    0 < Rect_area (f (f r)) + Rect_area (f (bbox d))
        - Rect_area (Rect_intersect (f (f r)) (f (bbox d))).
Proof.
  intros Hp Hp0 H0 H1 Hcall Hr f d Hd.
  pose proof (OcvCnn_call_well_formed self self' frame p lfaces Hp Hp0 H0 H1 Hcall) as Hwf.
  assert (Hb : well_formed (bbox d)) by (revert d Hd; now apply Forall_forall).
  apply Rect_union_pos; unfold f; destruct squarify;
    repeat apply square_well_formed; assumption.
Qed.

(** ** The IoU of [Rect] *)

Lemma Rect_intersect_comm (a b : Rect) :
  Rect_eq (Rect_intersect a b) (Rect_intersect b a).
Proof.
  assert (Mx : forall u v, Py.max u v == Py.max v u).
  { intros u v. destruct (Pymax_spec u v) as [[L ->]|[L ->]];
      destruct (Pymax_spec v u) as [[L' ->]|[L' ->]]; lra. }
  assert (Mn : forall u v, Py.min u v == Py.min v u).
  { intros u v. destruct (Pymin_spec u v) as [[L ->]|[L ->]];
      destruct (Pymin_spec v u) as [[L' ->]|[L' ->]]; lra. }
  unfold Rect_intersect. cbn zeta.
  rewrite (Qltb_Proper _ _ (Mn (x2 a) (x2 b)) _ _ (Mx (x1 a) (x1 b))).
  rewrite (Qltb_Proper _ _ (Mn (y2 a) (y2 b)) _ _ (Mx (y1 a) (y1 b))).
  destruct (_ || _)%bool; [reflexivity|].
  repeat split; cbn [x1 y1 x2 y2]; auto.
Qed.

(** The spec's first testable property on the [Rect] of the newer
    package: its IoU is symmetric, 1 on a box of positive area against
    itself, and 0 when the intersection has no area. *)
Lemma Rect_iou_props (a b : Rect) :
  Rect_iou a b == Rect_iou b a /\
  (well_formed a -> Rect_iou a a == 1) /\
  (Rect_area (Rect_intersect a b) == 0 -> Rect_iou a b == 0).
Proof.
  split; [|split].
  - unfold Rect_iou. cbn zeta. rewrite (Rect_intersect_comm b a).
    setoid_replace (Rect_area b + Rect_area a) with (Rect_area a + Rect_area b) by ring.
    reflexivity.
  - intros [Hx Hy]. unfold Rect_iou. cbn zeta.
    assert (E : Rect_eq (Rect_intersect a a) a).
    { unfold Rect_intersect. cbn zeta.
      destruct (Pymax_spec (x1 a) (x1 a)) as [[? ->]|[? ->]];
      destruct (Pymax_spec (y1 a) (y1 a)) as [[? ->]|[? ->]];
      destruct (Pymin_spec (x2 a) (x2 a)) as [[? ->]|[? ->]];
      destruct (Pymin_spec (y2 a) (y2 a)) as [[? ->]|[? ->]]; try lra.
      replace (Qltb (x2 a) (x1 a)) with false by (symmetry; apply Qltb_ge; lra).
      replace (Qltb (y2 a) (y1 a)) with false by (symmetry; apply Qltb_ge; lra).
      destruct a; reflexivity. }
    rewrite E.
    assert (0 < Rect_area a) by (unfold Rect_area, Rect_w, Rect_h; nra).
    field. lra.
  - intros E. unfold Rect_iou. cbn zeta. rewrite E. unfold Qdiv. ring.
Qed.

(* ================================================================= *)
(** * Further properties of the code *)
(* ================================================================= *)

(** ** [video_iterator]: what an iteration produces *)

Lemma indexed_ge (l : list Frame) :
  forall pos it, In it (indexed pos l) -> (pos <= fst it)%Z.
Proof.
  induction l as [|f l IH]; intros pos it; simpl; [intros []|].
  intros [<-|Hin]; simpl; [lia|]. apply IH in Hin. lia.
Qed.

Lemma filter_none {A : Type} (p : A -> bool) (l : list A) :
  (forall a, In a l -> p a = false) -> filter p l = [].
Proof.
  induction l as [|a l IH]; intro H; simpl; [reflexivity|].
  rewrite (H a) by (left; reflexivity). apply IH. intros b Hb. apply H. now right.
Qed.

Lemma items_from_cons (f : Frame) (rest : list Frame) (pos : Z) (stop : option Z) (k : Z) :
  items_from (f :: rest) pos stop k =
  if asked_for None stop k pos
  then (pos, opencv_utils.cvtColor_BGR2RGB f) :: items_from rest (pos + 1) stop k
  else items_from rest (pos + 1) stop k.
Proof.
  unfold items_from. cbn [indexed filter fst].
  destruct (asked_for None stop k pos); reflexivity.
Qed.

Lemma loop_step (stop : option Z) (k : Z) (rest : list Frame) :
  k <> 0%Z ->
  forall pos,
    (opencv_utils.loop rest pos stop k = (opencv_utils.StopIteration, opencv_utils.Exhausted) /\
     items_from rest pos stop k = []) \/
    (exists i f rest' pos',
        opencv_utils.loop rest pos stop k =
        (opencv_utils.Yield i f, opencv_utils.AtYield rest' pos' stop k) /\
        items_from rest pos stop k = (i, f) :: items_from rest' pos' stop k /\
        (List.length rest' < List.length rest)%nat).
Proof.
  intro Hk. apply Z.eqb_neq in Hk.
  induction rest as [|f rest IH]; intro pos.
  - left. split; [|reflexivity]. simpl. now destruct stop as [s|]; [destruct (s <? pos)%Z|].
  - cbn [opencv_utils.loop].
    destruct (match stop with Some s => (s <? pos)%Z | None => false end) eqn:Hs.
    + left. split; [reflexivity|]. unfold items_from.
      rewrite filter_none; [reflexivity|].
      intros it Hin. apply indexed_ge in Hin.
      destruct stop as [s|]; [|discriminate]. apply Z.ltb_lt in Hs.
      unfold asked_for. replace (fst it <=? s)%Z with false by (symmetry; apply Z.leb_gt; lia).
      reflexivity.
    + rewrite Hk, items_from_cons.
      assert (Hin : match stop with Some s => (pos <=? s)%Z | None => true end = true).
      { destruct stop as [s|]; [|reflexivity]. apply Z.ltb_ge in Hs. now apply Z.leb_le. }
      unfold asked_for. rewrite Hin. cbn [andb].
      destruct ((pos + 1) mod k =? 0)%Z; cbn [negb].
      * right. exists pos, (opencv_utils.cvtColor_BGR2RGB f), rest, (pos + 1)%Z.
        split; [|split; [reflexivity|simpl; lia]].
        now replace (pos + 1 - 1)%Z with pos by lia.
      * destruct (IH (pos + 1)%Z) as [[E I]|(i & g & rest' & pos' & E & I & L)].
        -- left. split; assumption.
        -- right. exists i, g, rest', pos'. split; [assumption|].
           split; [assumption|]. simpl. lia.
Qed.

Lemma iterate_from (stop : option Z) (k : Z) :
  k <> 0%Z ->
  forall n rest pos,
    (List.length rest < n)%nat ->
    opencv_utils.iterate n (opencv_utils.AtYield rest pos stop k) =
    (items_from rest pos stop k, opencv_utils.Completed).
Proof.
  intro Hk. induction n as [|n IH]; intros rest pos Hn; [lia|].
  cbn [opencv_utils.iterate opencv_utils.next].
  destruct (loop_step stop k rest Hk pos) as [[E I]|(i & g & rest' & pos' & E & I & L)];
    rewrite E, I; [reflexivity|].
  rewrite IH by lia. reflexivity.
Qed.

Lemma filter_from_start (P : Z -> bool) (n : nat) :
  forall (l : list Frame) (pos : Z),
    filter (fun it => (pos + Z.of_nat n <=? fst it)%Z && P (fst it)) (indexed pos l) =
    filter (fun it => P (fst it)) (indexed (pos + Z.of_nat n) (skipn n l)).
Proof.
  induction n as [|n IH]; intros l pos.
  - rewrite Z.add_0_r. cbn [skipn Z.of_nat]. apply filter_ext_in.
    intros it Hin. apply indexed_ge in Hin.
    now replace (pos <=? fst it)%Z with true by (symmetry; apply Z.leb_le; lia).
  - destruct l as [|f l]; [reflexivity|].
    cbn [indexed filter skipn fst].
    replace (pos + Z.of_nat (Datatypes.S n) <=? pos)%Z with false
      by (symmetry; apply Z.leb_gt; lia).
    cbn [andb].
    replace (pos + Z.of_nat (Datatypes.S n))%Z with (pos + 1 + Z.of_nat n)%Z by lia.
    apply IH.
Qed.

Lemma iterate_frame_unit (cap : opencv_utils.VideoCapture)
    (start stop : option Z) (subsamp_coeff : Z) (n : nat) :
  opencv_utils.isOpened cap = true ->
  subsamp_coeff <> 0%Z ->
  match start with Some s => (0 <= s)%Z | None => True end ->
  (List.length (opencv_utils.frames cap) < n)%nat ->
  opencv_utils.iterate n (opencv_utils.Unstarted cap "frame" start stop subsamp_coeff) =
  (expected_items (opencv_utils.frames cap) start stop subsamp_coeff,
   opencv_utils.Completed).
Proof.
  intros Ho Hk Hs Hn.
  set (pos := match start with Some s => s | None => 0%Z end).
  set (rest := skipn (Z.to_nat pos) (opencv_utils.frames cap)).
  assert (Hnext : opencv_utils.next
                    (opencv_utils.Unstarted cap "frame" start stop subsamp_coeff) =
                  opencv_utils.next (opencv_utils.AtYield rest pos stop subsamp_coeff)).
  { cbn [opencv_utils.next]. rewrite Ho. cbn [negb String.eqb Ascii.eqb Bool.eqb andb].
    unfold rest, pos. destruct start as [s|]; [|reflexivity].
    unfold opencv_utils.cap_set. now rewrite Z.max_r by lia. }
  assert (Hit : opencv_utils.iterate n
                  (opencv_utils.Unstarted cap "frame" start stop subsamp_coeff) =
                opencv_utils.iterate n (opencv_utils.AtYield rest pos stop subsamp_coeff)).
  { destruct n as [|m]; [reflexivity|]. cbn [opencv_utils.iterate]. now rewrite Hnext. }
  rewrite Hit, (iterate_from stop subsamp_coeff Hk).
  - f_equal. unfold items_from, expected_items. f_equal.
    assert (Hp : (0 <= pos)%Z) by (unfold pos; destruct start; [assumption|lia]).
    pose proof (filter_from_start
                  (fun i => asked_for None stop subsamp_coeff i)
                  (Z.to_nat pos) (opencv_utils.frames cap) 0) as F.
    rewrite Z2Nat.id, Z.add_0_l in F by assumption. fold rest in F. rewrite <- F.
    apply filter_ext_in. intros it Hin. apply indexed_ge in Hin.
    unfold asked_for, pos. destruct start as [s|]; cbn [andb].
    + now rewrite andb_assoc.
    + now replace (0 <=? fst it)%Z with true by (symmetry; apply Z.leb_le; lia).
  - unfold rest. rewrite length_skipn. lia.
Qed.

(** X1.  With the time unit 'frame', a source that opens and a non-zero
    stride, an iteration over [video_iterator] completes without error
    and produces exactly the frames numbered [i] with [start <= i <= stop]
    and [(i + 1) % subsamp_coeff == 0], in increasing order, each as the
    pair of its number and its RGB conversion.  (The stride is taken on
    the position after the read: with stride 3 the first frame produced
    is number 2.) *)
Theorem video_iterator_frames (cap : opencv_utils.VideoCapture)
    (start stop : option Z) (subsamp_coeff : Z) (n : nat) :
  opencv_utils.isOpened cap = true ->
  subsamp_coeff <> 0%Z ->
  match start with Some s => (0 <= s)%Z | None => True end ->
  (List.length (opencv_utils.frames cap) < n)%nat ->
  opencv_utils.iterate n (opencv_utils.Unstarted cap "frame" start stop subsamp_coeff) =
  (expected_items (opencv_utils.frames cap) start stop subsamp_coeff,
   opencv_utils.Completed).
Proof.
  apply iterate_frame_unit.
Qed.

(** Seven frames, of heights 10 to 16, read from frame 1 to frame 5 with
    stride 3: frames 2 and 5 are produced. *)
Lemma video_iterator_frames_witness :
  let fr := fun h => mkFrame h 4 3 (fun _ _ _ => 0%Z) in
  let cap := opencv_utils.mkCapture true 25 (map fr [10; 11; 12; 13; 14; 15; 16]%Z) in
  opencv_utils.iterate 8 (opencv_utils.Unstarted cap "frame" (Some 1%Z) (Some 5%Z) 3) =
  ([(2%Z, opencv_utils.cvtColor_BGR2RGB (fr 12%Z));
    (5%Z, opencv_utils.cvtColor_BGR2RGB (fr 15%Z))], opencv_utils.Completed).
Proof.
  intros fr cap.
  refine (video_iterator_frames cap (Some 1%Z) (Some 5%Z) 3 8 eq_refl _ _ _).
  - discriminate.
  - simpl. lia.
  - simpl. lia.
Defined.

(** X2.  With its default arguments (time unit 'frame', no bounds, stride 1)
    an iteration over a source that opens produces every frame exactly
    once, in order, numbered from 0, converted to RGB, and then ends. *)
Theorem video_iterator_default (cap : opencv_utils.VideoCapture) (n : nat) :
  opencv_utils.isOpened cap = true ->
  (List.length (opencv_utils.frames cap) < n)%nat ->
  opencv_utils.iterate n (opencv_utils.Unstarted cap "frame" None None 1) =
  (map (fun it => (fst it, opencv_utils.cvtColor_BGR2RGB (snd it)))
       (indexed 0 (opencv_utils.frames cap)),
   opencv_utils.Completed).
Proof.
  intros Ho Hn.
  rewrite (iterate_frame_unit cap None None 1 n Ho) by (try discriminate; auto).
  unfold expected_items. do 2 f_equal.
  rewrite <- (filter_ext (fun _ => true)).
  - induction (indexed 0 (opencv_utils.frames cap)) as [|x l IH]; simpl; congruence.
  - intro it. unfold asked_for. cbn [andb]. now rewrite Z.mod_1_r.
Qed.

Lemma video_iterator_default_witness :
  let fr := fun h => mkFrame h 4 3 (fun _ _ _ => 0%Z) in
  let cap := opencv_utils.mkCapture true 25 (map fr [10; 11; 12]%Z) in
  opencv_utils.iterate 4 (opencv_utils.Unstarted cap "frame" None None 1) =
  ([(0%Z, opencv_utils.cvtColor_BGR2RGB (fr 10%Z));
    (1%Z, opencv_utils.cvtColor_BGR2RGB (fr 11%Z));
    (2%Z, opencv_utils.cvtColor_BGR2RGB (fr 12%Z))], opencv_utils.Completed).
Proof.
  intros fr cap.
  refine (video_iterator_default cap 4 eq_refl _). simpl. lia.
Defined.

(** X3.  A stride of 0 makes the iteration fail with [ZeroDivisionError] at
    the first frame read, before anything is produced. *)
Theorem video_iterator_zero_stride (cap : opencv_utils.VideoCapture)
    (stop : option Z) (n : nat) :
  opencv_utils.isOpened cap = true ->
  opencv_utils.frames cap <> [] ->
  match stop with Some s => (0 <= s)%Z | None => True end ->
  opencv_utils.iterate (Datatypes.S n) (opencv_utils.Unstarted cap "frame" None stop 0) =
  ([], opencv_utils.Failed ZeroDivisionError).
Proof.
  intros Ho Hf Hs. cbn [opencv_utils.iterate opencv_utils.next].
  rewrite Ho. cbn [negb String.eqb Ascii.eqb Bool.eqb andb].
  destruct (opencv_utils.frames cap) as [|f rest]; [congruence|].
  cbn [opencv_utils.loop].
  replace (match stop with Some s => (s <? 0)%Z | None => false end) with false.
  - reflexivity.
  - destruct stop as [s|]; [|reflexivity]. symmetry. apply Z.ltb_ge. lia.
Qed.

Lemma video_iterator_zero_stride_witness :
  let cap := opencv_utils.mkCapture true 25 [mkFrame 2 2 3 (fun _ _ _ => 0%Z)] in
  opencv_utils.iterate 1 (opencv_utils.Unstarted cap "frame" None (Some 4%Z) 0) =
  ([], opencv_utils.Failed ZeroDivisionError).
Proof.
  intro cap.
  refine (video_iterator_zero_stride cap (Some 4%Z) 0 eq_refl _ _).
  - discriminate.
  - simpl. lia.
Defined.

Lemma loop_cases (stop : option Z) (k : Z) (rest : list Frame) :
  forall pos,
    (exists i f rest' pos',
        opencv_utils.loop rest pos stop k =
        (opencv_utils.Yield i f, opencv_utils.AtYield rest' pos' stop k) /\
        (List.length rest' < List.length rest)%nat) \/
    opencv_utils.loop rest pos stop k = (opencv_utils.StopIteration, opencv_utils.Exhausted) \/
    opencv_utils.loop rest pos stop k =
    (opencv_utils.Raised ZeroDivisionError, opencv_utils.Exhausted).
Proof.
  induction rest as [|f rest IH]; intro pos; cbn [opencv_utils.loop].
  - right. left. now destruct (match stop with Some s => _ | None => _ end).
  - destruct (match stop with Some s => _ | None => _ end); [right; left; reflexivity|].
    destruct (k =? 0)%Z; [right; right; reflexivity|].
    destruct (negb _).
    + destruct (IH (pos + 1)%Z) as [(i & g & rest' & pos' & E & L)|[E|E]].
      * left. exists i, g, rest', pos'. split; [assumption|]. simpl. lia.
      * right. left. assumption.
      * right. right. assumption.
    + left. do 4 eexists. split; [reflexivity|]. simpl. lia.
Qed.

Lemma iterate_ends (stop : option Z) (k : Z) :
  forall n rest pos,
    (List.length rest < n)%nat ->
    snd (opencv_utils.iterate n (opencv_utils.AtYield rest pos stop k)) <> opencv_utils.Pending /\
    (List.length (fst (opencv_utils.iterate n (opencv_utils.AtYield rest pos stop k)))
     <= List.length rest)%nat.
Proof.
  induction n as [|n IH]; intros rest pos Hn; [lia|].
  cbn [opencv_utils.iterate opencv_utils.next].
  destruct (loop_cases stop k rest pos) as [(i & g & rest' & pos' & E & L)|[E|E]]; rewrite E.
  - destruct (IH rest' pos') as [H1 H2]; [lia|].
    destruct (opencv_utils.iterate n _) as [l e]. simpl in *. split; [assumption|lia].
  - simpl. split; [discriminate|lia].
  - simpl. split; [discriminate|lia].
Qed.

(** X4.  Whatever its arguments, an iteration over [video_iterator] is
    finite: it has ended (normally or by an exception) after at most
    [len(frames) + 1] calls of [next], having produced at most
    [len(frames)] items. *)
Theorem video_iterator_finite (cap : opencv_utils.VideoCapture) (time_unit : string)
    (start stop : option Z) (subsamp_coeff : Z) (n : nat) :
  (List.length (opencv_utils.frames cap) < n)%nat ->
  let run := opencv_utils.iterate n
               (opencv_utils.Unstarted cap time_unit start stop subsamp_coeff) in
  snd run <> opencv_utils.Pending /\
  (List.length (fst run) <= List.length (opencv_utils.frames cap))%nat.
Proof.
  intros Hn run. unfold run. destruct n as [|n]; [lia|].
  assert (G : forall rest pos stop',
             (List.length rest <= List.length (opencv_utils.frames cap))%nat ->
             let r := match opencv_utils.loop rest pos stop' subsamp_coeff with
                      | (opencv_utils.Yield i f, g') =>
                          let '(l, e) := opencv_utils.iterate n g' in ((i, f) :: l, e)
                      | (opencv_utils.StopIteration, _) => ([], opencv_utils.Completed)
                      | (opencv_utils.Raised e, _) => ([], opencv_utils.Failed e)
                      end in
             snd r <> opencv_utils.Pending /\
             (List.length (fst r) <= List.length (opencv_utils.frames cap))%nat).
  { intros rest pos stop' Hl.
    pose proof (iterate_ends stop' subsamp_coeff (Datatypes.S n) rest pos) as H.
    cbn [opencv_utils.iterate opencv_utils.next] in H.
    destruct H as [H1 H2]; [lia|]. split; [exact H1|]. cbn zeta. lia. }
  cbn [opencv_utils.iterate opencv_utils.next].
  destruct (negb (opencv_utils.isOpened cap)); [simpl; split; [discriminate|lia]|].
  destruct (String.eqb time_unit "frame").
  - destruct start as [s|]; [unfold opencv_utils.cap_set|];
      apply G; rewrite ?length_skipn; lia.
  - destruct (String.eqb time_unit "ms"); [|simpl; split; [discriminate|lia]].
    destruct start as [s|]; cbn [option_map]; [unfold opencv_utils.cap_set|];
      apply G; rewrite ?length_skipn; lia.
Qed.

Lemma video_iterator_finite_witness :
  let fr := fun h => mkFrame h 4 3 (fun _ _ _ => 0%Z) in
  let cap := opencv_utils.mkCapture true 25 (map fr [10; 11; 12]%Z) in
  let run := opencv_utils.iterate 4
               (opencv_utils.Unstarted cap "ms" (Some 40%Z) None 2) in
  snd run <> opencv_utils.Pending /\ (List.length (fst run) <= 3)%nat.
Proof.
  intros fr cap.
  refine (video_iterator_finite cap "ms" (Some 40%Z) None 2 4 _). simpl. lia.
Defined.

(** ** [OcvCnnFacedetector._call_imp]: what it raises and what it returns *)

Lemma decode_loop_raises (m : option Q) (w h : Z) (detections : list RawDetection) :
  forall faces_data e,
    decode_loop m w h detections faces_data = Raise e -> e = AttributeError "minconf".
Proof.
  induction detections as [|d rest IH]; intros faces_data e; simpl; [discriminate|].
  destruct m as [mc|]; simpl; [|now intros [= <-]].
  destruct (Qltb (confidence d) mc); [discriminate|].
  destruct (_ || _ || _ || _)%bool; [apply IH|].
  destruct (_ || _)%bool; apply IH.
Qed.

(** X6.  [_call_imp] raises [AssertionError] exactly when the confidences of
    the network's candidates are not in descending order. *)
Theorem OcvCnn_assertion_iff_unsorted (self : OcvCnn) (frame : Frame) :
  OcvCnn_call_imp self frame = Raise AssertionError <->
  ~ sorted_desc (forward self frame).
Proof.
  split.
  - intros H Hs. unfold OcvCnn_call_imp in H. cbn zeta in H.
    rewrite (sorted_desc_assertion _ Hs) in H. cbn [negb] in H.
    destruct (decode_loop _ _ _ _ _) as [l|e] eqn:E; [discriminate|].
    apply decode_loop_raises in E. subst e. discriminate.
  - apply unsorted_raises_AssertionError.
Qed.

Lemma OcvCnn_assertion_iff_unsorted_witness :
  let ocv := OcvCnn__init__
               (fun _ => [mkRaw (5 # 10) (1 # 4) (1 # 4) (3 # 4) (3 # 4);
                          mkRaw (9 # 10) (1 # 4) (1 # 4) (3 # 4) (3 # 4)])
               (65 # 100) 30 0 (15 # 100) in
  ~ sorted_desc (forward ocv (mkFrame 100 200 3 (fun _ _ _ => 0%Z))).
Proof.
  intro ocv.
  exact (proj1 (OcvCnn_assertion_iff_unsorted ocv (mkFrame 100 200 3 (fun _ _ _ => 0%Z)))
               eq_refl).
Defined.

Lemma decode_loop_Forall (P : Detection -> Prop) (mc : Q) (w h : Z)
    (detections : list RawDetection) :
  (forall d, In d detections -> mc <= confidence d ->
             out_of_range d = false -> degenerate d = false -> P (scaled w h d)) ->
  forall faces_data l,
    Forall P faces_data ->
    decode_loop (Some mc) w h detections faces_data = Ok l ->
    Forall P l.
Proof.
  induction detections as [|d rest IH]; intros HP faces_data l Hacc; simpl.
  - now intros [= <-].
  - destruct (Qltb (confidence d) mc) eqn:Hc; [now intros [= <-]|].
    apply Qltb_ge in Hc.
    assert (HP' : forall d0, In d0 rest -> mc <= confidence d0 ->
                             out_of_range d0 = false -> degenerate d0 = false ->
                             P (scaled w h d0))
      by (intros d0 Hin; apply HP; now right).
    fold (out_of_range d). fold (degenerate d).
    destruct (out_of_range d) eqn:Ho; [now apply IH|].
    destruct (degenerate d) eqn:Hd; [now apply IH|].
    apply IH; [assumption|].
    apply Forall_app. split; [assumption|].
    constructor; [|constructor].
    apply (HP d); auto. now left.
Qed.

(** X7.  On a frame of positive height [h] and width [w], every detection
    that [_call_imp] returns has a box with x1<x2 and y1<y2 that reaches
    into the frame (x1 < w, y1 < h, x2 > 0, y2 > 0; it is not clipped to
    the frame), and a confidence that is a number [>= minconf]. *)
Theorem OcvCnn_call_imp_detections (self self' : OcvCnn) (frame : Frame) (mc : Q)
    (l : list Detection) :
  minconf (ocv_attrs self) = Some mc ->
  (0 < shape0 frame)%Z -> (0 < shape1 frame)%Z ->
  OcvCnn_call_imp self frame = Ok (l, self') ->
  Forall (fun d =>
            well_formed (bbox d) /\
            x1 (bbox d) < inject_Z (shape1 frame) /\ y1 (bbox d) < inject_Z (shape0 frame) /\
            0 < x2 (bbox d) /\ 0 < y2 (bbox d) /\
            exists c, detect_conf d = Conf c /\ mc <= c) l.
Proof.
  intros Hmc H0 H1. unfold OcvCnn_call_imp. cbn zeta. rewrite Hmc.
  destruct (negb _); [discriminate|].
  destruct (decode_loop _ _ _ _ _) as [l'|e] eqn:E; [|discriminate].
  cbn [bind]. intros [= <- _].
  assert (Qw : 0 < inject_Z (shape1 frame)) by (unfold Qlt; simpl; lia).
  assert (Qh : 0 < inject_Z (shape0 frame)) by (unfold Qlt; simpl; lia).
  revert E. apply decode_loop_Forall; [|constructor].
  intros d _ Hc Ho Hd. unfold out_of_range in Ho. unfold degenerate in Hd.
  repeat (apply orb_false_iff in Ho; destruct Ho as [Ho ?]).
  apply orb_false_iff in Hd. destruct Hd as [Hd1 Hd2].
  repeat match goal with
         | H : Qle_bool ?a ?b = false |- _ =>
             assert (b < a)
               by (apply Qnot_le_lt; intro L; apply Qle_bool_iff in L; congruence);
             clear H
         end.
  unfold scaled, well_formed, Rect_mult. cbn [bbox detect_conf x1 y1 x2 y2].
  repeat split; try nra.
  exists (confidence d). split; [reflexivity|assumption].
Qed.

Lemma OcvCnn_call_imp_detections_witness :
  let frame := mkFrame 100 200 3 (fun _ _ _ => 0%Z) in
  let ocv := OcvCnn__init__
               (fun _ => [mkRaw (9 # 10) (1 # 4) (1 # 4) (3 # 4) (3 # 4);
                          mkRaw (8 # 10) (-1 # 4) (1 # 4) (2 # 4) (5 # 4)])
               (65 # 100) 30 0 (15 # 100) in
  Forall (fun d =>
            well_formed (bbox d) /\
            x1 (bbox d) < 200 /\ y1 (bbox d) < 100 /\
            0 < x2 (bbox d) /\ 0 < y2 (bbox d) /\
            exists c, detect_conf d = Conf c /\ (65 # 100) <= c)
         [mkDetection (mkRect (200 # 4) (100 # 4) (600 # 4) (300 # 4)) (Conf (9 # 10));
          mkDetection (mkRect (-200 # 4) (100 # 4) (400 # 4) (500 # 4)) (Conf (8 # 10))].
Proof.
  intros frame ocv.
  refine (OcvCnn_call_imp_detections ocv ocv frame (65 # 100) _ eq_refl _ _ eq_refl);
    reflexivity.
Defined.

(** X9.  After padding, size filtering and the shift back, the boxes that the
    OpenCV detector's public call returns on a frame of positive size
    still have x1<x2 and y1<y2 (for a padding percentage [>= 0]). *)
Theorem OcvCnn_detect_positive_boxes (self self' : OcvCnn) (frame : Frame) (p : Q)
    (lfaces : list Detection) :
  padd_prct (ocv_attrs self) = Some p -> 0 <= p ->
  (0 < shape0 frame)%Z -> (0 < shape1 frame)%Z ->
  __call__ self frame = Ok (lfaces, self') ->
  Forall (fun d => well_formed (bbox d)) lfaces.
Proof.
  apply OcvCnn_call_well_formed.
Qed.

Lemma OcvCnn_detect_positive_boxes_witness :
  let frame := mkFrame 100 200 3 (fun _ _ _ => 0%Z) in
  let ocv := OcvCnn__init__
               (fun _ => [mkRaw (9 # 10) (1 # 4) (1 # 4) (3 # 4) (3 # 4)])
               (65 # 100) 30 0 (15 # 100) in
  Forall (fun d => well_formed (bbox d))
         [mkDetection (mkRect (140 # 4) (70 # 4) (660 # 4) (330 # 4)) (Conf (9 # 10))].
Proof.
  intros frame ocv.
  assert (Hcall : __call__ ocv frame =
                  Ok ([mkDetection (mkRect (140 # 4) (70 # 4) (660 # 4) (330 # 4))
                                   (Conf (9 # 10))], ocv))
    by (vm_compute; reflexivity).
  refine (OcvCnn_detect_positive_boxes ocv ocv frame (15 # 100) _ eq_refl _ _ _ Hcall);
    [discriminate|reflexivity|reflexivity].
Defined.

(** ** [FaceDetector.__call__]: what comes out of the wrapper *)

Section CallOnLawful.

Context {St D : Type} {Det : Detector St D} {HB : HasBbox D} {LB : LawfulBbox D}.

Variables (self : St) (frame : Frame) (mc : option Q) (mpx mprct p : Q).

Hypothesis Hattrs : attrs self = mkAttrs mc (Some mpx) (Some mprct) (Some p).

Lemma call_pad_raises (e : exn) :
  truthy p = true -> _blackpadd frame p = Raise e -> __call__ self frame = Raise e.
Proof.
  intros Ht Hpad. unfold __call__. rewrite Hattrs. cbn [padd_prct getattr bind].
  now rewrite Ht, Hpad.
Qed.

Lemma call_raises (tmpframe : Frame) (yo xo : Z) (e : exn) :
  (if truthy p then _blackpadd frame p else Ok (frame, 0%Z, 0%Z)) = Ok (tmpframe, yo, xo) ->
  _call_imp self tmpframe = Raise e -> __call__ self frame = Raise e.
Proof.
  intros Hpad Hraw. unfold __call__. rewrite Hattrs. cbn [padd_prct getattr bind].
  rewrite Hpad. cbn [bind]. now rewrite Hraw.
Qed.

Lemma call_unfold (tmpframe : Frame) (yo xo : Z) (raw : list D) (self' : St) :
  (if truthy p then _blackpadd frame p else Ok (frame, 0%Z, 0%Z)) = Ok (tmpframe, yo, xo) ->
  _call_imp self tmpframe = Ok (raw, self') ->
  attrs self' = attrs self ->
  __call__ self frame =
  Ok (map (fun e => if truthy p
                    then with_bbox e (Rect_transpose (bbox_of e) (inject_Z (- xo))
                                                     (inject_Z (- yo)))
                    else e)
          (let t := size_threshold mpx mprct frame in
           if Qltb 0 t then filter (fun e => longer_side_ge t (bbox_of e)) raw else raw),
      self').
Proof.
  intros Hpad Hraw Ha'. unfold __call__. rewrite Hattrs. cbn [padd_prct getattr bind].
  rewrite Hpad. cbn [bind]. rewrite Hraw. cbn [bind]. rewrite Ha', Hattrs.
  cbn [min_size_px min_size_prct padd_prct getattr bind].
  rewrite size_filter_lawful. cbn [bind].
  destruct (truthy p).
  - rewrite unpad_lawful. reflexivity.
  - cbn [bind]. now rewrite map_id.
Qed.

(** A call that returns has padded the frame and run [_call_imp] on
    it; the state it returns is the one [_call_imp] returned. *)
Lemma call_returns (out : list D) (self' : St) :
  __call__ self frame = Ok (out, self') ->
  exists tmpframe yo xo raw,
    (if truthy p then _blackpadd frame p else Ok (frame, 0%Z, 0%Z)) = Ok (tmpframe, yo, xo) /\
    _call_imp self tmpframe = Ok (raw, self').
Proof.
  unfold __call__. rewrite Hattrs. cbn [padd_prct getattr bind].
  destruct (if truthy p then _blackpadd frame p else Ok (frame, 0%Z, 0%Z))
    as [[[tmpframe yo] xo]|e]; [|discriminate].
  cbn [bind]. destruct (_call_imp self tmpframe) as [[raw s']|e] eqn:Ecall; [|discriminate].
  cbn [bind].
  destruct (getattr "min_size_px" _); [|discriminate]. cbn [bind].
  destruct (getattr "min_size_prct" _); [|discriminate]. cbn [bind].
  destruct (size_filter _ _ _ _); [|discriminate]. cbn [bind].
  destruct (getattr "padd_prct" _); [|discriminate]. cbn [bind].
  destruct (if truthy _ then _ else _); [|discriminate]. cbn [bind].
  intros [= _ <-]. exists tmpframe, yo, xo, raw. split; [reflexivity|exact Ecall].
Qed.

End CallOnLawful.



(** X11.  When the size threshold [t = max(min_size_px, min_size_prct *
    min(h, w))], the product being the float product, is positive, every
    element that the public call returns has a box whose width or whose
    height is [>= t], with or without padding (the threshold is taken on
    the unpadded frame) and whatever the detector returns ([Detection]s
    or [DetectionEyes]). *)
Theorem call_min_face_size (St D : Type) (Det : Detector St D) (HB : HasBbox D)
    (LB : LawfulBbox D) (self self' : St) (frame : Frame) (mc : option Q)
    (mpx mprct p : Q) (out : list D) :
  attrs self = mkAttrs mc (Some mpx) (Some mprct) (Some p) ->
  attrs self' = attrs self ->
  __call__ self frame = Ok (out, self') ->
  let t := Py.max mpx (Py.fmul mprct (inject_Z (Z.min (shape0 frame) (shape1 frame)))) in
  0 < t ->
  Forall (fun d => t <= x2 (bbox_of d) - x1 (bbox_of d) \/
                   t <= y2 (bbox_of d) - y1 (bbox_of d)) out.
Proof.
  intros Ha Ha' Hcall t Ht.
  destruct (call_returns self frame mc mpx mprct p Ha out self' Hcall)
    as (tmpframe & yo & xo & raw & Hpad & Hraw).
  rewrite (call_unfold self frame mc mpx mprct p Ha tmpframe yo xo raw self' Hpad Hraw Ha')
    in Hcall.
  injection Hcall as <-. cbn zeta. fold (size_threshold mpx mprct frame) in t.
  apply Qltb_lt in Ht. unfold t in Ht. rewrite Ht.
  apply Forall_forall. intros d Hd. apply in_map_iff in Hd.
  destruct Hd as (d0 & <- & Hd0). apply filter_In in Hd0. destruct Hd0 as [_ Hd0].
  unfold longer_side_ge in Hd0. apply orb_true_iff in Hd0. rewrite !Qle_bool_iff in Hd0.
  fold t in Hd0.
  destruct (truthy p); [|assumption].
  rewrite bbox_with. unfold Rect_transpose. cbn [x1 y1 x2 y2].
  destruct Hd0 as [H|H]; [left|right]; lra.
Qed.

(** A detector of [DetectionEyes] on a 480 x 640 frame with
    [min_size_prct = 0.1]: the threshold is 48.0 and the face of side 48
    is returned, the one of side 47 is not. *)
Lemma call_min_face_size_witness :
  let frame := mkFrame 480 640 3 (fun _ _ _ => 0%Z) in
  let face := fun a b c d => mkDetectionEyes (mkRect a b c d) (Conf (99 # 100))
                                             (mkRect a b c d) in
  let eyed := Build_Detector unit DetectionEyes
                (fun _ => FaceDetector__init__ (98 # 100) 0 (1 # 10) 0)
                (fun s _ => Ok ([face 10 10 58 50; face 100 100 147 147], s)) in
  @__call__ unit DetectionEyes eyed _ tt frame = Ok ([face 10 10 58 50], tt) /\
  Forall (fun d => 48 <= x2 (e_bbox d) - x1 (e_bbox d) \/
                   48 <= y2 (e_bbox d) - y1 (e_bbox d)) [face 10 10 58 50].
Proof.
  intros frame face eyed.
  assert (Hcall : @__call__ unit DetectionEyes eyed _ tt frame = Ok ([face 10 10 58 50], tt))
    by (vm_compute; reflexivity).
  assert (Ht : Py.max 0 (Py.fmul (1 # 10) (inject_Z (Z.min (shape0 frame) (shape1 frame)))) == 48)
    by (vm_compute; reflexivity).
  split; [exact Hcall|].
  pose proof (call_min_face_size unit DetectionEyes eyed _ _ tt tt frame (Some (98 # 100))
                0 (1 # 10) 0 [face 10 10 58 50] eq_refl eq_refl Hcall) as H.
  cbv zeta in H.
  assert (Hpos : 0 < Py.max 0 (Py.fmul (1 # 10)
                                  (inject_Z (Z.min (shape0 frame) (shape1 frame)))))
    by (rewrite Ht; reflexivity).
  apply H in Hpos. revert Hpos. apply Forall_impl. intros d Hd.
  destruct Hd as [Hd|Hd]; [left|right];
    (eapply Qle_trans; [|exact Hd]); rewrite Ht; apply Qle_refl.
Defined.

(** ** [intersection_over_union] and [tuple2rect] *)

(** On arguments that dlib can hold, [intersection_over_union] divides
    the number of common pixels by the number of pixels of the union. *)
Lemma intersection_over_union_counts (A B : face_utils.BoxArg) :
  representable A -> representable B ->
  face_utils.intersection_over_union A B =
  face_utils.truediv
    (pixel_count (dlib.intersect (pixels_of A) (pixels_of B)))
    (pixel_count (pixels_of A) + pixel_count (pixels_of B)
     - pixel_count (dlib.intersect (pixels_of A) (pixels_of B))).
Proof.
  intros RA RB.
  destruct (pixel_count_intersect_le (pixels_of A) (pixels_of B)) as [L1 L2].
  assert (CA : (pixel_count (pixels_of A) < 2 ^ 64)%Z) by apply RA.
  assert (CB : (pixel_count (pixels_of B) < 2 ^ 64)%Z) by apply RB.
  unfold face_utils.intersection_over_union.
  rewrite (representable_as_rectangle A RA), (representable_as_rectangle B RB).
  cbn [bind].
  rewrite (area_pixel_count (pixels_of A)), (area_pixel_count (pixels_of B)) by assumption.
  rewrite (area_pixel_count (dlib.intersect (pixels_of A) (pixels_of B))) by lia.
  reflexivity.
Qed.

(** X12.  On two boxes that dlib can hold (rounded coordinates within a C
    [long], fewer than 2^64 pixels) [intersection_over_union] raises
    [ZeroDivisionError] exactly when both pixel rectangles are empty; in
    every other case it returns a number between 0 and 1. *)
Theorem intersection_over_union_range (x y : face_utils.BoxArg) :
  representable x -> representable y ->
  let nx := pixel_count (pixels_of x) in
  let ny := pixel_count (pixels_of y) in
  (nx = 0%Z /\ ny = 0%Z ->
   face_utils.intersection_over_union x y = Raise ZeroDivisionError) /\
  (~ (nx = 0%Z /\ ny = 0%Z) ->
   exists q, face_utils.intersection_over_union x y = Ok q /\ 0 <= q <= 1).
Proof.
  intros Rx Ry nx ny. rewrite (intersection_over_union_counts x y Rx Ry).
  destruct (pixel_count_intersect_le (pixels_of x) (pixels_of y)) as [L1 L2].
  pose proof (pixel_count_nonneg (pixels_of x)) as Nx.
  pose proof (pixel_count_nonneg (pixels_of y)) as Ny.
  pose proof (pixel_count_nonneg (dlib.intersect (pixels_of x) (pixels_of y))) as Ni.
  fold nx in L1, Nx |- *. fold ny in L2, Ny |- *.
  set (i := pixel_count (dlib.intersect (pixels_of x) (pixels_of y))) in *.
  unfold face_utils.truediv. split.
  - intros [E1 E2].
    replace (nx + ny - i =? 0)%Z with true by (symmetry; apply Z.eqb_eq; lia).
    reflexivity.
  - intro Hn.
    replace (nx + ny - i =? 0)%Z with false by (symmetry; apply Z.eqb_neq; lia).
    eexists. split; [reflexivity|].
    set (u := (nx + ny - i)%Z).
    assert (Hu : (0 < u)%Z) by (unfold u; lia).
    assert (Hi : (i <= u)%Z) by (unfold u; lia).
    assert (Qu : 0 < inject_Z u) by (unfold Qlt, inject_Z; cbn [Qnum Qden]; lia).
    split.
    + apply Qle_shift_div_l; [assumption|]. rewrite Qmult_0_l.
      unfold Qle, inject_Z; cbn [Qnum Qden]; lia.
    + apply Qle_shift_div_r; [assumption|]. rewrite Qmult_1_l.
      unfold Qle, inject_Z; cbn [Qnum Qden]; lia.
Qed.

(** Two empty rectangles; and two boxes given as sequences that overlap
    in 25 of their 175 pixels. *)
Lemma intersection_over_union_range_witness :
  face_utils.intersection_over_union
    (face_utils.ARect (dlib.mkRectangle 5 5 4 4))
    (face_utils.ARect (dlib.mkRectangle 3 9 8 0)) = Raise ZeroDivisionError /\
  exists q, face_utils.intersection_over_union
              (face_utils.AIter (0, 0, 9, 9)) (face_utils.AIter (5, 5, 14, 14)) = Ok q /\
            0 <= q <= 1.
Proof.
  split.
  - refine (proj1 (intersection_over_union_range
                     (face_utils.ARect (dlib.mkRectangle 5 5 4 4))
                     (face_utils.ARect (dlib.mkRectangle 3 9 8 0)) _ _)
                  (conj eq_refl eq_refl));
      repeat split; vm_compute; congruence.
  - refine (proj2 (intersection_over_union_range
                     (face_utils.AIter (0, 0, 9, 9)) (face_utils.AIter (5, 5, 14, 14)) _ _) _);
      [repeat split; vm_compute; congruence|repeat split; vm_compute; congruence|].
    intros [E _]. vm_compute in E. discriminate E.
Defined.

Lemma product_eq_dims (w h W H : Z) :
  (0 <= w <= W)%Z -> (0 <= h <= H)%Z -> (1 <= W)%Z -> (1 <= H)%Z ->
  (w * h = W * H)%Z -> w = W /\ h = H.
Proof.
  intros Hw Hh HW HH E.
  assert (L1 : (w * h <= w * H)%Z) by (apply Z.mul_le_mono_nonneg_l; lia).
  assert (L2 : (w * H <= W * H)%Z) by (apply Z.mul_le_mono_nonneg_r; lia).
  assert (E1 : (w * H = W * H)%Z) by lia.
  apply Z.mul_reg_r in E1; [|lia]. subst w. split; [reflexivity|].
  apply Z.mul_reg_l in E; lia.
Qed.

(** X13.  On two non-empty rectangles of fewer than 2^53 pixels each
    [intersection_over_union] is 1 for identical rectangles and for
    those only. *)
Theorem intersection_over_union_one (x y : dlib.rectangle) (q : Q) :
  dlib.is_empty x = false -> dlib.is_empty y = false ->
  (pixel_count x < 2 ^ 53)%Z -> (pixel_count y < 2 ^ 53)%Z ->
  face_utils.intersection_over_union (face_utils.ARect x) (face_utils.ARect y) = Ok q ->
  (q == 1 <-> x = y).
Proof.
  intros Hx Hy Cx Cy.
  assert (P : (2 ^ 53 < 2 ^ 64)%Z) by reflexivity.
  destruct (pixel_count_intersect_le x y) as [L1 L2].
  pose proof (pixel_count_nonneg (dlib.intersect x y)) as Ni.
  unfold face_utils.intersection_over_union. cbn [face_utils.as_rectangle bind].
  rewrite (area_pixel_count x), (area_pixel_count y), (area_pixel_count (dlib.intersect x y))
    by lia.
  unfold dlib.is_empty in Hx, Hy. apply orb_false_iff in Hx, Hy.
  destruct Hx as [A B], Hy as [A' B']. apply Z.ltb_ge in A, B, A', B'.
  assert (Px : (0 < pixel_count x)%Z) by (unfold pixel_count; nia).
  set (i := pixel_count (dlib.intersect x y)) in *.
  set (u := (pixel_count x + pixel_count y - i)%Z).
  assert (Hu : (0 < u)%Z) by (unfold u; lia).
  unfold face_utils.truediv.
  replace (u =? 0)%Z with false by (symmetry; apply Z.eqb_neq; lia).
  intros [= <-].
  assert (Nu : ~ inject_Z u == 0) by (unfold Qeq, inject_Z; cbn [Qnum Qden]; lia).
  split.
  - intro H1.
    assert (E : i = u).
    { assert (Hq : inject_Z i == inject_Z u).
      { rewrite <- (Qmult_div_r (inject_Z i) (inject_Z u) Nu). rewrite H1. ring. }
      unfold Qeq, inject_Z in Hq; cbn [Qnum Qden] in Hq. lia. }
    assert (Ex : i = pixel_count x) by (unfold u in E; lia).
    assert (Ey : i = pixel_count y) by (unfold u in E; lia).
    clear - Ex Ey A B A' B'. unfold i, pixel_count, dlib.intersect in Ex, Ey.
    destruct x as [l t r b], y as [l' t' r' b'].
    cbn [dlib.left dlib.top dlib.right dlib.bottom] in *.
    set (wi := Z.max 0 (Z.min r r' - Z.max l l' + 1)) in *.
    set (hi := Z.max 0 (Z.min b b' - Z.max t t' + 1)) in *.
    assert (Wx : (wi <= r - l + 1)%Z) by (unfold wi; lia).
    assert (Hx : (hi <= b - t + 1)%Z) by (unfold hi; lia).
    assert (Wy : (wi <= r' - l' + 1)%Z) by (unfold wi; lia).
    assert (Hy : (hi <= b' - t' + 1)%Z) by (unfold hi; lia).
    assert (W0 : (0 <= wi)%Z) by (unfold wi; lia).
    assert (H0 : (0 <= hi)%Z) by (unfold hi; lia).
    rewrite !Z.max_r in Ex, Ey by lia.
    destruct (product_eq_dims wi hi (r - l + 1) (b - t + 1)) as [D1 D2]; try lia.
    destruct (product_eq_dims wi hi (r' - l' + 1) (b' - t' + 1)) as [D3 D4]; try lia.
    unfold wi, hi in *. f_equal; lia.
  - intros <-. unfold u, i. rewrite dlib_intersect_idem.
    replace (pixel_count x + pixel_count x - pixel_count x)%Z with (pixel_count x) by lia.
    apply Qmult_inv_r. unfold Qeq, inject_Z; cbn [Qnum Qden]. lia.
Qed.

Lemma intersection_over_union_one_witness :
  (100 # 100) == 1 <-> dlib.mkRectangle 0 0 9 9 = dlib.mkRectangle 0 0 9 9.
Proof.
  refine (intersection_over_union_one (dlib.mkRectangle 0 0 9 9) (dlib.mkRectangle 0 0 9 9)
            (100 # 100) eq_refl eq_refl _ _ _).
  - reflexivity.
  - reflexivity.
  - vm_compute. reflexivity.
Defined.

(** X14.  [tuple2rect] is exact on integer coordinates: it builds the
    rectangle that [dlib.rectangle] builds from the integers themselves,
    so that an existing rectangle (its coordinates fit a C [long]) written
    out as a tuple and converted back is the same rectangle. *)
Theorem tuple2rect_of_integers (l t r b : Z) :
  face_utils.tuple2rect (inject_Z l, inject_Z t, inject_Z r, inject_Z b) =
  dlib.new_rectangle l t r b /\
  ((- 2 ^ 63 <= l < 2 ^ 63)%Z -> (- 2 ^ 63 <= t < 2 ^ 63)%Z ->
   (- 2 ^ 63 <= r < 2 ^ 63)%Z -> (- 2 ^ 63 <= b < 2 ^ 63)%Z ->
   face_utils.tuple2rect (inject_Z l, inject_Z t, inject_Z r, inject_Z b) =
   Ok (dlib.mkRectangle l t r b)).
Proof.
  assert (E : face_utils.tuple2rect (inject_Z l, inject_Z t, inject_Z r, inject_Z b) =
              dlib.new_rectangle l t r b)
    by (unfold face_utils.tuple2rect; now rewrite !np_round_inject_Z).
  split; [exact E|]. intros Hl Ht Hr Hb. rewrite E.
  unfold dlib.new_rectangle, dlib.fits_long.
  repeat match goal with
         | |- context [(?u <=? ?v)%Z] =>
             replace (u <=? v)%Z with true by (symmetry; apply Z.leb_le; lia)
         | |- context [(?u <? ?v)%Z] =>
             replace (u <? v)%Z with true by (symmetry; apply Z.ltb_lt; lia)
         end.
  reflexivity.
Qed.

Lemma tuple2rect_of_integers_witness :
  face_utils.tuple2rect (3, 4, 50, 60) = Ok (dlib.mkRectangle 3 4 50 60).
Proof.
  refine (proj2 (tuple2rect_of_integers 3 4 50 60) _ _ _ _); split; vm_compute; congruence.
Defined.

(** X15.  [tuple2rect] returns a rectangle whenever the four numbers lie
    within the range of a C [long], and raises [TypeError] only when a
    rounded number falls outside it.  The rectangle it returns has
    every coordinate within half a pixel of the number given, and for a
    box with x1<x2 and y1<y2 it is not empty. *)
Theorem tuple2rect_rounds (a b c d : Q) :
  ((forall x, In x [a; b; c; d] -> inject_Z (- 2 ^ 63) <= x <= inject_Z (2 ^ 63 - 1)) ->
   exists r, face_utils.tuple2rect (a, b, c, d) = Ok r) /\
  (forall e, face_utils.tuple2rect (a, b, c, d) = Raise e ->
     (exists msg, e = TypeError msg) /\
     exists x, In x [a; b; c; d] /\ ~ (- 2 ^ 63 <= np_round x < 2 ^ 63)%Z) /\
  (forall r, face_utils.tuple2rect (a, b, c, d) = Ok r ->
     (Qabs (inject_Z (dlib.left r) - a) <= 1 # 2 /\
      Qabs (inject_Z (dlib.top r) - b) <= 1 # 2 /\
      Qabs (inject_Z (dlib.right r) - c) <= 1 # 2 /\
      Qabs (inject_Z (dlib.bottom r) - d) <= 1 # 2) /\
     (a < c -> b < d -> dlib.is_empty r = false)).
Proof.
  assert (F : forall z, dlib.fits_long z = true <-> (- 2 ^ 63 <= z < 2 ^ 63)%Z).
  { intro z. unfold dlib.fits_long. rewrite andb_true_iff, Z.leb_le, Z.ltb_lt. reflexivity. }
  unfold face_utils.tuple2rect, dlib.new_rectangle.
  split; [|split].
  - intro Hin.
    assert (G : forall x, In x [a; b; c; d] -> dlib.fits_long (np_round x) = true).
    { intros x Hx. apply F. destruct (Hin x Hx) as [Lo Hi].
      apply np_round_monotone in Lo, Hi. rewrite np_round_inject_Z in Lo, Hi. lia. }
    rewrite (G a), (G b), (G c), (G d) by (cbn [In]; auto). eexists. reflexivity.
  - intros e.
    destruct (dlib.fits_long (np_round a)) eqn:Ea;
      [|intros [= <-]; split; [eexists; reflexivity|]; exists a; split; [cbn [In]; auto|];
        rewrite <- F; congruence].
    destruct (dlib.fits_long (np_round b)) eqn:Eb;
      [|intros [= <-]; split; [eexists; reflexivity|]; exists b; split; [cbn [In]; auto|];
        rewrite <- F; congruence].
    destruct (dlib.fits_long (np_round c)) eqn:Ec;
      [|intros [= <-]; split; [eexists; reflexivity|]; exists c; split; [cbn [In]; auto|];
        rewrite <- F; congruence].
    destruct (dlib.fits_long (np_round d)) eqn:Ed;
      [|intros [= <-]; split; [eexists; reflexivity|]; exists d; split; [cbn [In]; auto|];
        rewrite <- F; congruence].
    discriminate.
  - intros r.
    destruct (_ && _ && _ && _)%bool; [|discriminate]. intros [= <-].
    cbn [dlib.left dlib.top dlib.right dlib.bottom]. split.
    + repeat split; apply np_round_close.
    + intros Hac Hbd. unfold dlib.is_empty.
      cbn [dlib.left dlib.top dlib.right dlib.bottom].
      apply Qlt_le_weak, np_round_monotone in Hac.
      apply Qlt_le_weak, np_round_monotone in Hbd.
      apply orb_false_iff. split; apply Z.ltb_ge; assumption.
Qed.

Lemma tuple2rect_rounds_witness :
  let r := dlib.mkRectangle 0 0 0 2 in
  face_utils.tuple2rect (1 # 4, 1 # 3, 1 # 2, 5 # 2) = Ok r /\
  dlib.is_empty r = false.
Proof.
  intro r.
  assert (E : face_utils.tuple2rect (1 # 4, 1 # 3, 1 # 2, 5 # 2) = Ok r)
    by (vm_compute; reflexivity).
  split; [exact E|].
  exact (proj2 (proj2 (proj2 (tuple2rect_rounds (1 # 4) (1 # 3) (1 # 2) (5 # 2))) r E)
               eq_refl eq_refl).
Defined.

(** ** Eye centers *)

Lemma _extract_eye_out_of_range (shape : dlib.full_object_detection) (n first : nat) :
  (dlib.num_parts shape < first + Datatypes.S n)%nat ->
  face_utils._extract_eye shape (seq first (Datatypes.S n)) = Raise IndexError.
Proof.
  unfold face_utils._extract_eye, dlib.num_parts, dlib.part.
  revert first. induction n as [|n IH]; intros first Hlen.
  - cbn [seq mapM].
    destruct (nth_error (dlib.parts shape) first) as [q|] eqn:E; [|reflexivity].
    assert (first < List.length (dlib.parts shape))%nat
      by (apply nth_error_Some; congruence).
    lia.
  - change (seq first (Datatypes.S (Datatypes.S n)))
      with (first :: seq (Datatypes.S first) (Datatypes.S n)).
    cbn [mapM].
    destruct (nth_error (dlib.parts shape) first) as [q|] eqn:E; [|reflexivity].
    rewrite IH; [reflexivity|lia].
Qed.

(** X16.  The eye centers need the landmarks up to number 41 (left eye) and 47
    (right eye): [extract_left_eye_center] raises [IndexError] exactly on
    shapes with fewer than 42 landmarks, [extract_right_eye_center]
    exactly on shapes with fewer than 48, and they raise nothing else. *)
Theorem eye_center_IndexError (shape : dlib.full_object_detection) :
  (face_utils.extract_left_eye_center shape = Raise IndexError <->
   (dlib.num_parts shape < 42)%nat) /\
  (face_utils.extract_right_eye_center shape = Raise IndexError <->
   (dlib.num_parts shape < 48)%nat) /\
  (forall e, face_utils.extract_left_eye_center shape = Raise e \/
             face_utils.extract_right_eye_center shape = Raise e -> e = IndexError).
Proof.
  assert (C : forall first,
             (face_utils._extract_eye_center shape (seq first 6) = Raise IndexError <->
              (dlib.num_parts shape < first + 6)%nat) /\
             (forall e, face_utils._extract_eye_center shape (seq first 6) = Raise e ->
                        e = IndexError)).
  { intro first. unfold face_utils._extract_eye_center.
    destruct (Nat.lt_ge_cases (dlib.num_parts shape) (first + 6)) as [L|G].
    - rewrite (_extract_eye_out_of_range shape 5 first) by assumption. cbn [bind].
      split; [tauto|]. now intros e [= <-].
    - rewrite _extract_eye_landmarks by assumption. cbn [bind].
      split; [|discriminate]. split; [discriminate|lia]. }
  split; [apply (C 36%nat)|]. split; [apply (C 42%nat)|].
  intros e [H|H]; [apply (proj2 (C 36%nat))|apply (proj2 (C 42%nat))]; exact H.
Qed.

Lemma sum_bounds (lo hi : Z) (l : list Z) :
  Forall (fun v => lo <= v <= hi)%Z l ->
  (Z.of_nat (List.length l) * lo <= face_utils.sum l <= Z.of_nat (List.length l) * hi)%Z.
Proof.
  rewrite sum_fold_right.
  induction 1 as [|v l Hv Hl IH]; [simpl; lia|].
  cbn [fold_right List.length]. lia.
Qed.

Lemma mapM_part_In (shape : dlib.full_object_detection) (idx : list nat) :
  forall pts, face_utils._extract_eye shape idx = Ok pts ->
              List.length pts = List.length idx /\
              forall q, In q pts -> In q (dlib.parts shape).
Proof.
  unfold face_utils._extract_eye, dlib.part.
  induction idx as [|i idx IH]; intros pts; cbn [mapM].
  - intros [= <-]. split; [reflexivity|]. intros q [].
  - destruct (nth_error (dlib.parts shape) i) as [q0|] eqn:E; [|discriminate].
    destruct (mapM _ idx) as [pts'|e]; [|discriminate].
    intros [= <-]. destruct (IH pts' eq_refl) as [L I]. split; [simpl; lia|].
    intros q [<-|Hq]; [eapply nth_error_In; eassumption|now apply I].
Qed.

(** X17.  For six eye landmarks, the eye center that [_extract_eye_center]
    returns lies within the bounding box of the shape's landmarks:
    between the least and the greatest x, and between the least and the
    greatest y. *)
Theorem eye_center_within_landmarks (shape : dlib.full_object_detection)
    (eye_indices : list nat) (cx cy xlo xhi ylo yhi : Z) :
  List.length eye_indices = 6%nat ->
  (forall q, In q (dlib.parts shape) ->
             (xlo <= dlib.x q <= xhi)%Z /\ (ylo <= dlib.y q <= yhi)%Z) ->
  face_utils._extract_eye_center shape eye_indices = Ok (cx, cy) ->
  (xlo <= cx <= xhi)%Z /\ (ylo <= cy <= yhi)%Z.
Proof.
  intros H6 Hb. unfold face_utils._extract_eye_center.
  destruct (face_utils._extract_eye shape eye_indices) as [pts|e] eqn:E; [|discriminate].
  cbn [bind]. intros [= <- <-].
  destruct (mapM_part_In shape eye_indices pts E) as [L I].
  assert (Bx : Forall (fun v => xlo <= v <= xhi)%Z (map dlib.x pts)).
  { apply Forall_forall. intros v Hv. apply in_map_iff in Hv.
    destruct Hv as (q & <- & Hq). now apply Hb, I. }
  assert (By : Forall (fun v => ylo <= v <= yhi)%Z (map dlib.y pts)).
  { apply Forall_forall. intros v Hv. apply in_map_iff in Hv.
    destruct Hv as (q & <- & Hq). now apply Hb, I. }
  apply sum_bounds in Bx, By. rewrite length_map, L, H6 in Bx, By.
  change (Z.of_nat 6) with 6%Z in Bx, By.
  split; split;
    try (apply Z.div_le_lower_bound; lia);
    apply Z.div_le_upper_bound; lia.
Qed.

Lemma eye_center_within_landmarks_witness :
  let shape := dlib.mkShape
                 (map (fun i => dlib.mkPoint (3 * Z.of_nat i) (100 - Z.of_nat i)) (seq 0 68)) in
  (0 <= 115 <= 201)%Z /\ (33 <= 61 <= 100)%Z.
Proof.
  intro shape.
  refine (eye_center_within_landmarks shape face_utils.LEFT_EYE_INDICES
            115 61 0 201 33 100 eq_refl _ eq_refl).
  intros q Hq. apply in_map_iff in Hq. destruct Hq as (i & <- & Hi).
  apply in_seq in Hi. cbn [dlib.x dlib.y]. lia.
Defined.

Lemma sum_map_add (d : Z) (l : list Z) :
  face_utils.sum (map (fun v => v + d)%Z l) =
  (face_utils.sum l + Z.of_nat (List.length l) * d)%Z.
Proof.
  rewrite !sum_fold_right. induction l as [|v l IH]; [reflexivity|].
  cbn [map fold_right List.length]. rewrite IH. lia.
Qed.

Lemma _extract_eye_shift (dx dy : Z) (shape : dlib.full_object_detection) (idx : list nat) :
  face_utils._extract_eye (shift_shape dx dy shape) idx =
  match face_utils._extract_eye shape idx with
  | Ok pts => Ok (map (fun q => dlib.mkPoint (dlib.x q + dx) (dlib.y q + dy)) pts)
  | Raise e => Raise e
  end.
Proof.
  unfold face_utils._extract_eye, dlib.part, shift_shape. cbn [dlib.parts].
  induction idx as [|i idx IH]; [reflexivity|]. cbn [mapM].
  rewrite nth_error_map.
  destruct (nth_error (dlib.parts shape) i) as [q|]; [|reflexivity].
  cbn [option_map]. rewrite IH.
  destruct (mapM (fun i0 => match nth_error (dlib.parts shape) i0 with
                            | Some p => Ok p
                            | None => Raise IndexError
                            end) idx); reflexivity.
Qed.

(** X18.  Moving every landmark by an integer offset [(dx, dy)] moves the eye
    center by exactly [(dx, dy)]: on six landmarks the floor division
    loses nothing more, and errors are the same. *)
Theorem eye_center_translation (dx dy : Z) (shape : dlib.full_object_detection)
    (eye_indices : list nat) :
  List.length eye_indices = 6%nat ->
  face_utils._extract_eye_center (shift_shape dx dy shape) eye_indices =
  match face_utils._extract_eye_center shape eye_indices with
  | Ok (cx, cy) => Ok ((cx + dx)%Z, (cy + dy)%Z)
  | Raise e => Raise e
  end.
Proof.
  intro H6. unfold face_utils._extract_eye_center. rewrite _extract_eye_shift.
  destruct (face_utils._extract_eye shape eye_indices) as [pts|e] eqn:E; [|reflexivity].
  cbn [bind]. destruct (mapM_part_In shape eye_indices pts E) as [L _].
  rewrite !map_map. cbn [dlib.x dlib.y].
  rewrite <- (map_map dlib.x (fun v => (v + dx)%Z)), <- (map_map dlib.y (fun v => (v + dy)%Z)).
  rewrite !sum_map_add, !length_map, L, H6.
  change (Z.of_nat 6) with 6%Z.
  rewrite (Z.mul_comm 6 dx), (Z.mul_comm 6 dy), !Z.div_add by lia.
  reflexivity.
Qed.

Lemma eye_center_translation_witness :
  let shape := dlib.mkShape
                 (map (fun i => dlib.mkPoint (3 * Z.of_nat i) (100 - Z.of_nat i)) (seq 0 68)) in
  face_utils.extract_left_eye_center (shift_shape 7 (-2) shape) = Ok (122%Z, 59%Z).
Proof.
  intro shape.
  exact (eye_center_translation 7 (-2) shape face_utils.LEFT_EYE_INDICES eq_refl).
Defined.

(** ** [LibFaceDetection]: the cache of prior boxes *)

Section LibFaceCache.

Context {Tensors PriorBoxT : Type}.
Variable run : Frame -> Tensors.
Variable PriorBox : Z * Z -> Z * Z -> PriorBoxT.
Variable decode : PriorBoxT -> Tensors -> Q -> list DetRow.
Variable NMSBoxes : list (Q * Q * Q * Q) -> list Q -> Q -> Q -> Q -> Z -> list nat.

Lemma dict_get_add (key k : Z * Z) (v : PriorBoxT) (d : list ((Z * Z) * PriorBoxT)) :
  dict_get k (dict_add key v d) =
  match dict_get k d with
  | Some pb => Some pb
  | None => if ((fst key =? fst k) && (snd key =? snd k))%Z then Some v else None
  end.
Proof.
  unfold dict_add. induction d as [|[k0 v0] d IH]; cbn [dict_get app]; [reflexivity|].
  destruct ((fst k0 =? fst k) && (snd k0 =? snd k))%Z; [reflexivity|exact IH].
Qed.

Lemma key_eqb_eq (a b : Z * Z) :
  ((fst a =? fst b) && (snd a =? snd b))%Z = true <-> a = b.
Proof.
  destruct a as [a1 a2], b as [b1 b2]. cbn [fst snd].
  rewrite andb_true_iff, !Z.eqb_eq. split; [intros [-> ->]; reflexivity|].
  now intros [= -> ->].
Qed.

(** The state in which [_call_imp] leaves the instance. *)
Lemma LibFace_call_imp_state (self self' : LibFace) (frame : Frame)
    (l : list DetectionEyes) :
  LibFace_call_imp run PriorBox decode NMSBoxes self frame = Ok (l, self') ->
  self' = match dict_get (shape1 frame, shape0 frame) (dprior self) with
          | Some _ => self
          | None =>
              mkLibFace (lib_attrs self) (nms_thresh self) (keep_top_k self)
                        (dict_add (shape1 frame, shape0 frame)
                                  (PriorBox (shape1 frame, shape0 frame)
                                            (shape1 frame, shape0 frame))
                                  (dprior self))
          end.
Proof.
  unfold LibFace_call_imp. cbn zeta.
  set (self1 := match dict_get _ (dprior self) with Some _ => self | None => _ end).
  destruct (dict_get _ (dprior self1)) as [pb|]; [|discriminate].
  destruct (minconf (lib_attrs self1)) as [mc|]; [|discriminate]. cbn [getattr bind].
  destruct (0 <? _)%nat; [|now intros [= _ <-]].
  destruct (mapM _ _); [|discriminate]. cbn [bind]. now intros [= _ <-].
Qed.

(** X19.  The cache of prior boxes only grows: after a call that returns, the
    frame's size (w, h) is cached, every size cached before is still
    cached with the same prior boxes, and no other size has been
    added. *)
Theorem LibFace_cache_grows (self self' : LibFace) (frame : Frame)
    (l : list DetectionEyes) :
  LibFace_call_imp run PriorBox decode NMSBoxes self frame = Ok (l, self') ->
  let key := (shape1 frame, shape0 frame) in
  dict_get key (dprior self') <> None /\
  (forall k pb, dict_get k (dprior self) = Some pb -> dict_get k (dprior self') = Some pb) /\
  (forall k, k <> key -> dict_get k (dprior self') = dict_get k (dprior self)) /\
  (List.length (dprior self) <= List.length (dprior self') <=
   Datatypes.S (List.length (dprior self)))%nat.
Proof.
  intros Hc key. apply LibFace_call_imp_state in Hc. fold key in Hc. subst self'.
  destruct (dict_get key (dprior self)) as [pb0|] eqn:E.
  - rewrite E. repeat split; auto; try discriminate; lia.
  - cbn [dprior]. repeat split.
    + rewrite dict_get_add, E.
      now replace ((fst key =? fst key) && (snd key =? snd key))%Z with true
        by (symmetry; now apply key_eqb_eq).
    + intros k pb Hk. now rewrite dict_get_add, Hk.
    + intros k Hk. rewrite dict_get_add. destruct (dict_get k (dprior self)); [reflexivity|].
      destruct ((fst key =? fst k) && (snd key =? snd k))%Z eqn:K; [|reflexivity].
      apply key_eqb_eq in K. congruence.
    + unfold dict_add. rewrite length_app. simpl. lia.
    + unfold dict_add. rewrite length_app. simpl. lia.
Qed.

(** X20.  Caching is transparent: when every cached entry is what [PriorBox]
    builds for its size, a call returns the same detections as on an
    instance whose cache is empty, and the cache stays that way. *)
Theorem LibFace_cache_transparent (self self' : LibFace) (frame : Frame)
    (l : list DetectionEyes) :
  cache_consistent PriorBox (dprior self) ->
  LibFace_call_imp run PriorBox decode NMSBoxes self frame = Ok (l, self') ->
  cache_consistent PriorBox (dprior self') /\
  exists fresh',
    LibFace_call_imp run PriorBox decode NMSBoxes
      (mkLibFace (lib_attrs self) (nms_thresh self) (keep_top_k self) []) frame =
    Ok (l, fresh').
Proof.
  intros Hcons Hc. pose proof (LibFace_call_imp_state _ _ _ _ Hc) as Hs.
  set (key := (shape1 frame, shape0 frame)) in *.
  assert (Kt : ((fst key =? fst key) && (snd key =? snd key))%Z = true)
    by now apply key_eqb_eq.
  split.
  - subst self'. destruct (dict_get key (dprior self)) eqn:E; [assumption|].
    cbn [dprior]. intros k pb. rewrite dict_get_add.
    destruct (dict_get k (dprior self)) eqn:Ek; [intros [= <-]; now apply Hcons|].
    destruct ((fst key =? fst k) && (snd key =? snd k))%Z eqn:K; [|discriminate].
    apply key_eqb_eq in K. subst k. now intros [= <-].
  - revert Hc. unfold LibFace_call_imp. cbn zeta. fold key.
    cbn [dict_get dprior lib_attrs nms_thresh keep_top_k dict_add app].
    rewrite Kt.
    destruct (dict_get key (dprior self)) as [pb0|] eqn:E.
    + rewrite E. rewrite (Hcons key pb0 E).
      destruct (minconf (lib_attrs self)) as [mc|]; [|discriminate]. cbn [getattr bind].
      destruct (0 <? _)%nat; [|intros [= <- _]; eexists; reflexivity].
      destruct (mapM _ _); [|discriminate]. cbn [bind].
      intros [= <- _]. eexists; reflexivity.
    + cbn [dprior lib_attrs nms_thresh keep_top_k].
      rewrite dict_get_add, E, Kt.
      destruct (minconf (lib_attrs self)) as [mc|]; [|discriminate]. cbn [getattr bind].
      destruct (0 <? _)%nat; [|intros [= <- _]; eexists; reflexivity].
      destruct (mapM _ _); [|discriminate]. cbn [bind].
      intros [= <- _]. eexists; reflexivity.
Qed.

End LibFaceCache.

(** Two calls on frames of 640 x 480 and one on 320 x 240, with a
    runtime that finds nothing: the cache holds the first size after the
    first call. *)
Lemma LibFace_cache_grows_witness :
  let frame := mkFrame 480 640 3 (fun _ _ _ => 0%Z) in
  let self := @LibFace__init__ (Z * Z) (98 # 100) 30 0 0 in
  let self' := mkLibFace (lib_attrs self) (nms_thresh self) (keep_top_k self)
                         [((640, 480)%Z, (640, 480)%Z)] in
  dict_get (640, 480)%Z (dprior self') <> None /\
  (forall k pb, dict_get k (dprior self) = Some pb -> dict_get k (dprior self') = Some pb) /\
  (forall k, k <> (640, 480)%Z -> dict_get k (dprior self') = dict_get k (dprior self)) /\
  (List.length (dprior self) <= List.length (dprior self') <=
   Datatypes.S (List.length (dprior self)))%nat.
Proof.
  intros frame self self'.
  exact (LibFace_cache_grows (fun _ => tt) (fun i _ => i) (fun _ _ _ => [])
           (fun _ _ _ _ _ _ => []) self self' frame [] eq_refl).
Defined.

Lemma LibFace_cache_transparent_witness :
  let frame := mkFrame 480 640 3 (fun _ _ _ => 0%Z) in
  let row := mkDetRow 10 20 30 40 (1, 2, 3, 4) (99 # 100) in
  let self := mkLibFace (FaceDetector__init__ (98 # 100) 30 0 0) (3 # 10) 750
                        [((640, 480)%Z, (640, 480)%Z)] in
  let out := [mkDetectionEyes (mkRect 10 20 (10 + 30) (20 + 40)) (Conf (99 # 100))
                              (mkRect 1 2 3 4)] in
  cache_consistent (fun i (_ : Z * Z) => i) (dprior self) /\
  exists fresh',
    LibFace_call_imp (fun _ => tt) (fun i _ => i) (fun _ _ _ => [row])
                     (fun _ _ _ _ _ _ => [0%nat])
                     (mkLibFace (lib_attrs self) (nms_thresh self) (keep_top_k self) [])
                     frame = Ok (out, fresh').
Proof.
  intros frame row self out.
  assert (C : cache_consistent (fun i (_ : Z * Z) => i) (dprior self)).
  { intros k pb. cbn [dprior self dict_get fst snd].
    destruct ((640 =? fst k) && (480 =? snd k))%Z eqn:E; [|discriminate].
    apply andb_true_iff in E. destruct E as [E1 E2].
    apply Z.eqb_eq in E1, E2. destruct k as [k1 k2]. cbn [fst snd] in *.
    subst. now intros [= <-]. }
  split; [exact C|].
  exact (proj2 (LibFace_cache_transparent (fun _ => tt) (fun i _ => i) (fun _ _ _ => [row])
                  (fun _ _ _ _ _ _ => [0%nat]) self self frame out C eq_refl)).
Defined.

(** ** [_angle_between_2_points] and [Dlib68FaceAlignment.__call__] *)

Section Alignment.

Context {F Mat : Type}.
Variable degrees_arctan : Q -> F.
Variable degrees_half_pi : F.
Variable degrees_minus_half_pi : F.
Variable getRotationMatrix2D : Q * Q -> F -> Mat.
Variable add_translation : Mat -> Z -> Z -> Mat.
Variable warpAffine : Frame -> Mat -> Z * Z -> result Frame.

(** X21.  [_angle_between_2_points] never raises: the division is only reached
    when the two x coordinates differ.  On two points with the same x it
    returns +90 degrees when the second one has the greater y and -90
    degrees otherwise, also when the two points coincide. *)
Theorem angle_between_2_points_total (xa ya xb yb : Z) :
  let angle := face_utils._angle_between_2_points
                 degrees_arctan degrees_half_pi degrees_minus_half_pi (xa, ya) (xb, yb) in
  (xa <> xb ->
   angle = Ok (degrees_arctan (inject_Z (yb - ya) / inject_Z (xb - xa)))) /\
  (xa = xb -> (ya < yb)%Z -> angle = Ok degrees_half_pi) /\
  (xa = xb -> (yb <= ya)%Z -> angle = Ok degrees_minus_half_pi).
Proof.
  cbn zeta. unfold face_utils._angle_between_2_points, face_utils.truediv.
  repeat split.
  - intro Hx. replace (xa =? xb)%Z with false by (symmetry; apply Z.eqb_neq; lia).
    cbn [negb]. replace (xb - xa =? 0)%Z with false by (symmetry; apply Z.eqb_neq; lia).
    reflexivity.
  - intros -> Hy. rewrite Z.eqb_refl. cbn [negb].
    now replace (ya <? yb)%Z with true by (symmetry; apply Z.ltb_lt; lia).
  - intros -> Hy. rewrite Z.eqb_refl. cbn [negb].
    now replace (ya <? yb)%Z with false by (symmetry; apply Z.ltb_ge; lia).
Qed.

(** X22.  Called with [bb = None], which its documentation allows, the
    alignment never returns: once the eye centers are found it raises
    [TypeError] on [bb[2]]. *)
Theorem align_call_None (self : face_alignment.Dlib68FaceAlignment) (frame : Frame) :
  (forall r,
      face_alignment.__call__ degrees_arctan degrees_half_pi degrees_minus_half_pi
        getRotationMatrix2D add_translation warpAffine self frame None <> Ok r) /\
  ((48 <= dlib.num_parts
            (face_alignment.model self frame
               (dlib.mkRectangle 0 0 (shape1 frame) (shape0 frame))))%nat ->
   face_alignment.__call__ degrees_arctan degrees_half_pi degrees_minus_half_pi
     getRotationMatrix2D add_translation warpAffine self frame None =
   Raise (TypeError "'NoneType' object is not subscriptable")).
Proof.
  unfold face_alignment.__call__. split.
  - intro r. destruct (face_alignment.detect_eye_centers self frame None) as [[l rr]|e];
      cbn [bind]; discriminate.
  - intro H48. unfold face_alignment.detect_eye_centers.
    set (shape := face_alignment.model self frame _) in *.
    unfold face_utils.extract_left_eye_center, face_utils.extract_right_eye_center,
      face_utils._extract_eye_center.
    change face_utils.LEFT_EYE_INDICES with (seq 36 6).
    change face_utils.RIGHT_EYE_INDICES with (seq 42 6).
    rewrite (_extract_eye_landmarks shape 6 36), (_extract_eye_landmarks shape 6 42) by lia.
    reflexivity.
Qed.

End Alignment.

Lemma align_call_None_witness :
  let self := face_alignment.mkAlign
                (fun _ _ => dlib.mkShape
                              (map (fun i => dlib.mkPoint (3 * Z.of_nat i) (100 - Z.of_nat i))
                                   (seq 0 68))) in
  let frame := mkFrame 100 100 3 (fun _ _ _ => 0%Z) in
  face_alignment.__call__ (fun q : Q => q) (90 : Q) (- (90) : Q)
    (fun (c : Q * Q) (a : Q) => (c, a)) (fun M _ _ => M) (fun f _ _ => Ok f)
    self frame None =
  Raise (TypeError "'NoneType' object is not subscriptable").
Proof.
  intros self frame.
  refine (proj2 (align_call_None (fun q : Q => q) (90 : Q) (- (90) : Q)
                   (fun (c : Q * Q) (a : Q) => (c, a)) (fun M _ _ => M)
                   (fun f _ _ => Ok f) self frame) _).
  vm_compute. lia.
Defined.

Lemma angle_between_2_points_total_witness :
  face_utils._angle_between_2_points (fun q : Q => q) (90 : Q) (- (90) : Q)
    (3, 4)%Z (3, 4)%Z = Ok (- (90)).
Proof.
  refine (proj2 (proj2 (angle_between_2_points_total (fun q : Q => q) (90 : Q) (- (90) : Q)
                          3 4 3 4)) eq_refl _).
  lia.
Defined.

(** ** [_sqdist] *)


(** ** More on [video_iterator] and on the OpenCV detector *)

Lemma pow2_pos (e : Z) : 0 < pow2 e.
Proof.
  destruct e as [|q|q]; unfold pow2; [reflexivity| |reflexivity].
  unfold Qlt, inject_Z; cbn [Qnum Qden].
  pose proof (Z.pow_pos_nonneg 2 (Z.pos q)). lia.
Qed.

(** Rounding to the nearest double keeps the sign. *)
Lemma float_nonneg (q : Q) : 0 <= q -> 0 <= Py.float q.
Proof.
  intro H. unfold Py.float. destruct q as [[|n|n] d]; cbn [Qnum].
  - apply Qle_refl.
  - unfold float_of_pos. cbn zeta.
    set (e := Z.max _ _). pose proof (pow2_pos e) as Pe.
    apply Qmult_le_0_compat; [|now apply Qlt_le_weak].
    assert (N : 0 <= (Z.pos n # d) / pow2 e).
    { apply Qle_shift_div_l; [assumption|]. now rewrite Qmult_0_l. }
    apply np_round_monotone in N. change (np_round 0) with 0%Z in N.
    unfold Qle, inject_Z; cbn [Qnum Qden]. lia.
  - unfold Qle in H. cbn [Qnum Qden] in H. lia.
Qed.

Lemma fmul_nonneg (a b : Q) : 0 <= a -> 0 <= b -> 0 <= Py.fmul a b.
Proof.
  intros Ha Hb. unfold Py.fmul.
  apply float_nonneg, Qmult_le_0_compat; now apply float_nonneg.
Qed.

(** X5.  With the time unit 'ms' the bounds are turned into frame numbers,
    the floor of [t * fps / 1000] where [t * fps] is the float product,
    and the iteration produces the frames that these frame bounds and the
    stride ask for. *)
Theorem video_iterator_ms (cap : opencv_utils.VideoCapture)
    (start stop : option Z) (subsamp_coeff : Z) (n : nat) :
  opencv_utils.isOpened cap = true ->
  subsamp_coeff <> 0%Z ->
  0 <= opencv_utils.CAP_PROP_FPS cap ->
  match start with Some s => (0 <= s)%Z | None => True end ->
  (List.length (opencv_utils.frames cap) < n)%nat ->
  let to_frame :=
    fun t => Qfloor (Py.float (Py.float (inject_Z t) * Py.float (opencv_utils.CAP_PROP_FPS cap))
                     / 1000) in
  opencv_utils.iterate n (opencv_utils.Unstarted cap "ms" start stop subsamp_coeff) =
  (expected_items (opencv_utils.frames cap)
                  (option_map to_frame start) (option_map to_frame stop) subsamp_coeff,
   opencv_utils.Completed).
Proof.
  intros Ho Hk Hfps Hs Hn to_frame.
  rewrite <- (iterate_frame_unit cap (option_map to_frame start) (option_map to_frame stop)
                subsamp_coeff n Ho Hk); [|
    |assumption].
  - destruct n as [|m]; [reflexivity|].
    cbn [opencv_utils.iterate opencv_utils.next]. rewrite Ho. reflexivity.
  - destruct start as [s|]; [|exact I]. cbn [option_map]. unfold to_frame.
    rewrite <- (Qfloor_Z 0). apply Qfloor_resp_le.
    apply Qle_shift_div_l; [reflexivity|]. rewrite Qmult_0_l.
    apply (fmul_nonneg (inject_Z s)); [|assumption].
    unfold Qle, inject_Z; cbn [Qnum Qden]; lia.
Qed.

(** 30000/1001 frames per second, as the double that OpenCV reports:
    from 1001 ms, where the float product is 30000.0, to 1100 ms is from
    frame 30 to frame 32. *)
Lemma video_iterator_ms_witness :
  let fr := fun h => mkFrame h 4 3 (fun _ _ _ => 0%Z) in
  let cap := opencv_utils.mkCapture true (Py.float (30000 # 1001))
               (map (fun i => fr (Z.of_nat i)) (seq 0 40)) in
  opencv_utils.iterate 41 (opencv_utils.Unstarted cap "ms" (Some 1001%Z) (Some 1100%Z) 1) =
  ([(30%Z, opencv_utils.cvtColor_BGR2RGB (fr 30%Z));
    (31%Z, opencv_utils.cvtColor_BGR2RGB (fr 31%Z));
    (32%Z, opencv_utils.cvtColor_BGR2RGB (fr 32%Z))], opencv_utils.Completed).
Proof.
  intros fr cap.
  refine (eq_trans (video_iterator_ms cap (Some 1001%Z) (Some 1100%Z) 1 41 eq_refl _ _ _ _) _).
  - discriminate.
  - vm_compute. discriminate.
  - vm_compute. discriminate.
  - vm_compute. lia.
  - vm_compute. reflexivity.
Defined.

Lemma StronglySorted_filter {A : Type} (R : A -> A -> Prop) (f : A -> bool) (l : list A) :
  StronglySorted R l -> StronglySorted R (filter f l).
Proof.
  induction 1 as [|a l Hs IH Hall]; simpl; [constructor|].
  destruct (f a); [|assumption]. constructor; [assumption|].
  apply Forall_forall. intros b Hb. apply filter_In in Hb. destruct Hb as [Hb _].
  revert b Hb. now apply Forall_forall.
Qed.

(** X8.  Whenever [_call_imp] returns, its detections come in descending
    order of confidence, and there are no more of them than candidates. *)
Theorem OcvCnn_call_imp_order (self self' : OcvCnn) (frame : Frame) (mc : Q)
    (l : list Detection) :
  minconf (ocv_attrs self) = Some mc ->
  OcvCnn_call_imp self frame = Ok (l, self') ->
  (exists cs, map detect_conf l = map Conf cs /\
              StronglySorted (fun a b => b <= a) cs) /\
  (List.length l <= List.length (forward self frame))%nat.
Proof.
  intros Hmc. unfold OcvCnn_call_imp. cbn zeta. rewrite Hmc.
  destruct (sorted_assertion (forward self frame)) eqn:Ha; [|discriminate].
  apply assertion_sorted_desc in Ha. cbn [negb].
  rewrite (decode_loop_full_scan mc _ _ _ Ha). cbn [bind app]. intros [= <- _].
  unfold full_scan. split.
  - set (kept := filter _ (forward self frame)).
    exists (map confidence kept). split.
    + rewrite !map_map. reflexivity.
    + assert (Hk : sorted_desc kept) by (apply StronglySorted_filter; exact Ha).
      clear - Hk. induction Hk as [|d k Hs IH Hall]; simpl; constructor; [assumption|].
      apply Forall_forall. intros c Hc. apply in_map_iff in Hc.
      destruct Hc as (e & <- & He). revert e He. now apply Forall_forall.
  - rewrite length_map. apply filter_length_le.
Qed.

Lemma OcvCnn_call_imp_order_witness :
  let frame := mkFrame 100 200 3 (fun _ _ _ => 0%Z) in
  let ocv := OcvCnn__init__
               (fun _ => [mkRaw (9 # 10) (1 # 4) (1 # 4) (3 # 4) (3 # 4);
                          mkRaw (8 # 10) (1 # 2) (1 # 4) (1 # 2) (3 # 4);
                          mkRaw (7 # 10) (1 # 4) (1 # 4) (2 # 4) (2 # 4);
                          mkRaw (1 # 10) (1 # 4) (1 # 4) (3 # 4) (2 # 4)])
               (65 # 100) 30 0 (15 # 100) in
  (exists cs,
      map detect_conf
          [mkDetection (mkRect (200 # 4) (100 # 4) (600 # 4) (300 # 4)) (Conf (9 # 10));
           mkDetection (mkRect (200 # 4) (100 # 4) (400 # 4) (200 # 4)) (Conf (7 # 10))] =
      map Conf cs /\
      StronglySorted (fun a b => b <= a) cs) /\
  (2 <= 4)%nat.
Proof.
  intros frame ocv.
  exact (OcvCnn_call_imp_order ocv ocv frame (65 # 100) _ eq_refl eq_refl).
Defined.
